(** * Educational k-Means widget (orange3-educational, [owkmeans.py])

    A shallow embedding of the widget [OWKmeans], of its autoplay thread
    [Autoplay] and of the stepwise clustering engine the widget drives.

    The engine, class [Kmeans] of [widgets/utils/kmeans.py], is imported by
    [owkmeans.py] but its source file is not among the files embedded here; it
    is modelled from the specification (module [Kmeans] below).  Coordinates
    are exact rationals ([Q]) and distances are squared Euclidean distances,
    which the specification allows since only their order matters. *)

From Stdlib Require Import String DecimalString ZArith QArith Qround List Bool
  Arith Lia Lqa.
Import ListNotations.

Set Implicit Arguments.

Close Scope Q_scope.

(** ** Points and distances *)

Definition Point : Type := (Q * Q)%type.

Definition Qltb (a b : Q) : bool := negb (Qle_bool b a).

Definition Qmin' (a b : Q) : Q := if Qle_bool a b then a else b.
Definition Qmax' (a b : Q) : Q := if Qle_bool a b then b else a.

Definition sq (a : Q) : Q := (a * a)%Q.

(** Squared Euclidean distance between a point and a centroid. *)
Definition dist2 (p c : Point) : Q :=
  (sq (fst p - fst c) + sq (snd p - snd c))%Q.

Definition point_eqb (p q : Point) : bool :=
  Qeq_bool (fst p) (fst q) && Qeq_bool (snd p) (snd q).

Fixpoint points_eqb (ps qs : list Point) : bool :=
  match ps, qs with
  | [], [] => true
  | p :: ps', q :: qs' => point_eqb p q && points_eqb ps' qs'
  | _, _ => false
  end.

Fixpoint nats_eqb (xs ys : list nat) : bool :=
  match xs, ys with
  | [], [] => true
  | x :: xs', y :: ys' => Nat.eqb x y && nats_eqb xs' ys'
  | _, _ => false
  end.

(** ** The stepwise clustering engine *)

Module Kmeans.

(** Modelled from the spec: a history entry, "complete snapshots
    (centroids, assignments, phase) recorded before each mutating step". *)
Record Snapshot : Type := mkSnapshot {
  snap_centroids : list Point;
  snap_clusters : option (list nat);
  snap_step_completed : bool
}.

(** Modelled from the spec: the state of class [Kmeans]
    ([widgets/utils/kmeans.py], not embedded).  [step_completed = true] is
    the phase AWAITING_ASSIGNMENT, [false] is AWAITING_UPDATE; [clusters] is
    [None] until the first assignment phase has run. *)
Record t : Type := mk {
  data : list Point;
  centroids : list Point;
  clusters : option (list nat);
  step_completed : bool;
  history : list Snapshot;
  converged : bool
}.

(** Modelled from the spec: [k], the number of centroids. *)
Definition k (km : t) : Z := Z.of_nat (length (centroids km)).

(** Modelled from the spec: [stepNo], "step_count() -> int (history
    length)". *)
Definition stepNo (km : t) : Z := Z.of_nat (length (history km)).

Definition snapshot (km : t) : Snapshot :=
  mkSnapshot (centroids km) (clusters km) (step_completed km).

(** *** Random seeding inside the bounding box *)

Definition clamp (lo hi q : Q) : Q := Qmax' lo (Qmin' hi q).

Definition bounds (xs : list Q) : option (Q * Q) :=
  match xs with
  | [] => None
  | x :: xs' =>
      Some (fold_left Qmin' xs' x, fold_left Qmax' xs' x)
  end.

(** Modelled from the spec: "a random location within the dataset's
    bounding box"; the random draw is an input and is brought into the
    per-axis minimum and maximum of the dataset. *)
Definition random_position (dataset : list Point) (draw : Point) : Point :=
  match bounds (map fst dataset), bounds (map snd dataset) with
  | Some (x0, x1), Some (y0, y1) =>
      (clamp x0 x1 (fst draw), clamp y0 y1 (snd draw))
  | _, _ => draw
  end.

(** Modelled from the spec: construction [new(dataset, k = 1)]: "stores
    dataset, initializes k centroids to random points within the data's
    bounding box, sets phase = AWAITING_ASSIGNMENT, history = empty,
    assignments = unset"; with fewer points than requested centroids
    "construction ... fails" (InsufficientPoints / EmptyDataset). *)
Definition new (dataset : list Point) (k0 : nat) (draws : nat -> Point)
  : option t :=
  if length dataset <? k0 then None
  else Some (mk dataset
                (map (fun i => random_position dataset (draws i)) (seq 0 k0))
                None true [] false).

(** *** Assignment phase *)

Fixpoint nearest_from (p : Point) (cs : list Point) (i best : nat)
         (bestd : Q) : nat :=
  match cs with
  | [] => best
  | c :: cs' =>
      if Qltb (dist2 p c) bestd
      then nearest_from p cs' (S i) i (dist2 p c)
      else nearest_from p cs' (S i) best bestd
  end.

(** Index of the centroid at minimum distance from [p]; a later centroid
    replaces the current best only when it is strictly closer, so ties go to
    the lowest index. *)
Definition nearest (cs : list Point) (p : Point) : nat :=
  match cs with
  | [] => 0%nat
  | c :: cs' => nearest_from p cs' 1 0 (dist2 p c)
  end.

Definition find_clusters (cs : list Point) (dataset : list Point)
  : list nat :=
  map (nearest cs) dataset.

(** *** Update phase *)

Fixpoint members (i : nat) (dataset : list Point) (a : list nat)
  : list Point :=
  match dataset, a with
  | p :: ps, c :: a' =>
      if Nat.eqb c i then p :: members i ps a' else members i ps a'
  | _, _ => []
  end.

Definition Qsum (xs : list Q) : Q := fold_right Qplus 0%Q xs.

Definition mean (ps : list Point) : Point :=
  let n := inject_Z (Z.of_nat (length ps)) in
  (Qred (Qsum (map fst ps) / n), Qred (Qsum (map snd ps) / n)).

Definition members_of (km : t) (i : nat) : list Point :=
  match clusters km with
  | Some a => members i (data km) a
  | None => []
  end.

(** Modelled from the spec: "for each centroid index, the sub-sequence of
    Points currently assigned to it"; before the first assignment phase
    every group is empty. *)
Definition centroids_belonging_points (km : t) : list (list Point) :=
  map (members_of km) (seq 0 (length (centroids km))).

Fixpoint update_from (km : t) (i : nat) (cs : list Point) : list Point :=
  match cs with
  | [] => []
  | c :: cs' =>
      (match members_of km i with
       | [] => c
       | m :: ms => mean (m :: ms)
       end) :: update_from km (S i) cs'
  end.

Definition update_centroids (km : t) : list Point :=
  update_from km 0 (centroids km).

Definition same_assignment (old : option (list nat)) (a : list nat) : bool :=
  match old with
  | Some o => nats_eqb o a
  | None => false
  end.

(** Modelled from the spec: [step()], one phase per call.  The pre-step
    snapshot is pushed on the history; in phase AWAITING_ASSIGNMENT every
    point is assigned to its nearest centroid and [converged] records whether
    the assignment repeats the previous one; in phase AWAITING_UPDATE every
    centroid with members moves to their mean, a centroid without members
    stays, and [converged] is cleared when a centroid moved. *)
Definition step (km : t) : t :=
  if step_completed km then
    let a := find_clusters (centroids km) (data km) in
    mk (data km) (centroids km) (Some a) false
       (snapshot km :: history km)
       (same_assignment (clusters km) a)
  else
    let cs := update_centroids km in
    mk (data km) cs (clusters km) true
       (snapshot km :: history km)
       (converged km && points_eqb cs (centroids km)).

(** Modelled from the spec: [step_back()]: "If history is non-empty, pop
    the most recent snapshot and restore centroids, assignments, and phase
    from it; clears converged.  If history is empty, this is a no-op". *)
Definition stepBack (km : t) : t :=
  match history km with
  | [] => km
  | s :: h =>
      mk (data km) (snap_centroids s) (snap_clusters s)
         (snap_step_completed s) h false
  end.

(** Modelled from the spec: [add_centroid(position = None)]: "Appends a new
    centroid at position if given, otherwise at a random location within
    the dataset's bounding box.  K increases by 1. ... Does not itself
    reassign points".  The phase gate is left to the caller, "per the
    reference behavior".  [draw] is read only when no position is
    given. *)
Definition add_centroids (position : option Point) (draw : Point) (km : t)
  : t :=
  let c := match position with
           | Some p => p
           | None => random_position (data km) draw
           end in
  mk (data km) (centroids km ++ [c]) (clusters km) (step_completed km)
     (history km) false.

Definition remove_at (A : Type) (i : nat) (l : list A) : list A :=
  firstn i l ++ skipn (S i) l.

(** Modelled from the spec: [delete_centroid(index)] (default: last):
    "K decreases by 1; fails (no-op or error) if K would drop below 1";
    an index outside [0, K) is rejected; assignments are left as they
    are. *)
Definition delete_centroids (index : option Z) (km : t) : t :=
  let n := length (centroids km) in
  let i := match index with
           | Some z => z
           | None => (Z.of_nat n - 1)%Z
           end in
  if n <=? 1 then km
  else if (i <? 0)%Z || (Z.of_nat n <=? i)%Z then km
  else mk (data km) (remove_at (Z.to_nat i) (centroids km)) (clusters km)
          (step_completed km) (history km) false.

Fixpoint set_nth (A : Type) (i : nat) (x : A) (l : list A) : list A :=
  match l, i with
  | [], _ => []
  | _ :: l', O => x :: l'
  | y :: l', S i' => y :: set_nth i' x l'
  end.

(** Modelled from the spec: [move_centroid(index, new_position)]:
    "Directly overwrites centroid index's coordinates ...; does not trigger
    reassignment ... Clears converged"; an index outside [0, K) is
    rejected. *)
Definition move_centroid (index : Z) (x y : Q) (km : t) : t :=
  if (index <? 0)%Z || (k km <=? index)%Z then km
  else mk (data km) (set_nth (Z.to_nat index) (x, y) (centroids km))
          (clusters km) (step_completed km) (history km) false.

End Kmeans.

(** ** Orange tables, as far as the widget reads them *)

Inductive OrangeVariable : Type :=
| ContinuousVariable (name : string)
| DiscreteVariable (name : string) (values : list string)
| StringVariable (name : string).

Definition var_name (v : OrangeVariable) : string :=
  match v with
  | ContinuousVariable n => n
  | DiscreteVariable n _ => n
  | StringVariable n => n
  end.

(** [var.is_primitive() and var.is_continuous], which is also what
    [isinstance(var, ContinuousVariable)] tests. *)
Definition is_continuous (v : OrangeVariable) : bool :=
  match v with
  | ContinuousVariable _ => true
  | _ => false
  end.

Definition is_discrete (v : OrangeVariable) : bool :=
  match v with
  | DiscreteVariable _ _ => true
  | _ => false
  end.

Definition var_values (v : OrangeVariable) : list string :=
  match v with
  | DiscreteVariable _ vs => vs
  | _ => []
  end.

Record Domain : Type := mkDomain {
  attributes : list OrangeVariable;
  class_vars : list OrangeVariable;
  metas : list OrangeVariable
}.

(** One instance: its values for the attributes and for the class
    variables, in domain order. *)
Record Row : Type := mkRow {
  x_vals : list Q;
  y_vals : list Q
}.

Record Table : Type := mkTable {
  domain : Domain;
  rows : list Row
}.

(** [len(table)] *)
Definition len (t : Table) : Z := Z.of_nat (length (rows t)).

(** Iterating a domain yields its attributes, then its class variables. *)
Definition domain_iter (d : Domain) : list OrangeVariable :=
  attributes d ++ class_vars d.

Fixpoint find_var (n : string) (vs : list OrangeVariable) : option (nat * OrangeVariable) :=
  match vs with
  | [] => None
  | v :: vs' =>
      if String.eqb (var_name v) n then Some (O, v)
      else match find_var n vs' with
           | Some (i, w) => Some (S i, w)
           | None => None
           end
  end.

(** [domain[name]]: the variable of that name among attributes, class
    variables and metas; [None] stands for [KeyError]. *)
Definition domain_getitem (d : Domain) (n : string) : option OrangeVariable :=
  match find_var n (attributes d ++ class_vars d ++ metas d) with
  | Some (_, v) => Some v
  | None => None
  end.

(** The column [subset.Y if subset.Y.size else subset.X] of
    [subset = table[:, attr]].  For an attribute it is the column of [X].
    For a class variable it is the column of [Y], unless the table has no
    rows: then [subset.Y.size] is 0 and the empty [subset.X] is taken, as for
    a meta attribute, which has no numeric column here; [None] stands for
    the [ValueError] that [Table(domain, x)] raises on the missing
    column. *)
Definition column (t : Table) (n : string) : option (list Q) :=
  match find_var n (attributes (domain t)) with
  | Some (i, _) => Some (map (fun r => nth i (x_vals r) 0%Q) (rows t))
  | None =>
      match find_var n (class_vars (domain t)) with
      | Some (j, _) =>
          match rows t with
          | [] => None
          | _ :: _ => Some (map (fun r => nth j (y_vals r) 0%Q) (rows t))
          end
      | None => None
      end
  end.

(** ** The chart *)

Inductive Series : Type :=
| LineSeries (points : list Point)
| ScatterSeries (points : list Point) (color : string)
| CentroidSeries (points : list (Point * string)) (draggableX draggableY : bool).

Record Plot : Type := mkPlot {
  series : list Series;
  xAxis_title_text : string;
  yAxis_title_text : string;
  xAxis_categories : option (list string);
  yAxis_categories : option (list string)
}.

(** ** Output signals *)

Record AnnotatedTable : Type := mkAnnotated {
  ann_domain : Domain;
  ann_source : Table;
  ann_cluster_column : list nat
}.

Inductive Signal : Type :=
| AnnotatedData (t : option AnnotatedTable)
| Centroids (t : option (list Point)).

(** ** The widget *)

Record Gui : Type := mkGui {
  info : string;
  cbx : list string;
  cby : list string;
  optionsBox_disabled : bool;
  centroidNumbersSpinner_disabled : bool;
  commandsBox_disabled : bool;
  stepButton_text : string;
  stepButton_disabled : bool;
  stepBackButton_disabled : bool;
  restartButton_disabled : bool;
  autoPlayButton_text : string;
  scatter : option Plot
}.

(** The attributes of an [OWKmeans] instance.  [autoPlayThread] counts the
    [Autoplay] threads started so far, [sent] lists the signals sent on the
    outputs (oldest first), and [rng], [rng_used] are the random source the
    engine draws centroid positions from. *)
Record OWKmeans : Type := mkOWKmeans {
  numberOfClusters : Z;
  autoPlay : bool;
  data : option Table;
  attr_x : string;
  attr_y : string;
  lines_to_centroids : bool;
  k_means : option Kmeans.t;
  gui : Gui;
  autoPlayThread : nat;
  sent : list Signal;
  rng : nat -> Point;
  rng_used : nat
}.

Definition with_info (v : string) (g : Gui) : Gui :=
  mkGui v (cbx g) (cby g) (optionsBox_disabled g)
    (centroidNumbersSpinner_disabled g) (commandsBox_disabled g)
    (stepButton_text g) (stepButton_disabled g) (stepBackButton_disabled g)
    (restartButton_disabled g) (autoPlayButton_text g) (scatter g).

Definition with_cbx (v : list string) (g : Gui) : Gui :=
  mkGui (info g) v (cby g) (optionsBox_disabled g)
    (centroidNumbersSpinner_disabled g) (commandsBox_disabled g)
    (stepButton_text g) (stepButton_disabled g) (stepBackButton_disabled g)
    (restartButton_disabled g) (autoPlayButton_text g) (scatter g).

Definition with_cby (v : list string) (g : Gui) : Gui :=
  mkGui (info g) (cbx g) v (optionsBox_disabled g)
    (centroidNumbersSpinner_disabled g) (commandsBox_disabled g)
    (stepButton_text g) (stepButton_disabled g) (stepBackButton_disabled g)
    (restartButton_disabled g) (autoPlayButton_text g) (scatter g).

Definition with_optionsBox_disabled (v : bool) (g : Gui) : Gui :=
  mkGui (info g) (cbx g) (cby g) v (centroidNumbersSpinner_disabled g)
    (commandsBox_disabled g) (stepButton_text g) (stepButton_disabled g)
    (stepBackButton_disabled g) (restartButton_disabled g)
    (autoPlayButton_text g) (scatter g).

Definition with_centroidNumbersSpinner_disabled (v : bool) (g : Gui) : Gui :=
  mkGui (info g) (cbx g) (cby g) (optionsBox_disabled g) v
    (commandsBox_disabled g) (stepButton_text g) (stepButton_disabled g)
    (stepBackButton_disabled g) (restartButton_disabled g)
    (autoPlayButton_text g) (scatter g).

Definition with_commandsBox_disabled (v : bool) (g : Gui) : Gui :=
  mkGui (info g) (cbx g) (cby g) (optionsBox_disabled g)
    (centroidNumbersSpinner_disabled g) v (stepButton_text g)
    (stepButton_disabled g) (stepBackButton_disabled g)
    (restartButton_disabled g) (autoPlayButton_text g) (scatter g).

Definition with_stepButton_text (v : string) (g : Gui) : Gui :=
  mkGui (info g) (cbx g) (cby g) (optionsBox_disabled g)
    (centroidNumbersSpinner_disabled g) (commandsBox_disabled g) v
    (stepButton_disabled g) (stepBackButton_disabled g)
    (restartButton_disabled g) (autoPlayButton_text g) (scatter g).

Definition with_stepButton_disabled (v : bool) (g : Gui) : Gui :=
  mkGui (info g) (cbx g) (cby g) (optionsBox_disabled g)
    (centroidNumbersSpinner_disabled g) (commandsBox_disabled g)
    (stepButton_text g) v (stepBackButton_disabled g)
    (restartButton_disabled g) (autoPlayButton_text g) (scatter g).

Definition with_stepBackButton_disabled (v : bool) (g : Gui) : Gui :=
  mkGui (info g) (cbx g) (cby g) (optionsBox_disabled g)
    (centroidNumbersSpinner_disabled g) (commandsBox_disabled g)
    (stepButton_text g) (stepButton_disabled g) v (restartButton_disabled g)
    (autoPlayButton_text g) (scatter g).

Definition with_restartButton_disabled (v : bool) (g : Gui) : Gui :=
  mkGui (info g) (cbx g) (cby g) (optionsBox_disabled g)
    (centroidNumbersSpinner_disabled g) (commandsBox_disabled g)
    (stepButton_text g) (stepButton_disabled g) (stepBackButton_disabled g) v
    (autoPlayButton_text g) (scatter g).

Definition with_autoPlayButton_text (v : string) (g : Gui) : Gui :=
  mkGui (info g) (cbx g) (cby g) (optionsBox_disabled g)
    (centroidNumbersSpinner_disabled g) (commandsBox_disabled g)
    (stepButton_text g) (stepButton_disabled g) (stepBackButton_disabled g)
    (restartButton_disabled g) v (scatter g).

Definition with_scatter (v : option Plot) (g : Gui) : Gui :=
  mkGui (info g) (cbx g) (cby g) (optionsBox_disabled g)
    (centroidNumbersSpinner_disabled g) (commandsBox_disabled g)
    (stepButton_text g) (stepButton_disabled g) (stepBackButton_disabled g)
    (restartButton_disabled g) (autoPlayButton_text g) v.

Definition with_numberOfClusters (v : Z) (w : OWKmeans) : OWKmeans :=
  mkOWKmeans v (autoPlay w) (data w) (attr_x w) (attr_y w)
    (lines_to_centroids w) (k_means w) (gui w) (autoPlayThread w) (sent w)
    (rng w) (rng_used w).

Definition with_autoPlay (v : bool) (w : OWKmeans) : OWKmeans :=
  mkOWKmeans (numberOfClusters w) v (data w) (attr_x w) (attr_y w)
    (lines_to_centroids w) (k_means w) (gui w) (autoPlayThread w) (sent w)
    (rng w) (rng_used w).

Definition with_data (v : option Table) (w : OWKmeans) : OWKmeans :=
  mkOWKmeans (numberOfClusters w) (autoPlay w) v (attr_x w) (attr_y w)
    (lines_to_centroids w) (k_means w) (gui w) (autoPlayThread w) (sent w)
    (rng w) (rng_used w).

Definition with_attr_x (v : string) (w : OWKmeans) : OWKmeans :=
  mkOWKmeans (numberOfClusters w) (autoPlay w) (data w) v (attr_y w)
    (lines_to_centroids w) (k_means w) (gui w) (autoPlayThread w) (sent w)
    (rng w) (rng_used w).

Definition with_attr_y (v : string) (w : OWKmeans) : OWKmeans :=
  mkOWKmeans (numberOfClusters w) (autoPlay w) (data w) (attr_x w) v
    (lines_to_centroids w) (k_means w) (gui w) (autoPlayThread w) (sent w)
    (rng w) (rng_used w).

Definition with_lines_to_centroids (v : bool) (w : OWKmeans) : OWKmeans :=
  mkOWKmeans (numberOfClusters w) (autoPlay w) (data w) (attr_x w) (attr_y w)
    v (k_means w) (gui w) (autoPlayThread w) (sent w) (rng w) (rng_used w).

Definition with_k_means (v : option Kmeans.t) (w : OWKmeans) : OWKmeans :=
  mkOWKmeans (numberOfClusters w) (autoPlay w) (data w) (attr_x w) (attr_y w)
    (lines_to_centroids w) v (gui w) (autoPlayThread w) (sent w) (rng w)
    (rng_used w).

Definition with_gui (v : Gui) (w : OWKmeans) : OWKmeans :=
  mkOWKmeans (numberOfClusters w) (autoPlay w) (data w) (attr_x w) (attr_y w)
    (lines_to_centroids w) (k_means w) v (autoPlayThread w) (sent w) (rng w)
    (rng_used w).

Definition with_autoPlayThread (v : nat) (w : OWKmeans) : OWKmeans :=
  mkOWKmeans (numberOfClusters w) (autoPlay w) (data w) (attr_x w) (attr_y w)
    (lines_to_centroids w) (k_means w) (gui w) v (sent w) (rng w) (rng_used w).

Definition with_sent (v : list Signal) (w : OWKmeans) : OWKmeans :=
  mkOWKmeans (numberOfClusters w) (autoPlay w) (data w) (attr_x w) (attr_y w)
    (lines_to_centroids w) (k_means w) (gui w) (autoPlayThread w) v (rng w)
    (rng_used w).

Definition with_rng (v : nat -> Point) (w : OWKmeans) : OWKmeans :=
  mkOWKmeans (numberOfClusters w) (autoPlay w) (data w) (attr_x w) (attr_y w)
    (lines_to_centroids w) (k_means w) (gui w) (autoPlayThread w) (sent w) v
    (rng_used w).

Definition with_rng_used (v : nat) (w : OWKmeans) : OWKmeans :=
  mkOWKmeans (numberOfClusters w) (autoPlay w) (data w) (attr_x w) (attr_y w)
    (lines_to_centroids w) (k_means w) (gui w) (autoPlayThread w) (sent w)
    (rng w) v.

(** ** Handlers: a state monad with Python exceptions

    A handler runs on the widget's attributes; when it raises, the changes
    made before the exception stay. *)

Inductive Exn : Type :=
| AttributeError
| TypeError
| KeyError
| ValueError
| InsufficientPoints
| RecursionError.

Inductive Res (A : Type) : Type :=
| Ok (a : A)
| Raise (e : Exn).

Arguments Ok {A} a.
Arguments Raise {A} e.

Definition M (A : Type) : Type := OWKmeans -> Res A * OWKmeans.

Definition ret (A : Type) (a : A) : M A := fun w => (Ok a, w).

Definition raise (A : Type) (e : Exn) : M A := fun w => (Raise e, w).

Arguments raise {A} e.

Definition bind (A B : Type) (c : M A) (f : A -> M B) : M B :=
  fun w =>
    match c w with
    | (Ok a, w') => f a w'
    | (Raise e, w') => (Raise e, w')
    end.

Declare Scope handler_scope.
Delimit Scope handler_scope with handler.
Bind Scope handler_scope with M.

Notation "x <- c ;; f" := (bind c (fun x => f))
  (at level 61, c at next level, right associativity) : handler_scope.
Notation "c ;; f" := (bind c (fun _ => f))
  (at level 61, right associativity) : handler_scope.

Open Scope handler_scope.
Open Scope string_scope.

Definition get : M OWKmeans := fun w => (Ok w, w).

Definition modify (f : OWKmeans -> OWKmeans) : M unit := fun w => (Ok tt, f w).

Definition modify_gui (f : Gui -> Gui) : M unit :=
  modify (fun w => with_gui (f (gui w)) w).

Definition require (A : Type) (o : option A) (e : Exn) : M A :=
  match o with
  | Some a => ret a
  | None => raise e
  end.

(** The final attributes and the outcome of a handler call. *)
Definition exec (A : Type) (c : M A) (w : OWKmeans) : OWKmeans := snd (c w).
Definition outcome (A : Type) (c : M A) (w : OWKmeans) : Res A := fst (c w).

(** [for _ in range(n): body] *)
Fixpoint for_range (n : nat) (body : M unit) : M unit :=
  match n with
  | O => ret tt
  | S n' => body ;; for_range n' body
  end.

(** [self.k_means.<attribute>]: [AttributeError] on [None]. *)
Definition the_k_means : M Kmeans.t :=
  w <- get ;; require (k_means w) AttributeError.

(** A call of a method of [self.k_means] that changes the engine. *)
Definition k_means_call (f : Kmeans.t -> Kmeans.t) : M unit :=
  km <- the_k_means ;; modify (with_k_means (Some (f km))).

(** One draw from the random source. *)
Definition draw : M Point :=
  w <- get ;;
  modify (with_rng_used (S (rng_used w))) ;;
  ret (rng w (rng_used w)).

(** [self.k_means.add_centroids(position)]; without a position the engine
    takes one draw from the random source. *)
Definition add_centroids (position : option Point) : M unit :=
  match position with
  | Some c => k_means_call (Kmeans.add_centroids position c)
  | None =>
      _ <- the_k_means ;;
      p <- draw ;;
      k_means_call (Kmeans.add_centroids None p)
  end.

(** [self.send(...)] *)
Definition send (s : Signal) : M unit :=
  modify (fun w => with_sent (sent w ++ [s]) w).

(** *** [OWKmeans.concat_x_y] *)
Definition concat_x_y : M (list Point) :=
  w <- get ;;
  t <- require (data w) AttributeError ;;
  _ <- require (domain_getitem (domain t) (attr_x w)) KeyError ;;
  _ <- require (domain_getitem (domain t) (attr_y w)) KeyError ;;
  xs <- require (column t (attr_x w)) ValueError ;;
  ys <- require (column t (attr_y w)) ValueError ;;
  ret (combine xs ys).

(** *** [OWKmeans.set_empty_plot] *)
Definition set_empty_plot : M unit := modify_gui (with_scatter None).

(** *** [OWKmeans.replot]

    The chart options are kept as far as they carry data: the series, the
    axis titles and categories.  The tooltip formats are constant text and
    are left out. *)

Definition colors : list string :=
  ["#2f7ed8"; "#0d233a"; "#8bbc21"; "#910000"; "#1aadce";
   "#492970"; "#f28f43"; "#77a1e5"; "#c42525"; "#a6c96a"].

Definition color_at (i : nat) : string := nth (i mod length colors) colors "".

(** [round(q, 2)] and [np.around(q, decimals=2)]: to two decimals, halves
    to the even neighbour.  The source rounds binary floats; here the
    coordinates are exact rationals and the exact value is rounded.  The two
    agree up to the floats' own representation error: a decimal such as
    0.545, a tie as a rational, is not one as a float.  Statements about the
    chart therefore bound a drawn coordinate by its distance from the exact
    one and do not fix its digits. *)
Definition round2 (q : Q) : Q :=
  let s := (q * 100)%Q in
  let n := Qfloor s in
  let r := (s - inject_Z n)%Q in
  let up := if Qltb r (1 # 2) then false
            else if Qltb (1 # 2) r then true
            else Z.odd n in
  ((inject_Z (if up then n + 1 else n)%Z) / 100)%Q.

Definition round_point (p : Point) : Point := (round2 (fst p), round2 (snd p)).

Definition enumerate (A : Type) (l : list A) : list (nat * A) :=
  combine (seq 0 (length l)) l.

Definition line_series (km : Kmeans.t) : list Series :=
  map (fun ic : nat * Point =>
         LineSeries
           (flat_map (fun p => [p; snd ic])
                     (nth (fst ic) (Kmeans.centroids_belonging_points km) [])))
      (enumerate (Kmeans.centroids km)).

(** The points of each cluster; the colour is the palette entry before
    [rgb_hash_brighter] lightens it. *)
Definition point_series (km : Kmeans.t) : list Series :=
  map (fun ip : nat * list Point =>
         ScatterSeries (map round_point (snd ip)) (color_at (fst ip)))
      (enumerate (Kmeans.centroids_belonging_points km)).

Definition centroid_series (km : Kmeans.t) : Series :=
  CentroidSeries
    (map (fun ip : nat * Point => (round_point (snd ip), color_at (fst ip)))
         (enumerate (Kmeans.centroids km)))
    (if Kmeans.step_completed km then true else false)
    (if Kmeans.step_completed km then true else false).

Definition categories (v : OrangeVariable) : option (list string) :=
  if is_discrete v then Some (var_values v) else None.

Definition replot : M unit :=
  w <- get ;;
  match data w with
  | None => ret tt
  | Some t =>
      if String.eqb (attr_x w) "" || String.eqb (attr_y w) "" then ret tt
      else
        ax <- require (domain_getitem (domain t) (attr_x w)) KeyError ;;
        ay <- require (domain_getitem (domain t) (attr_y w)) KeyError ;;
        km <- the_k_means ;;
        let lines := if lines_to_centroids w then line_series km else [] in
        modify_gui
          (with_scatter
             (Some (mkPlot (lines ++ point_series km ++ [centroid_series km])%list
                           (var_name ax) (var_name ay)
                           (categories ax) (categories ay))))
  end.

(** *** [OWKmeans.send_data] *)

Definition cluster_names (k0 : nat) : list string :=
  map (fun x => "C" ++ NilEmpty.string_of_uint (Nat.to_uint (x + 1)))
      (seq 0 k0).

Definition outputName : string := "cluster".

(** [column_view[:] = clusters]: the shapes must agree, up to broadcasting
    a single value. *)
Definition assign_column (n : nat) (a : list nat) : option (list nat) :=
  if Nat.eqb (length a) n then Some a
  else match a with
       | [c] => Some (repeat c n)
       | _ => None
       end.

Definition send_data : M unit :=
  w <- get ;;
  match k_means w with
  | None => send (AnnotatedData None) ;; send (Centroids None)
  | Some km =>
      match Kmeans.clusters km with
      | None => send (AnnotatedData None) ;; send (Centroids None)
      | Some a =>
          let clust_var :=
            DiscreteVariable outputName
              (cluster_names (Z.to_nat (Kmeans.k km))) in
          t <- require (data w) AttributeError ;;
          let meta_attrs :=
            match class_vars (domain t) with
            | [] => metas (domain t)
            | cs => (metas (domain t) ++ cs)%list
            end in
          let dom := mkDomain (attributes (domain t)) [clust_var] meta_attrs in
          col <- require (assign_column (length (rows t)) a) ValueError ;;
          send (AnnotatedData (Some (mkAnnotated dom t col))) ;;
          send (Centroids (Some (Kmeans.centroids km)))
      end
  end.

(** *** [OWKmeans.number_of_clusters_changed] and [OWKmeans.restart]

    The two methods call each other: [restart] calls
    [number_of_clusters_changed], which calls [restart] when there is no
    engine yet.  The recursion is bounded by the interpreter's recursion
    limit, which is the fuel of [restart_at]. *)

Definition too_few_points : string :=
  "Please provide at least number
of points equal to number of clusters
selected or decrease number of clusters".

(** [Kmeans(points)]: the engine with its default single centroid. *)
Definition new_Kmeans (points : list Point) : M Kmeans.t :=
  w <- get ;;
  km <- require (Kmeans.new points 1 (fun i => rng w (rng_used w + i)))
                InsufficientPoints ;;
  modify (with_rng_used (rng_used w + 1)) ;;
  ret km.

Definition number_of_clusters_changed_with (restart : M unit) : M unit :=
  w <- get ;;
  t <- require (data w) TypeError ;;
  if (len t <? numberOfClusters w)%Z then
    modify_gui (with_info too_few_points) ;;
    set_empty_plot ;;
    modify_gui (with_commandsBox_disabled true)
  else
    modify_gui (with_info "") ;;
    modify_gui (with_commandsBox_disabled false) ;;
    match k_means w with
    | None => restart
    | Some _ => ret tt
    end ;;
    km <- the_k_means ;;
    w1 <- get ;;
    (if (Kmeans.k km <? numberOfClusters w1)%Z then
       for_range (Z.to_nat (numberOfClusters w1 - Kmeans.k km))
                 (add_centroids None)
     else
       for_range (Z.to_nat (Kmeans.k km - numberOfClusters w1))
                 (k_means_call (Kmeans.delete_centroids None))) ;;
    replot ;;
    send_data.

Fixpoint restart_at (fuel : nat) : M unit :=
  match fuel with
  | O => raise RecursionError
  | S fuel' =>
      points <- concat_x_y ;;
      km <- new_Kmeans points ;;
      modify (with_k_means (Some km)) ;;
      number_of_clusters_changed_with (restart_at fuel') ;;
      replot ;;
      modify_gui (with_centroidNumbersSpinner_disabled false) ;;
      modify_gui (with_stepButton_text "Move centroids") ;;
      modify_gui (with_stepBackButton_disabled true) ;;
      send_data
  end.

Definition recursion_limit : nat := 1000.

Definition restart : M unit := restart_at recursion_limit.

Definition number_of_clusters_changed : M unit :=
  number_of_clusters_changed_with (restart_at (pred recursion_limit)).

(** *** [OWKmeans.set_data] *)

Definition combo_items (d : option Table) : list string :=
  match d with
  | Some t => map var_name (filter is_continuous (domain_iter (domain t)))
  | None => []
  end.

(** [QComboBox.itemText]: the empty string outside the items. *)
Definition itemText (items : list string) (i : nat) : string := nth i items "".

Definition set_data (d : option Table) : M unit :=
  modify (with_data d) ;;
  modify_gui (with_cbx (combo_items d)) ;;
  modify_gui (with_cby (combo_items d)) ;;
  match d with
  | None =>
      modify_gui
        (with_info "No data on input yet, waiting to get something.") ;;
      set_empty_plot ;;
      modify_gui (with_optionsBox_disabled true)
  | Some t =>
      if (length (filter is_continuous (attributes (domain t))) <? 2)%nat then
        modify_gui (with_info "Too few Continuous feature. Min 2 required") ;;
        set_empty_plot ;;
        modify_gui (with_optionsBox_disabled true)
      else
        modify_gui (with_optionsBox_disabled false) ;;
        modify_gui (with_info "") ;;
        w <- get ;;
        modify (with_attr_x (itemText (cbx (gui w)) 0)) ;;
        modify (with_attr_y (itemText (cbx (gui w)) 1)) ;;
        restart
  end.

(** *** [OWKmeans.step] and [OWKmeans.step_back] *)

Definition step_button_text (km : Kmeans.t) : string :=
  if Kmeans.step_completed km then "Move centroids" else "Find new clusters".

Definition step : M unit :=
  k_means_call Kmeans.step ;;
  replot ;;
  km <- the_k_means ;;
  modify_gui (with_centroidNumbersSpinner_disabled
                (if Kmeans.step_completed km then false else true)) ;;
  modify_gui (with_stepButton_text (step_button_text km)) ;;
  w <- get ;;
  (if negb (autoPlay w) then modify_gui (with_stepBackButton_disabled false)
   else ret tt) ;;
  send_data.

Definition step_back : M unit :=
  k_means_call Kmeans.stepBack ;;
  replot ;;
  km <- the_k_means ;;
  modify_gui (with_centroidNumbersSpinner_disabled
                (if Kmeans.step_completed km then false else true)) ;;
  modify_gui (with_stepButton_text (step_button_text km)) ;;
  (if (Kmeans.stepNo km <=? 0)%Z
   then modify_gui (with_stepBackButton_disabled true)
   else ret tt) ;;
  send_data.

(** *** [OWKmeans.auto_play] and [OWKmeans.stop_auto_play] *)

Definition auto_play_button_text (w : OWKmeans) : string :=
  if autoPlay w then "Stop" else "Start".

Definition stop_auto_play : M unit :=
  modify_gui (with_optionsBox_disabled false) ;;
  modify_gui (with_stepButton_disabled false) ;;
  modify_gui (with_restartButton_disabled false) ;;
  modify_gui (with_stepBackButton_disabled false) ;;
  modify (with_autoPlay false) ;;
  w <- get ;;
  modify_gui (with_autoPlayButton_text (auto_play_button_text w)).

Definition auto_play : M unit :=
  modify (fun w => with_autoPlay (negb (autoPlay w)) w) ;;
  w <- get ;;
  modify_gui (with_autoPlayButton_text (auto_play_button_text w)) ;;
  if autoPlay w then
    modify_gui (with_optionsBox_disabled true) ;;
    modify_gui (with_stepButton_disabled true) ;;
    modify_gui (with_restartButton_disabled true) ;;
    modify_gui (with_stepBackButton_disabled true) ;;
    modify (fun w' => with_autoPlayThread (S (autoPlayThread w')) w')
  else
    stop_auto_play.

(** *** [OWKmeans.graph_clicked] and [OWKmeans.centroid_dropped] *)

Definition graph_clicked (x y : Q) : M unit :=
  w <- get ;;
  match k_means w with
  | Some km =>
      if Kmeans.step_completed km then
        add_centroids (Some (x, y)) ;;
        modify (fun w' => with_numberOfClusters (numberOfClusters w' + 1)%Z w') ;;
        replot ;;
        send_data
      else ret tt
  | None => ret tt
  end.

Definition centroid_dropped (_index : Z) (x y : Q) : M unit :=
  k_means_call (Kmeans.move_centroid _index x y) ;;
  replot ;;
  send_data.

(** *** Callbacks of the controls and of the chart *)

(** A [gui.comboBox] with [sendSelectedValue]: the chosen item's text is
    stored in the attribute, then the callback [restart] runs.  An index
    outside the items selects nothing. *)
Definition cbx_activated (i : nat) : M unit :=
  w <- get ;;
  if (i <? length (cbx (gui w)))%nat then
    modify (with_attr_x (itemText (cbx (gui w)) i)) ;; restart
  else ret tt.

Definition cby_activated (i : nat) : M unit :=
  w <- get ;;
  if (i <? length (cby (gui w)))%nat then
    modify (with_attr_y (itemText (cby (gui w)) i)) ;; restart
  else ret tt.

(** The spinner [centroidNumbersSpinner] ([minv=1], [maxv=10]). *)
Definition centroidNumbersSpinner_changed (v : Z) : M unit :=
  modify (with_numberOfClusters v) ;; number_of_clusters_changed.

(** The check box [linesCheckbox]. *)
Definition linesCheckbox_toggled (b : bool) : M unit :=
  modify (with_lines_to_centroids b) ;; replot.

(** [Scatterplot.chart_clicked] and [Scatterplot.point_dropped] forward to
    the callbacks given to the constructor. *)
Definition chart_clicked (x y : Q) : M unit := graph_clicked x y.

Definition point_dropped (index : Z) (x y : Q) : M unit :=
  centroid_dropped index x y.

Definition series_draggable (s : Series) : bool :=
  match s with
  | CentroidSeries _ dx dy => dx || dy
  | _ => false
  end.

(** [Scatterplot.js_drop_function]: the chart's drop event of a point.  The
    script passes the point's index in its series,
    [this.series.data.indexOf(this)], and its new position to
    [point_dropped]; neither the script nor the two handlers behind it look
    at the series or at the phase.  Which points the chart lets the user
    drag is decided by [draggable-points.js] from the [draggableX] and
    [draggableY] options of the series; that script is not modelled. *)
Definition js_drop_function (index : nat) (x y : Q) : M unit :=
  point_dropped (Z.of_nat index) x y.

(** [Scatterplot.js_click_function]: a click in the chart area. *)
Definition js_click_function (x y : Q) : M unit := chart_clicked x y.

(** *** [OWKmeans.__init__]

    The settings ([numberOfClusters], [attr_x], [attr_y],
    [lines_to_centroids]) start from their stored values. *)
Record Settings : Type := mkSettings {
  stored_numberOfClusters : Z;
  stored_attr_x : string;
  stored_attr_y : string;
  stored_lines_to_centroids : bool
}.

(** The defaults written in the class body. *)
Definition default_settings : Settings := mkSettings 0 "" "" false.

Definition init (s : Settings) (random : nat -> Point) : OWKmeans :=
  mkOWKmeans
    (stored_numberOfClusters s) false None (stored_attr_x s) (stored_attr_y s)
    (stored_lines_to_centroids s) None
    (mkGui "No data on input yet, waiting to get something." [] []
           true false false "Move centroids" false true false "Start" None)
    0 [] random 0.

(** ** Sessions: sequences of events *)

Inductive Event : Type :=
| Input (d : option Table)
| SelectX (i : nat)
| SelectY (i : nat)
| Spin (v : Z)
| LinesCheck (b : bool)
| StepButton
| StepBackButton
| RestartButton
| AutoPlayButton
| ThreadStep
| ThreadStop
| ChartClick (x y : Q)
| ChartDrop (index : nat) (x y : Q).

Definition handle (e : Event) : M unit :=
  match e with
  | Input d => set_data d
  | SelectX i => cbx_activated i
  | SelectY i => cby_activated i
  | Spin v => centroidNumbersSpinner_changed v
  | LinesCheck b => linesCheckbox_toggled b
  | StepButton => step
  | StepBackButton => step_back
  | RestartButton => restart
  | AutoPlayButton => auto_play
  | ThreadStep => step
  | ThreadStop => stop_auto_play
  | ChartClick x y => js_click_function x y
  | ChartDrop index x y => js_drop_function index x y
  end.

(** Whether the control behind an event accepts input: a control is usable
    when neither it nor the box that holds it is disabled.  Signals of the
    autoplay thread need a started thread.  The chart's own rules for its
    events are not modelled: a click or a drop counts as delivered. *)
Definition enabled (e : Event) (w : OWKmeans) : bool :=
  let g := gui w in
  match e with
  | Input _ => true
  | SelectX _ | SelectY _ | LinesCheck _ => negb (optionsBox_disabled g)
  | Spin _ =>
      negb (optionsBox_disabled g)
      && negb (centroidNumbersSpinner_disabled g)
  | StepButton =>
      negb (commandsBox_disabled g) && negb (stepButton_disabled g)
  | StepBackButton =>
      negb (commandsBox_disabled g) && negb (stepBackButton_disabled g)
  | RestartButton =>
      negb (commandsBox_disabled g) && negb (restartButton_disabled g)
  | AutoPlayButton => negb (commandsBox_disabled g)
  | ThreadStep | ThreadStop => (0 <? autoPlayThread w)%nat
  | ChartClick _ _ | ChartDrop _ _ _ => true
  end.

(** Well-formed inputs: the variables of an input table are named, and the
    spinner delivers a value of its range. *)
Definition named_table (t : Table) : bool :=
  forallb (fun v => negb (String.eqb (var_name v) ""))
          (attributes (domain t) ++ class_vars (domain t) ++ metas (domain t)).

Definition well_formed (e : Event) : bool :=
  match e with
  | Input (Some t) => named_table t
  | Spin v => (1 <=? v)%Z && (v <=? 10)%Z
  | _ => true
  end.

Definition run (es : list Event) (w : OWKmeans) : OWKmeans :=
  fold_left (fun w' e => exec (handle e) w') es w.

(** Every event of the session was accepted by its control. *)
Fixpoint accepted (es : list Event) (w : OWKmeans) : bool :=
  match es with
  | [] => true
  | e :: es' => enabled e w && accepted es' (exec (handle e) w)
  end.

(** ** The autoplay thread, [Autoplay.run]

    The thread shares the widget with the GUI thread; [view i] is the widget
    as the thread finds it when it evaluates the loop condition for the
    [i]-th time. *)

Inductive Action : Type :=
| Emit (signal : string)
| Sleep (seconds : nat).

(** [not self.owkmeans.k_means.converged and self.owkmeans.autoPlay] *)
Definition loop_condition (w : OWKmeans) : Res bool :=
  match k_means w with
  | None => Raise AttributeError
  | Some km => Ok (negb (Kmeans.converged km) && autoPlay w)
  end.

Module Autoplay.

(** The actions of the thread from its [i]-th evaluation of the loop
    condition on, and how it ended; [None] when [fuel] iterations did not
    end the loop. *)
Fixpoint run_from (fuel : nat) (view : nat -> OWKmeans) (i : nat)
  : option (Res unit * list Action) :=
  match fuel with
  | O => None
  | S fuel' =>
      match loop_condition (view i) with
      | Raise e => Some (Raise e, [])
      | Ok false => Some (Ok tt, [Emit "stop_auto_play()"])
      | Ok true =>
          match run_from fuel' view (S i) with
          | Some (r, actions) =>
              Some (r, Emit "step()" :: Sleep 1 :: actions)
          | None => None
          end
      end
  end.

Definition run (fuel : nat) (view : nat -> OWKmeans)
  : option (Res unit * list Action) :=
  run_from fuel view 0.

End Autoplay.

(** * Specifications *)

Close Scope string_scope.

(** [best] is the first index of minimum distance from [p] among the
    centroids [cs]: no centroid is closer, and every centroid of a lower index
    is strictly farther. *)
Definition first_min (p : Point) (cs : list Point) (best : nat) : Prop :=
  exists cb,
    nth_error cs best = Some cb /\
    forall j c, nth_error cs j = Some c ->
                (dist2 p cb <= dist2 p c)%Q /\
                (j < best -> (dist2 p cb < dist2 p c)%Q).

(** The part of the engine's state that [step_back] restores, with the
    dataset and the history: everything but the flag [converged]. *)
Definition same_session (a b : Kmeans.t) : Prop :=
  Kmeans.data a = Kmeans.data b /\
  Kmeans.centroids a = Kmeans.centroids b /\
  Kmeans.clusters a = Kmeans.clusters b /\
  Kmeans.step_completed a = Kmeans.step_completed b /\
  Kmeans.history a = Kmeans.history b.

(** [triple P c Q E]: from a state that satisfies [P], the handler [c]
    either returns [a] in a state that satisfies [Q a], or raises in a state
    that satisfies [E]. *)
Definition triple (A : Type) (P : OWKmeans -> Prop) (c : M A)
           (Q : A -> OWKmeans -> Prop) (E : OWKmeans -> Prop) : Prop :=
  forall w, P w ->
            match c w with
            | (Ok a, w') => Q a w'
            | (Raise _, w') => E w'
            end.

(** The handler keeps the invariant [I], whether it returns or raises. *)
Definition keeps (A : Type) (I : OWKmeans -> Prop) (c : M A) : Prop :=
  triple I c (fun _ => I) I.

(** Two widget states that differ at most in the controls and in the
    signals sent. *)
Definition same_model (w w' : OWKmeans) : Prop :=
  numberOfClusters w' = numberOfClusters w /\
  autoPlay w' = autoPlay w /\
  data w' = data w /\
  attr_x w' = attr_x w /\
  attr_y w' = attr_y w /\
  lines_to_centroids w' = lines_to_centroids w /\
  k_means w' = k_means w /\
  autoPlayThread w' = autoPlayThread w /\
  rng w' = rng w /\
  rng_used w' = rng_used w.

(** The handler changes the controls and the outputs only. *)
Definition view_only (A : Type) (c : M A) : Prop :=
  forall w, same_model w (snd (c w)).

(** The example of the specification: four points, two centroids. *)
Definition example_points : list Point :=
  [(0, 0); (0, 1); (10, 0); (10, 1)]%Q.

Definition example_engine : Kmeans.t :=
  Kmeans.mk example_points [(0, 0); (10, 0)]%Q None true [] false.

(** A table with the four points of the example, and a session on it. *)
Definition example_table : Table :=
  mkTable
    (mkDomain [ContinuousVariable "x"; ContinuousVariable "y"] [] [])
    [mkRow [0; 0] []; mkRow [0; 1] []; mkRow [10; 0] []; mkRow [10; 1] []]%Q.

Definition example_random (i : nat) : Point :=
  (inject_Z (Z.of_nat i) * 7, 1 # 3)%Q.

Definition example_session : OWKmeans :=
  run [Input (Some example_table)]
      (init (mkSettings 2 "" "" false) example_random).

Definition example_session_engine : Kmeans.t :=
  Kmeans.mk example_points [(0, 1 # 3); (7, 1 # 3)]%Q None true [] false.

(** The engine and every snapshot of its history have a centroid. *)
Definition has_centroids (km : Kmeans.t) : Prop :=
  Kmeans.centroids km <> [] /\
  Forall (fun s => Kmeans.snap_centroids s <> []) (Kmeans.history km).

Definition K_invariant (w : OWKmeans) : Prop :=
  forall km, k_means w = Some km -> has_centroids km.

(** A session that uses the spinner, both buttons and the chart. *)
Definition example_events : list Event :=
  [Input (Some example_table); Spin 3; StepButton; StepButton;
   ChartClick 5 5; Spin 2; StepBackButton].

(** The example session after the setting asked for more centroids than
    there are points. *)
Definition crowded_session : OWKmeans :=
  with_numberOfClusters 5%Z example_session.

(** What the autoplay thread finds when it evaluates its loop condition:
    [keeps_playing] lets the loop run once more, [stops_playing] ends it,
    by convergence or by the cleared flag. *)
Definition keeps_playing (w : OWKmeans) : Prop :=
  exists km,
    k_means w = Some km /\ Kmeans.converged km = false /\ autoPlay w = true.

Definition stops_playing (w : OWKmeans) : Prop :=
  exists km,
    k_means w = Some km /\ (Kmeans.converged km = true \/ autoPlay w = false).

(** [n] rounds of the loop body. *)
Fixpoint rounds (n : nat) : list Action :=
  match n with
  | O => []
  | S n' => Emit "step()" :: Sleep 1 :: rounds n'
  end.

(** How often [signal] is emitted. *)
Fixpoint emitted (signal : string) (actions : list Action) : nat :=
  match actions with
  | [] => 0
  | Emit s :: actions' =>
      (if String.eqb s signal then 1 else 0) + emitted signal actions'
  | Sleep _ :: actions' => emitted signal actions'
  end.

(** The thread finds the flag set twice and cleared at its third look. *)
Definition example_view (i : nat) : OWKmeans :=
  if i <? 2 then with_autoPlay true example_session else example_session.

(** [replot] reaches the call that draws the chart: there is data, both
    attribute names are set and name variables of the domain, and there is
    an engine. *)
Definition drawable (w : OWKmeans) : Prop :=
  exists t ax ay km,
    data w = Some t /\
    String.eqb (attr_x w) "" = false /\
    String.eqb (attr_y w) "" = false /\
    domain_getitem (domain t) (attr_x w) = Some ax /\
    domain_getitem (domain t) (attr_y w) = Some ay /\
    k_means w = Some km.

(** No series of the plot can be dragged. *)
Definition plot_locked (p : Plot) : bool :=
  forallb (fun s => negb (series_draggable s)) (series p).

(** The chart on display can be redrawn, and its centroids cannot be dragged
    while the engine waits for an update ([step_completed] false). *)
Definition chart_in_step (w : OWKmeans) : Prop :=
  forall plot,
    scatter (gui w) = Some plot ->
    drawable w /\
    forall km, k_means w = Some km ->
               Kmeans.step_completed km = false ->
               plot_locked plot = true.

(** The combo boxes list the continuous variables of the data, and these
    are named. *)
Definition combos_in_step (w : OWKmeans) : Prop :=
  cbx (gui w) = combo_items (data w) /\
  cby (gui w) = combo_items (data w) /\
  forall t, data w = Some t -> named_table t = true.

Definition chart_invariant (w : OWKmeans) : Prop :=
  chart_in_step w /\ combos_in_step w.

(** The state between the engine's call and the redraw in [step] and
    [step_back]: the chart on display, if any, can be redrawn. *)
Definition chart_stale (w : OWKmeans) : Prop :=
  (forall plot, scatter (gui w) = Some plot -> drawable w) /\
  combos_in_step w.

(** The state inside [restart], once the new engine is in place: it awaits
    an assignment. *)
Definition chart_fresh (w : OWKmeans) : Prop :=
  (exists km, k_means w = Some km /\ Kmeans.step_completed km = true) /\
  chart_stale w.

(** What the chart invariants read of the widget. *)
Definition chart_view (w : OWKmeans)
  : option Plot * list string * list string * option Table * string * string
    * option Kmeans.t :=
  (scatter (gui w), cbx (gui w), cby (gui w), data w, attr_x w, attr_y w,
   k_means w).

(** The handler leaves what the chart invariants read as it is. *)
Definition beside_chart (A : Type) (c : M A) : Prop :=
  forall w, chart_view (snd (c w)) = chart_view w.

(** The plot [replot] draws. *)
Definition plot_of (w : OWKmeans) (ax ay : OrangeVariable) (km : Kmeans.t)
  : Plot :=
  mkPlot ((if lines_to_centroids w then line_series km else [])
            ++ point_series km ++ [centroid_series km])
         (var_name ax) (var_name ay) (categories ax) (categories ay).



(** The engine has no history. *)
Definition no_history (w : OWKmeans) : Prop :=
  exists km, k_means w = Some km /\ Kmeans.history km = [].

(** The handler leaves the controls as they are. *)
Definition beside_gui (A : Type) (c : M A) : Prop :=
  forall w, gui (snd (c w)) = gui w.

(** Autoplay started and stopped at once, and autoplay with one step of
    the thread. *)
Definition stopped_at_once : list Event :=
  [Input (Some example_table); AutoPlayButton; AutoPlayButton].

Definition one_autoplay_step : list Event :=
  [Input (Some example_table); AutoPlayButton; ThreadStep].

(** A session in which a click added a centroid, a step back took it away
    again, and after the next step a second click adds another one. *)
Definition click_after_step_back : list Event :=
  [Input (Some example_table); Spin 2; StepButton; StepButton;
   ChartClick 5 5; StepBackButton; StepButton].

(** The widget holds the table the engine's assignments belong to: there is
    data, with one row per assigned point. *)
Definition output_ready (w : OWKmeans) (t : Table) : Prop :=
  data w = Some t /\
  forall km a,
    k_means w = Some km ->
    Kmeans.clusters km = Some a ->
    length a = length (rows t).

(** [C1] ... [Ck]. *)
Definition cluster_name (i : nat) : string :=
  String.append "C" (NilEmpty.string_of_uint (Nat.to_uint (i + 1))).

(** The input is withdrawn after the first step. *)
Definition input_withdrawn : list Event :=
  [Input (Some example_table); StepButton; Input None].

(** The value of the variable named [n] in row [r] of table [t]: an
    attribute's value is read from [X], a class variable's from [Y]. *)
Definition cell (t : Table) (n : string) (r : Row) : option Q :=
  match find_var n (attributes (domain t)) with
  | Some (i, _) => Some (nth i (x_vals r) 0%Q)
  | None =>
      match find_var n (class_vars (domain t)) with
      | Some (j, _) => Some (nth j (y_vals r) 0%Q)
      | None => None
      end
  end.

(** The handler leaves the part [view] of the widget as it is, whether it
    returns or raises. *)
Definition untouched (V : Type) (view : OWKmeans -> V) (A : Type) (c : M A)
  : Prop :=
  forall w, view (snd (c w)) = view w.

(** The signals of a list of output pairs: for each pair the annotated
    data, then the centroids. *)
Definition signals_of
           (pairs : list (option AnnotatedTable * option (list Point)))
  : list Signal :=
  flat_map (fun p => [AnnotatedData (fst p); Centroids (snd p)]) pairs.

(** The signals sent so far come in pairs, annotated data and centroids,
    both [None] or both tables. *)
Definition outputs_paired (w : OWKmeans) : Prop :=
  exists pairs,
    sent w = signals_of pairs /\
    Forall (fun p => fst p = None <-> snd p = None) pairs.

(** Both combo boxes list the continuous variables of the data. *)
Definition combos_listed (w : OWKmeans) : Prop :=
  cbx (gui w) = combo_items (data w) /\ cby (gui w) = combo_items (data w).

(** The data and the items of the two combo boxes. *)
Definition combos_view (w : OWKmeans)
  : option Table * list string * list string :=
  (data w, cbx (gui w), cby (gui w)).

(** An input the widget cannot plot: none, or a table with fewer than two
    continuous attributes. *)
Definition unusable (d : option Table) : bool :=
  match d with
  | None => true
  | Some t => length (filter is_continuous (attributes (domain t))) <? 2
  end.

(** A table with a single continuous attribute. *)
Definition narrow_table : Table :=
  mkTable (mkDomain [ContinuousVariable "x"; DiscreteVariable "d" ["a"%string; "b"%string]]
                    [] [])
          [mkRow [1; 0] []; mkRow [2; 1] []]%Q.

(** The autoplay button shows the state of [autoPlay], and while autoplay
    is on the step, restart and step-back buttons are disabled. *)
Definition autoplay_locked (w : OWKmeans) : Prop :=
  autoPlayButton_text (gui w) = auto_play_button_text w /\
  (autoPlay w = true ->
   stepButton_disabled (gui w) = true /\
   restartButton_disabled (gui w) = true /\
   stepBackButton_disabled (gui w) = true).

(** A session with autoplay on and two steps of its thread. *)
Definition autoplay_events : list Event :=
  [Input (Some example_table); AutoPlayButton; ThreadStep; ThreadStep].

(** The command box and the message reflect whether the table [t] has
    fewer rows than the [n] clusters asked for. *)
Definition commands_reflect (t : Table) (n : Z) (w : OWKmeans) : Prop :=
  data w = Some t /\
  numberOfClusters w = n /\
  commandsBox_disabled (gui w) = (len t <? n)%Z /\
  info (gui w) = (if (len t <? n)%Z then too_few_points else ""%string).

(** The spinner and the step button reflect the phase of the engine. *)
Definition controls_follow_phase (w : OWKmeans) : Prop :=
  exists km,
    k_means w = Some km /\
    centroidNumbersSpinner_disabled (gui w)
    = negb (Kmeans.step_completed km) /\
    stepButton_text (gui w) = step_button_text km.

(** The handler never raises the exception [e]. *)
Definition never_raises (e : Exn) (A : Type) (c : M A) : Prop :=
  forall w, fst (c w) <> Raise e.

(** The body of [restart], with [inner] for the call of [restart] inside
    [number_of_clusters_changed]. *)
Definition restart_body (inner : M unit) : M unit :=
  (points <- concat_x_y ;;
   km <- new_Kmeans points ;;
   modify (with_k_means (Some km)) ;;
   number_of_clusters_changed_with inner ;;
   replot ;;
   modify_gui (with_centroidNumbersSpinner_disabled false) ;;
   modify_gui (with_stepButton_text "Move centroids"%string) ;;
   modify_gui (with_stepBackButton_disabled true) ;;
   send_data)%handler.

(** The data, the two chosen attributes and the state of the options box. *)
Definition axes_view (w : OWKmeans) : option Table * string * string * bool :=
  (data w, attr_x w, attr_y w, optionsBox_disabled (gui w)).

(** A table with a discrete attribute between its two continuous ones, and
    a continuous class variable. *)
Definition mixed_table : Table :=
  mkTable
    (mkDomain [ContinuousVariable "x"; DiscreteVariable "d" ["a"%string; "b"%string];
               ContinuousVariable "y"]
              [ContinuousVariable "z"] [])
    [mkRow [0; 0; 0] [1]; mkRow [0; 1; 1] [2]; mkRow [10; 0; 0] [3]]%Q.



(** A table of two rows with the attributes of the example, of which only
    one is continuous, and the session in which it replaces the example
    table after the first step. *)
Definition short_table : Table :=
  mkTable (mkDomain [ContinuousVariable "x";
                     DiscreteVariable "y" ["a"%string; "b"%string]]
                    [] [])
          [mkRow [1; 0] []; mkRow [2; 1] []]%Q.

Definition input_replaced : list Event :=
  [Input (Some example_table); StepButton; Input (Some short_table)].

(** * Properties *)

(** ** The engine *)

Section Nearest.

Variable p : Point.

Lemma Qltb_true (a b : Q) : Qltb a b = true -> (a < b)%Q.
Proof.
  unfold Qltb. intros H. apply negb_true_iff in H.
  apply Qnot_le_lt. intros Hle. apply Qle_bool_iff in Hle. congruence.
Qed.

Lemma Qltb_false (a b : Q) : Qltb a b = false -> (b <= a)%Q.
Proof.
  unfold Qltb. intros H. apply negb_false_iff in H.
  now apply Qle_bool_iff.
Qed.

Lemma nearest_from_first_min (cs seen : list Point) (best : nat) (cb : Point) :
  nth_error seen best = Some cb ->
  first_min p seen best ->
  first_min p (seen ++ cs)
            (Kmeans.nearest_from p cs (length seen) best (dist2 p cb)).
Proof.
  revert seen best cb.
  induction cs as [|c cs IH]; intros seen best cb Hb Hmin; simpl.
  - now rewrite app_nil_r.
  - replace (seen ++ c :: cs) with ((seen ++ [c]) ++ cs)
      by now rewrite <- app_assoc.
    replace (S (length seen)) with (length (seen ++ [c]))
      by (rewrite length_app; simpl; lia).
    destruct Hmin as (cb' & Hb' & Hmin).
    assert (cb' = cb) by congruence. subst cb'.
    destruct (Qltb (dist2 p c) (dist2 p cb)) eqn:Hlt.
    + apply Qltb_true in Hlt.
      assert (Hc : nth_error (seen ++ [c]) (length seen) = Some c).
      { rewrite nth_error_app2 by lia. now rewrite Nat.sub_diag. }
      apply IH; [exact Hc|].
      exists c. split; [exact Hc|].
      intros j c' Hj.
      destruct (Nat.lt_ge_cases j (length seen)) as [Hlen|Hlen].
      * rewrite nth_error_app1 in Hj by exact Hlen.
        destruct (Hmin j c' Hj) as [Hle _].
        split; [|intros _];
          [apply Qlt_le_weak|]; eapply Qlt_le_trans; eassumption.
      * rewrite nth_error_app2 in Hj by exact Hlen.
        destruct (j - length seen) as [|d] eqn:Hd.
        -- simpl in Hj. injection Hj as <-.
           split; [apply Qle_refl|lia].
        -- simpl in Hj. now destruct d.
    + apply Qltb_false in Hlt.
      assert (Hbest : best < length seen)
        by (apply nth_error_Some; congruence).
      apply IH.
      * now rewrite nth_error_app1.
      * exists cb. split; [now rewrite nth_error_app1|].
        intros j c' Hj.
        destruct (Nat.lt_ge_cases j (length seen)) as [Hlen|Hlen].
        -- rewrite nth_error_app1 in Hj by exact Hlen.
           exact (Hmin j c' Hj).
        -- rewrite nth_error_app2 in Hj by exact Hlen.
           destruct (j - length seen) as [|d] eqn:Hd.
           ++ simpl in Hj. injection Hj as <-.
              split; [exact Hlt|lia].
           ++ simpl in Hj. now destruct d.
Qed.

Lemma nearest_first_min (cs : list Point) :
  cs <> [] -> first_min p cs (Kmeans.nearest cs p).
Proof.
  destruct cs as [|c cs]; [congruence|intros _].
  unfold Kmeans.nearest.
  change (c :: cs) with ([c] ++ cs).
  change 1 with (length [c]).
  apply nearest_from_first_min; [reflexivity|].
  exists c. split; [reflexivity|].
  intros [|[|j]] c' Hj; simpl in Hj; try discriminate.
  injection Hj as <-. split; [apply Qle_refl|lia].
Qed.

End Nearest.

(** C1. After an assignment phase of [step()], every point's recorded
    centroid is at minimum (squared Euclidean) distance among the current
    centroids: no centroid is strictly closer, and every centroid of a lower
    index is strictly farther, so exact ties go to the lowest index. *)
Theorem C1_assignment_is_nearest (km : Kmeans.t) :
  Kmeans.step_completed km = true ->
  Kmeans.centroids km <> [] ->
  exists a,
    Kmeans.clusters (Kmeans.step km) = Some a /\
    Kmeans.step_completed (Kmeans.step km) = false /\
    length a = length (Kmeans.data km) /\
    forall i p, nth_error (Kmeans.data km) i = Some p ->
                exists ci,
                  nth_error a i = Some ci /\
                  first_min p (Kmeans.centroids (Kmeans.step km)) ci.
Proof.
  intros Hphase Hcs. unfold Kmeans.step. rewrite Hphase. simpl.
  exists (Kmeans.find_clusters (Kmeans.centroids km) (Kmeans.data km)).
  unfold Kmeans.find_clusters.
  repeat split; [now rewrite length_map|].
  intros i p Hp.
  exists (Kmeans.nearest (Kmeans.centroids km) p). split.
  - rewrite nth_error_map, Hp. reflexivity.
  - now apply nearest_first_min.
Qed.

Lemma C1_assignment_is_nearest_witness :
  exists a,
    Kmeans.clusters (Kmeans.step example_engine) = Some a /\
    Kmeans.step_completed (Kmeans.step example_engine) = false /\
    length a = length (Kmeans.data example_engine) /\
    forall i p, nth_error (Kmeans.data example_engine) i = Some p ->
                exists ci,
                  nth_error a i = Some ci /\
                  first_min p (Kmeans.centroids (Kmeans.step example_engine)) ci.
Proof.
  apply (C1_assignment_is_nearest example_engine).
  - reflexivity.
  - simpl. discriminate.
Defined.

(** The scenario of the specification: assignment, update, and a repeated
    assignment that reports convergence. *)
Example example_scenario :
  Kmeans.clusters (Kmeans.step example_engine) = Some [0; 0; 1; 1] /\
  Kmeans.centroids (Kmeans.step (Kmeans.step example_engine))
  = [(0, 1 # 2); (10, 1 # 2)]%Q /\
  Kmeans.converged
    (Kmeans.step (Kmeans.step (Kmeans.step example_engine))) = true.
Proof. vm_compute. repeat split. Qed.

(** ** Stepping back *)

Lemma stepBack_step (km : Kmeans.t) :
  same_session (Kmeans.stepBack (Kmeans.step km)) km.
Proof.
  unfold Kmeans.stepBack, Kmeans.step, same_session.
  destruct (Kmeans.step_completed km) eqn:E; simpl; rewrite ?E;
    repeat split; reflexivity.
Qed.

Lemma same_session_refl (a : Kmeans.t) : same_session a a.
Proof. unfold same_session. repeat split; reflexivity. Qed.

Lemma same_session_trans (a b c : Kmeans.t) :
  same_session a b -> same_session b c -> same_session a c.
Proof. unfold same_session. intuition congruence. Qed.

Lemma stepBack_same_session (a b : Kmeans.t) :
  same_session a b -> same_session (Kmeans.stepBack a) (Kmeans.stepBack b).
Proof.
  unfold same_session, Kmeans.stepBack.
  intros (Hd & Hc & Hcl & Hs & Hh). rewrite Hh.
  destruct (Kmeans.history b) eqn:Hb; simpl; repeat split; congruence.
Qed.

Lemma iter_stepBack_same_session (n : nat) (a b : Kmeans.t) :
  same_session a b ->
  same_session (Nat.iter n Kmeans.stepBack a) (Nat.iter n Kmeans.stepBack b).
Proof.
  intros H. induction n as [|n IH]; simpl; [exact H|].
  now apply stepBack_same_session.
Qed.

Lemma iter_shift (A : Type) (f : A -> A) (n : nat) (x : A) :
  Nat.iter n f (f x) = f (Nat.iter n f x).
Proof. induction n as [|n IH]; simpl; [reflexivity|now rewrite IH]. Qed.

Lemma iter_stepBack_step (n : nat) (km : Kmeans.t) :
  same_session (Nat.iter n Kmeans.stepBack (Nat.iter n Kmeans.step km)) km.
Proof.
  induction n as [|n IH]; simpl; [apply same_session_refl|].
  rewrite <- iter_shift.
  eapply same_session_trans; [|exact IH].
  apply iter_stepBack_same_session, stepBack_step.
Qed.

Lemma stepBack_pops (km : Kmeans.t) (s : Kmeans.Snapshot)
      (h : list Kmeans.Snapshot) :
  Kmeans.history km = s :: h ->
  Kmeans.history (Kmeans.stepBack km) = h /\
  Kmeans.centroids (Kmeans.stepBack km) = Kmeans.snap_centroids s /\
  Kmeans.clusters (Kmeans.stepBack km) = Kmeans.snap_clusters s /\
  Kmeans.step_completed (Kmeans.stepBack km) = Kmeans.snap_step_completed s.
Proof.
  intros H. unfold Kmeans.stepBack. rewrite H. simpl.
  repeat split; reflexivity.
Qed.

(** ** Reasoning about handlers *)

Section Triples.

Context {A B : Type}.

Lemma bind_ok (c : M A) (f : A -> M B) (w w1 : OWKmeans) (a : A) :
  c w = (Ok a, w1) -> bind c f w = f a w1.
Proof. intros H. unfold bind. now rewrite H. Qed.

Lemma bind_raise (c : M A) (f : A -> M B) (w w1 : OWKmeans) (e : Exn) :
  c w = (Raise e, w1) -> bind c f w = (Raise e, w1).
Proof. intros H. unfold bind. now rewrite H. Qed.

Lemma triple_bind (P : OWKmeans -> Prop) (Q : A -> OWKmeans -> Prop)
      (R : B -> OWKmeans -> Prop) (E : OWKmeans -> Prop)
      (c : M A) (f : A -> M B) :
  triple P c Q E ->
  (forall a, triple (Q a) (f a) R E) ->
  triple P (bind c f) R E.
Proof.
  intros Hc Hf w HP. unfold bind. specialize (Hc w HP).
  destruct (c w) as [[a|e] w1]; [exact (Hf a w1 Hc)|exact Hc].
Qed.

Lemma triple_conseq (P P' : OWKmeans -> Prop) (Q Q' : A -> OWKmeans -> Prop)
      (E E' : OWKmeans -> Prop) (c : M A) :
  triple P' c Q' E' ->
  (forall w, P w -> P' w) ->
  (forall a w, Q' a w -> Q a w) ->
  (forall w, E' w -> E w) ->
  triple P c Q E.
Proof.
  intros Hc HP HQ HE w Hw. specialize (Hc w (HP w Hw)).
  destruct (c w) as [[a|e] w1]; auto.
Qed.

Lemma triple_ret (P : OWKmeans -> Prop) (E : OWKmeans -> Prop) (a : A) :
  triple P (ret a) (fun _ => P) E.
Proof. intros w HP. exact HP. Qed.

Lemma triple_raise (P : OWKmeans -> Prop) (Q : A -> OWKmeans -> Prop)
      (e : Exn) :
  triple P (raise e) Q P.
Proof. intros w HP. exact HP. Qed.

Lemma triple_require (P : OWKmeans -> Prop) (o : option A) (e : Exn) :
  triple P (require o e) (fun a w => P w /\ o = Some a) P.
Proof. intros w HP. destruct o; simpl; auto. Qed.

Lemma view_only_bind (c : M A) (f : A -> M B) :
  view_only c -> (forall a, view_only (f a)) -> view_only (bind c f).
Proof.
  intros Hc Hf w. unfold bind. specialize (Hc w).
  destruct (c w) as [[a|e] w1]; simpl in *; [|exact Hc].
  specialize (Hf a w1). unfold same_model in *. intuition congruence.
Qed.

Lemma view_only_ret (a : A) : view_only (ret a).
Proof. intros w. unfold same_model. simpl. repeat split; reflexivity. Qed.

Lemma view_only_raise (e : Exn) : view_only (@raise A e).
Proof. intros w. unfold same_model. simpl. repeat split; reflexivity. Qed.

Lemma view_only_require (o : option A) (e : Exn) : view_only (require o e).
Proof. destruct o; simpl; [apply view_only_ret|apply view_only_raise]. Qed.

End Triples.

Lemma triple_get (P : OWKmeans -> Prop) (E : OWKmeans -> Prop) :
  triple P get (fun a w => P w /\ a = w) E.
Proof. intros w HP. simpl. auto. Qed.

Lemma triple_modify (P Q : OWKmeans -> Prop) (E : OWKmeans -> Prop)
      (f : OWKmeans -> OWKmeans) :
  (forall w, P w -> Q (f w)) -> triple P (modify f) (fun _ => Q) E.
Proof. intros H w HP. simpl. auto. Qed.

Lemma keeps_bind (A B : Type) (I : OWKmeans -> Prop) (c : M A)
      (f : A -> M B) :
  keeps I c -> (forall a, keeps I (f a)) -> keeps I (bind c f).
Proof. intros Hc Hf. unfold keeps in *. eapply triple_bind; eauto. Qed.

Lemma keeps_ret (A : Type) (I : OWKmeans -> Prop) (a : A) : keeps I (ret a).
Proof. apply triple_ret. Qed.

Lemma keeps_raise (A : Type) (I : OWKmeans -> Prop) (e : Exn) :
  keeps I (@raise A e).
Proof. apply triple_raise. Qed.

Lemma keeps_get (I : OWKmeans -> Prop) : keeps I get.
Proof. intros w HI. exact HI. Qed.

Lemma keeps_require (A : Type) (I : OWKmeans -> Prop) (o : option A)
      (e : Exn) :
  keeps I (require o e).
Proof. destruct o; [apply keeps_ret|apply keeps_raise]. Qed.

Lemma keeps_modify (I : OWKmeans -> Prop) (f : OWKmeans -> OWKmeans) :
  (forall w, I w -> I (f w)) -> keeps I (modify f).
Proof. intros H. now apply triple_modify. Qed.

Lemma keeps_for_range (I : OWKmeans -> Prop) (n : nat) (body : M unit) :
  keeps I body -> keeps I (for_range n body).
Proof.
  intros H. induction n as [|n IH]; simpl; [apply keeps_ret|].
  apply keeps_bind; [exact H|intros _; exact IH].
Qed.

Lemma keeps_exec (A : Type) (I : OWKmeans -> Prop) (c : M A) (w : OWKmeans) :
  keeps I c -> I w -> I (exec c w).
Proof.
  intros H HI. specialize (H w HI). unfold exec.
  destruct (c w) as [[a|e] w1]; exact H.
Qed.

Lemma same_model_refl (w : OWKmeans) : same_model w w.
Proof. unfold same_model. repeat split; reflexivity. Qed.

Lemma view_only_get : view_only get.
Proof. intros w. apply same_model_refl. Qed.

Lemma view_only_modify_gui (f : Gui -> Gui) : view_only (modify_gui f).
Proof. intros w. unfold same_model. simpl. repeat split; reflexivity. Qed.

Lemma view_only_send (s : Signal) : view_only (send s).
Proof. intros w. unfold same_model. simpl. repeat split; reflexivity. Qed.

Lemma view_only_the_k_means : view_only the_k_means.
Proof.
  apply view_only_bind; [apply view_only_get|intros w].
  apply view_only_require.
Qed.

Ltac view_only :=
  repeat
    match goal with
    | |- view_only (bind _ _) => apply view_only_bind; [|intro]
    | |- view_only (ret _) => apply view_only_ret
    | |- view_only (raise _) => apply view_only_raise
    | |- view_only get => apply view_only_get
    | |- view_only (require _ _) => apply view_only_require
    | |- view_only (modify_gui _) => apply view_only_modify_gui
    | |- view_only (send _) => apply view_only_send
    | |- view_only the_k_means => apply view_only_the_k_means
    | |- view_only (match ?x with _ => _ end) => destruct x
    end.

Lemma view_only_set_empty_plot : view_only set_empty_plot.
Proof. unfold set_empty_plot. view_only. Qed.

Lemma view_only_replot : view_only replot.
Proof. unfold replot. view_only. Qed.

Lemma view_only_send_data : view_only send_data.
Proof. unfold send_data. view_only. Qed.

Lemma k_means_call_some (f : Kmeans.t -> Kmeans.t) (w : OWKmeans)
      (km : Kmeans.t) :
  k_means w = Some km ->
  k_means_call f w = (Ok tt, with_k_means (Some (f km)) w).
Proof.
  intros H. unfold k_means_call, the_k_means, bind, get. rewrite H.
  reflexivity.
Qed.

Lemma k_means_call_none (f : Kmeans.t -> Kmeans.t) (w : OWKmeans) :
  k_means w = None -> k_means_call f w = (Raise AttributeError, w).
Proof.
  intros H. unfold k_means_call, the_k_means, bind, get. rewrite H.
  reflexivity.
Qed.

(** After the engine's call, [step] and [step_back] only redraw, set
    controls and send the outputs. *)
Lemma step_k_means (w : OWKmeans) (km : Kmeans.t) :
  k_means w = Some km -> k_means (exec step w) = Some (Kmeans.step km).
Proof.
  intros H. unfold exec, step.
  erewrite bind_ok by (apply k_means_call_some; exact H).
  match goal with
  | |- k_means (snd (?c ?w1)) = _ =>
      assert (Hv : view_only c)
  end.
  { pose proof view_only_replot. pose proof view_only_send_data.
    view_only; assumption. }
  destruct (Hv (with_k_means (Some (Kmeans.step km)) w))
    as (_ & _ & _ & _ & _ & _ & Hk & _).
  exact Hk.
Qed.

Lemma step_back_k_means (w : OWKmeans) (km : Kmeans.t) :
  k_means w = Some km ->
  k_means (exec step_back w) = Some (Kmeans.stepBack km).
Proof.
  intros H. unfold exec, step_back.
  erewrite bind_ok by (apply k_means_call_some; exact H).
  match goal with
  | |- k_means (snd (?c ?w1)) = _ =>
      assert (Hv : view_only c)
  end.
  { pose proof view_only_replot. pose proof view_only_send_data.
    view_only; assumption. }
  destruct (Hv (with_k_means (Some (Kmeans.stepBack km)) w))
    as (_ & _ & _ & _ & _ & _ & Hk & _).
  exact Hk.
Qed.

Lemma run_app (es es' : list Event) (w : OWKmeans) :
  run (es ++ es') w = run es' (run es w).
Proof. unfold run. apply fold_left_app. Qed.

Lemma run_steps (n : nat) (w : OWKmeans) (km : Kmeans.t) :
  k_means w = Some km ->
  k_means (run (repeat StepButton n) w) = Some (Nat.iter n Kmeans.step km).
Proof.
  revert w km. induction n as [|n IH]; intros w km H; simpl; [exact H|].
  rewrite <- iter_shift. apply IH. now apply step_k_means.
Qed.

Lemma run_step_backs (n : nat) (w : OWKmeans) (km : Kmeans.t) :
  k_means w = Some km ->
  k_means (run (repeat StepBackButton n) w)
  = Some (Nat.iter n Kmeans.stepBack km).
Proof.
  revert w km. induction n as [|n IH]; intros w km H; simpl; [exact H|].
  rewrite <- iter_shift. apply IH. now apply step_back_k_means.
Qed.

(** C2. From a session with an engine (in particular a freshly restarted
    one), [n] calls of [step()] followed by [n] calls of [step_back()]
    restore exactly the centroids, the assignments and the phase, and leave
    the history as it was; each [step_back()] on a non-empty history pops
    exactly its latest entry and restores that snapshot. *)
Theorem C2_step_back_round_trip (n : nat) (w : OWKmeans) (km : Kmeans.t) :
  k_means w = Some km ->
  (exists km',
      k_means (run (repeat StepButton n ++ repeat StepBackButton n) w)
      = Some km' /\
      Kmeans.centroids km' = Kmeans.centroids km /\
      Kmeans.clusters km' = Kmeans.clusters km /\
      Kmeans.step_completed km' = Kmeans.step_completed km /\
      Kmeans.history km' = Kmeans.history km) /\
  (forall s h,
      Kmeans.history km = s :: h ->
      exists km',
        k_means (exec step_back w) = Some km' /\
        Kmeans.history km' = h /\
        Kmeans.centroids km' = Kmeans.snap_centroids s /\
        Kmeans.clusters km' = Kmeans.snap_clusters s /\
        Kmeans.step_completed km' = Kmeans.snap_step_completed s).
Proof.
  intros H. split.
  - exists (Nat.iter n Kmeans.stepBack (Nat.iter n Kmeans.step km)).
    split.
    + rewrite run_app. apply run_step_backs. now apply run_steps.
    + destruct (iter_stepBack_step n km) as (_ & Hc & Hcl & Hs & Hh).
      repeat split; assumption.
  - intros s h Hh. exists (Kmeans.stepBack km).
    split; [now apply step_back_k_means|].
    now apply stepBack_pops.
Qed.

Lemma C2_step_back_round_trip_witness :
  k_means example_session = Some example_session_engine /\
  exists km',
    k_means (run (repeat StepButton 3 ++ repeat StepBackButton 3)
                 example_session)
    = Some km' /\
    Kmeans.centroids km' = Kmeans.centroids example_session_engine /\
    Kmeans.clusters km' = Kmeans.clusters example_session_engine /\
    Kmeans.step_completed km' = Kmeans.step_completed example_session_engine /\
    Kmeans.history km' = Kmeans.history example_session_engine.
Proof.
  assert (H : k_means example_session = Some example_session_engine)
    by (vm_compute; reflexivity).
  split; [exact H|].
  exact (proj1 (C2_step_back_round_trip 3 example_session H)).
Defined.

(** ** The number of centroids *)

Lemma update_from_length (km : Kmeans.t) (cs : list Point) (i : nat) :
  length (Kmeans.update_from km i cs) = length cs.
Proof.
  revert i. induction cs as [|c cs IH]; intros i; simpl; [reflexivity|].
  now rewrite IH.
Qed.

Lemma set_nth_length (A : Type) (i : nat) (x : A) (l : list A) :
  length (Kmeans.set_nth i x l) = length l.
Proof.
  revert i. induction l as [|y l IH]; intros [|i]; simpl; try reflexivity.
  now rewrite IH.
Qed.

Lemma remove_at_length (A : Type) (i : nat) (l : list A) :
  i < length l -> length (Kmeans.remove_at i l) = pred (length l).
Proof.
  intros H. unfold Kmeans.remove_at.
  rewrite length_app, length_firstn, length_skipn. lia.
Qed.

Lemma nonempty_length (A : Type) (l : list A) : l <> [] <-> 0 < length l.
Proof. destruct l; simpl; split; intros; try congruence; lia. Qed.

Lemma has_centroids_step (km : Kmeans.t) :
  has_centroids km -> has_centroids (Kmeans.step km).
Proof.
  intros [Hc Hh]. unfold Kmeans.step, has_centroids.
  destruct (Kmeans.step_completed km); simpl.
  - split; [exact Hc|]. constructor; [exact Hc|exact Hh].
  - split.
    + apply nonempty_length. unfold Kmeans.update_centroids.
      rewrite update_from_length. now apply nonempty_length.
    + constructor; [exact Hc|exact Hh].
Qed.

Lemma has_centroids_stepBack (km : Kmeans.t) :
  has_centroids km -> has_centroids (Kmeans.stepBack km).
Proof.
  intros [Hc Hh]. unfold Kmeans.stepBack, has_centroids.
  destruct (Kmeans.history km) as [|s h] eqn:E; simpl.
  - split; [exact Hc|]. rewrite E. constructor.
  - inversion Hh; subst. split; assumption.
Qed.

Lemma has_centroids_add (position : option Point) (p : Point)
      (km : Kmeans.t) :
  has_centroids km -> has_centroids (Kmeans.add_centroids position p km).
Proof.
  intros [Hc Hh]. unfold Kmeans.add_centroids, has_centroids. simpl.
  split; [|exact Hh]. now destruct (Kmeans.centroids km).
Qed.

Lemma has_centroids_delete (index : option Z) (km : Kmeans.t) :
  has_centroids km -> has_centroids (Kmeans.delete_centroids index km).
Proof.
  intros [Hc Hh]. unfold Kmeans.delete_centroids.
  destruct (Nat.leb_spec (length (Kmeans.centroids km)) 1); [now split|].
  match goal with
  | |- context [if ?b then _ else _] => destruct b eqn:Hb
  end; [now split|].
  apply orb_false_iff in Hb. destruct Hb as [Hlo Hhi].
  apply Z.ltb_ge in Hlo. apply Z.leb_gt in Hhi.
  split; [|exact Hh]. simpl. apply nonempty_length.
  rewrite remove_at_length; lia.
Qed.

Lemma has_centroids_move (index : Z) (x y : Q) (km : Kmeans.t) :
  has_centroids km -> has_centroids (Kmeans.move_centroid index x y km).
Proof.
  intros [Hc Hh]. unfold Kmeans.move_centroid.
  match goal with
  | |- context [if ?b then _ else _] => destruct b
  end; [now split|].
  split; [|exact Hh]. simpl. apply nonempty_length.
  rewrite set_nth_length. now apply nonempty_length.
Qed.

Lemma has_centroids_new (points : list Point) (draws : nat -> Point)
      (km : Kmeans.t) :
  Kmeans.new points 1 draws = Some km -> has_centroids km.
Proof.
  unfold Kmeans.new. destruct (length points <? 1); [discriminate|].
  intros H. injection H as <-. split; simpl; [discriminate|constructor].
Qed.

Lemma K_invariant_same_model (w w' : OWKmeans) :
  same_model w w' -> K_invariant w -> K_invariant w'.
Proof.
  intros (_ & _ & _ & _ & _ & _ & Hk & _) H km. rewrite Hk. apply H.
Qed.

Lemma keeps_K_view_only (A : Type) (c : M A) :
  view_only c -> keeps K_invariant c.
Proof.
  intros Hv w HI. specialize (Hv w).
  destruct (c w) as [[a|e] w1]; simpl in Hv;
    exact (K_invariant_same_model Hv HI).
Qed.

Lemma keeps_K_call (f : Kmeans.t -> Kmeans.t) :
  (forall km, has_centroids km -> has_centroids (f km)) ->
  keeps K_invariant (k_means_call f).
Proof.
  intros Hf w HI. destruct (k_means w) as [km|] eqn:Hk.
  - rewrite (k_means_call_some f w Hk). intros km'. simpl.
    intros H. injection H as <-. apply Hf, HI, Hk.
  - now rewrite (k_means_call_none f w Hk).
Qed.

Lemma keeps_K_model (f : OWKmeans -> OWKmeans) :
  (forall w, k_means (f w) = k_means w) -> keeps K_invariant (modify f).
Proof.
  intros Hf. apply keeps_modify. intros w HI km. rewrite Hf. apply HI.
Qed.

Ltac keeps_K :=
  repeat
    match goal with
    | |- keeps _ (bind _ _) => apply keeps_bind; [|intro]
    | |- keeps _ (ret _) => apply keeps_ret
    | |- keeps _ (raise _) => apply keeps_raise
    | |- keeps _ get => apply keeps_get
    | |- keeps _ (require _ _) => apply keeps_require
    | |- keeps _ (for_range _ _) => apply keeps_for_range
    | |- keeps _ (modify_gui _) =>
        apply keeps_K_view_only, view_only_modify_gui
    | |- keeps _ set_empty_plot =>
        apply keeps_K_view_only, view_only_set_empty_plot
    | |- keeps _ replot => apply keeps_K_view_only, view_only_replot
    | |- keeps _ send_data => apply keeps_K_view_only, view_only_send_data
    | |- keeps _ the_k_means =>
        apply keeps_K_view_only, view_only_the_k_means
    | |- keeps _ (k_means_call _) => apply keeps_K_call
    | |- keeps _ (modify _) => apply keeps_K_model; reflexivity
    | |- keeps _ (match ?x with _ => _ end) => destruct x
    | H : keeps ?I ?c |- keeps ?I ?c => exact H
    end.

Lemma keeps_K_draw : keeps K_invariant draw.
Proof. unfold draw. keeps_K. Qed.

Lemma keeps_K_add_centroids (position : option Point) :
  keeps K_invariant (add_centroids position).
Proof.
  pose proof keeps_K_draw.
  unfold add_centroids. keeps_K; intros km; apply has_centroids_add.
Qed.

Lemma keeps_K_concat_x_y : keeps K_invariant concat_x_y.
Proof. unfold concat_x_y. keeps_K. Qed.

Lemma keeps_K_assign_new (B : Type) (points : list Point) (f : M B) :
  keeps K_invariant f ->
  keeps K_invariant
        (bind (new_Kmeans points)
              (fun km => bind (modify (with_k_means (Some km))) (fun _ => f))).
Proof.
  intros Hf w HI. unfold bind at 1. unfold new_Kmeans, bind at 1 2 3, get.
  simpl.
  destruct (Kmeans.new points 1 (fun i => rng w (rng_used w + i)))
    as [km|] eqn:Hnew; simpl; [|exact HI].
  apply (Hf (with_k_means (Some km) (with_rng_used (rng_used w + 1) w))).
  intros km'. simpl. intros H. injection H as <-.
  exact (has_centroids_new _ _ Hnew).
Qed.

Lemma keeps_K_number_of_clusters_changed_with (restart : M unit) :
  keeps K_invariant restart ->
  keeps K_invariant (number_of_clusters_changed_with restart).
Proof.
  intros Hr. pose proof keeps_K_add_centroids.
  unfold number_of_clusters_changed_with.
  keeps_K; try (intros km; apply has_centroids_delete); auto.
Qed.

Lemma keeps_K_restart_at (fuel : nat) : keeps K_invariant (restart_at fuel).
Proof.
  induction fuel as [|fuel IH]; simpl; [apply keeps_raise|].
  apply keeps_bind; [apply keeps_K_concat_x_y|intros points].
  apply keeps_K_assign_new.
  pose proof (keeps_K_number_of_clusters_changed_with IH).
  keeps_K.
Qed.

Lemma keeps_K_handle (e : Event) : keeps K_invariant (handle e).
Proof.
  pose proof keeps_K_restart_at.
  pose proof keeps_K_add_centroids.
  destruct e; simpl;
    unfold set_data, cbx_activated, cby_activated,
      centroidNumbersSpinner_changed, number_of_clusters_changed,
      linesCheckbox_toggled, step, step_back, restart, auto_play,
      stop_auto_play, js_click_function, chart_clicked, graph_clicked,
      js_drop_function, point_dropped, centroid_dropped;
    keeps_K;
    try apply keeps_K_number_of_clusters_changed_with;
    auto using has_centroids_step, has_centroids_stepBack,
      has_centroids_move.
Qed.

Lemma K_invariant_run (es : list Event) (w : OWKmeans) :
  K_invariant w -> K_invariant (run es w).
Proof.
  revert w. induction es as [|e es IH]; intros w H; simpl; [exact H|].
  apply IH. apply keeps_exec; [apply keeps_K_handle|exact H].
Qed.

(** C3. In every state the widget reaches from its construction, by any
    sequence of inputs, control and chart events, an engine has at least one
    centroid; a deletion never leaves it without one, and with a single
    centroid the engine rejects the deletion as a no-op. *)
Theorem C3_at_least_one_centroid (s : Settings) (random : nat -> Point)
        (es : list Event) (km : Kmeans.t) :
  k_means (run es (init s random)) = Some km ->
  (1 <= Kmeans.k km)%Z /\
  forall index,
    (1 <= Kmeans.k (Kmeans.delete_centroids index km))%Z /\
    (Kmeans.k km = 1%Z -> Kmeans.delete_centroids index km = km).
Proof.
  intros H.
  assert (HI : K_invariant (run es (init s random))).
  { apply K_invariant_run. intros km'. simpl. discriminate. }
  pose proof (HI km H) as Hkm.
  assert (Hk : forall km', has_centroids km' -> (1 <= Kmeans.k km')%Z).
  { intros km' [Hc _]. apply nonempty_length in Hc. unfold Kmeans.k. lia. }
  split; [now apply Hk|].
  intros index. split; [now apply Hk, has_centroids_delete|].
  unfold Kmeans.k, Kmeans.delete_centroids. intros H1.
  destruct (Nat.leb_spec (length (Kmeans.centroids km)) 1);
    [reflexivity|lia].
Qed.

Lemma C3_at_least_one_centroid_witness :
  accepted example_events (init default_settings example_random) = true /\
  exists km,
    k_means (run example_events (init default_settings example_random))
    = Some km /\
    (1 <= Kmeans.k km)%Z /\
    forall index,
      (1 <= Kmeans.k (Kmeans.delete_centroids index km))%Z /\
      (Kmeans.k km = 1%Z -> Kmeans.delete_centroids index km = km).
Proof.
  split; [vm_compute; reflexivity|].
  eexists. split; [vm_compute; reflexivity|].
  apply (C3_at_least_one_centroid default_settings example_random
                                  example_events).
  vm_compute. reflexivity.
Defined.

(** ** Clicks in the chart *)

Lemma view_only_redraw_and_send : view_only (bind replot (fun _ => send_data)).
Proof.
  apply view_only_bind; [apply view_only_replot|intros _].
  apply view_only_send_data.
Qed.

Lemma graph_clicked_gate_closed (w : OWKmeans) (x y : Q) :
  k_means w = None \/
  (exists km, k_means w = Some km /\ Kmeans.step_completed km = false) ->
  graph_clicked x y w = (Ok tt, w).
Proof.
  intros [H|(km & H & Hs)]; unfold graph_clicked, bind, get; rewrite H;
    [|rewrite Hs]; reflexivity.
Qed.

Lemma graph_clicked_gate_open (w : OWKmeans) (x y : Q) (km : Kmeans.t) :
  k_means w = Some km ->
  Kmeans.step_completed km = true ->
  same_model
    (with_numberOfClusters
       (numberOfClusters w + 1)%Z
       (with_k_means (Some (Kmeans.add_centroids (Some (x, y)) (x, y) km)) w))
    (exec (graph_clicked x y) w).
Proof.
  intros H Hs. unfold exec, graph_clicked.
  unfold bind at 1, get. rewrite H, Hs.
  erewrite bind_ok
    by (unfold add_centroids; apply k_means_call_some; exact H).
  unfold bind at 1, modify.
  apply view_only_redraw_and_send.
Qed.

(** C4. A click in the chart adds a centroid only in the phase after an
    update: without an engine, or with [step_completed] false, the call
    changes nothing, so no centroid is added and [numberOfClusters] stays;
    with [step_completed] true exactly one centroid, at the clicked
    position, is appended and [numberOfClusters] grows by exactly 1. *)
Theorem C4_graph_clicked_gate (w : OWKmeans) (x y : Q) :
  (k_means w = None \/
   (exists km, k_means w = Some km /\ Kmeans.step_completed km = false) ->
   exec (graph_clicked x y) w = w) /\
  (forall km,
      k_means w = Some km ->
      Kmeans.step_completed km = true ->
      exists km',
        k_means (exec (graph_clicked x y) w) = Some km' /\
        Kmeans.centroids km' = Kmeans.centroids km ++ [(x, y)] /\
        Kmeans.k km' = (Kmeans.k km + 1)%Z /\
        numberOfClusters (exec (graph_clicked x y) w)
        = (numberOfClusters w + 1)%Z).
Proof.
  split.
  - intros H. unfold exec. now rewrite graph_clicked_gate_closed.
  - intros km H Hs.
    destruct (graph_clicked_gate_open w x y H Hs)
      as (Hn & _ & _ & _ & _ & _ & Hk & _).
    exists (Kmeans.add_centroids (Some (x, y)) (x, y) km).
    repeat split.
    + exact Hk.
    + unfold Kmeans.k, Kmeans.add_centroids. simpl.
      rewrite length_app. simpl. lia.
    + exact Hn.
Qed.

Lemma C4_graph_clicked_gate_witness :
  exec (graph_clicked 5 5) (init default_settings example_random)
  = init default_settings example_random /\
  exists km',
    k_means (exec (graph_clicked 5 5) example_session) = Some km' /\
    Kmeans.centroids km'
    = Kmeans.centroids example_session_engine ++ [(5, 5)%Q] /\
    Kmeans.k km' = (Kmeans.k example_session_engine + 1)%Z /\
    numberOfClusters (exec (graph_clicked 5 5) example_session)
    = (numberOfClusters example_session + 1)%Z.
Proof.
  split.
  - apply (proj1 (C4_graph_clicked_gate
                    (init default_settings example_random) 5 5)).
    left. reflexivity.
  - apply (proj2 (C4_graph_clicked_gate example_session 5 5)
                 example_session_engine).
    + vm_compute. reflexivity.
    + reflexivity.
Defined.

(** ** Too many clusters for the data *)

Lemma number_of_clusters_changed_too_many (restart : M unit) (w : OWKmeans)
      (t : Table) :
  data w = Some t ->
  (len t < numberOfClusters w)%Z ->
  number_of_clusters_changed_with restart w
  = (Ok tt,
     with_gui
       (with_commandsBox_disabled
          true (with_scatter None (with_info too_few_points (gui w))))
       w).
Proof.
  intros Hd Hlt. unfold number_of_clusters_changed_with, bind at 1, get.
  unfold bind at 1. rewrite Hd. simpl.
  apply Z.ltb_lt in Hlt. rewrite Hlt. reflexivity.
Qed.

(** C5. When [numberOfClusters] exceeds the number of data points,
    [number_of_clusters_changed] shows the message, disables the command
    box and clears the chart; the engine is left as it is (no centroid is
    added or deleted), nothing is sent and the setting keeps its value. *)
Theorem C5_too_many_clusters_rejected (w : OWKmeans) (t : Table) :
  data w = Some t ->
  (len t < numberOfClusters w)%Z ->
  outcome number_of_clusters_changed w = Ok tt /\
  info (gui (exec number_of_clusters_changed w)) = too_few_points /\
  commandsBox_disabled (gui (exec number_of_clusters_changed w)) = true /\
  scatter (gui (exec number_of_clusters_changed w)) = None /\
  k_means (exec number_of_clusters_changed w) = k_means w /\
  numberOfClusters (exec number_of_clusters_changed w) = numberOfClusters w /\
  sent (exec number_of_clusters_changed w) = sent w /\
  rng_used (exec number_of_clusters_changed w) = rng_used w.
Proof.
  intros Hd Hlt. unfold outcome, exec, number_of_clusters_changed.
  rewrite (number_of_clusters_changed_too_many _ w Hd Hlt). simpl.
  repeat split; reflexivity.
Qed.

Lemma C5_too_many_clusters_rejected_witness :
  outcome number_of_clusters_changed crowded_session = Ok tt /\
  info (gui (exec number_of_clusters_changed crowded_session))
  = too_few_points /\
  commandsBox_disabled (gui (exec number_of_clusters_changed crowded_session))
  = true /\
  scatter (gui (exec number_of_clusters_changed crowded_session)) = None /\
  k_means (exec number_of_clusters_changed crowded_session)
  = k_means crowded_session /\
  numberOfClusters (exec number_of_clusters_changed crowded_session)
  = numberOfClusters crowded_session /\
  sent (exec number_of_clusters_changed crowded_session)
  = sent crowded_session /\
  rng_used (exec number_of_clusters_changed crowded_session)
  = rng_used crowded_session.
Proof.
  apply (C5_too_many_clusters_rejected crowded_session (t := example_table)).
  - reflexivity.
  - vm_compute. reflexivity.
Defined.

(** ** The autoplay thread *)

Lemma keeps_playing_condition (w : OWKmeans) :
  keeps_playing w -> loop_condition w = Ok true.
Proof.
  intros (km & Hk & Hc & Ha). unfold loop_condition.
  now rewrite Hk, Hc, Ha.
Qed.

Lemma stops_playing_condition (w : OWKmeans) :
  stops_playing w -> loop_condition w = Ok false.
Proof.
  intros (km & Hk & [Hc|Ha]); unfold loop_condition; rewrite Hk.
  - now rewrite Hc.
  - rewrite Ha. now rewrite andb_false_r.
Qed.

Lemma run_from_rounds (view : nat -> OWKmeans) (n : nat) :
  forall fuel i,
    (forall j, j < n -> keeps_playing (view (i + j))) ->
    stops_playing (view (i + n)) ->
    n < fuel ->
    Autoplay.run_from fuel view i
    = Some (Ok tt, rounds n ++ [Emit "stop_auto_play()"]).
Proof.
  induction n as [|n IH]; intros fuel i Hplay Hstop Hfuel.
  - destruct fuel as [|fuel]; [lia|]. simpl.
    rewrite Nat.add_0_r in Hstop.
    now rewrite (stops_playing_condition Hstop).
  - destruct fuel as [|fuel]; [lia|]. simpl.
    assert (H0 : keeps_playing (view i)).
    { rewrite <- (Nat.add_0_r i). apply Hplay. lia. }
    rewrite (keeps_playing_condition H0).
    rewrite (IH fuel (S i)); [reflexivity| | |lia].
    + intros j Hj. replace (S i + j) with (i + S j) by lia.
      apply Hplay. lia.
    + now replace (S i + n) with (i + S n) by lia.
Qed.

Lemma emitted_app (signal : string) (l l' : list Action) :
  emitted signal (l ++ l') = emitted signal l + emitted signal l'.
Proof.
  induction l as [|[s|d] l IH]; simpl; [reflexivity| |exact IH].
  rewrite IH. lia.
Qed.

Lemma emitted_rounds (n : nat) :
  emitted "step()" (rounds n) = n /\
  emitted "stop_auto_play()" (rounds n) = 0.
Proof.
  induction n as [|n [IH1 IH2]]; simpl; [split; reflexivity|].
  rewrite IH1, IH2. split; reflexivity.
Qed.

(** Without an end of play the loop never ends: no amount of fuel yields a
    result, and [stop_auto_play()] is not emitted. *)
Lemma run_from_forever (view : nat -> OWKmeans) :
  (forall i, keeps_playing (view i)) ->
  forall fuel i, Autoplay.run_from fuel view i = None.
Proof.
  intros Hplay. induction fuel as [|fuel IH]; intros i; simpl;
    [reflexivity|].
  now rewrite (keeps_playing_condition (Hplay i)), IH.
Qed.

(** C6. [Autoplay.run] is a cooperative loop: when the thread finds the
    engine not converged and the flag [autoPlay] set at its first [n] looks
    and finds convergence or a cleared flag at the next one, it ends, having
    done exactly [n] rounds of emitting [step()] and sleeping one second,
    followed by a single [stop_auto_play()]. *)
Theorem C6_autoplay_run (view : nat -> OWKmeans) (n fuel : nat) :
  (forall i, i < n -> keeps_playing (view i)) ->
  stops_playing (view n) ->
  n < fuel ->
  exists actions,
    Autoplay.run fuel view = Some (Ok tt, actions) /\
    actions = rounds n ++ [Emit "stop_auto_play()"] /\
    emitted "step()" actions = n /\
    emitted "stop_auto_play()" actions = 1.
Proof.
  intros Hplay Hstop Hfuel.
  exists (rounds n ++ [Emit "stop_auto_play()"]).
  split; [|split; [reflexivity|]].
  - unfold Autoplay.run. now apply run_from_rounds.
  - rewrite !emitted_app. destruct (emitted_rounds n) as [-> ->].
    simpl. split; lia.
Qed.

Lemma C6_autoplay_run_witness :
  exists actions,
    Autoplay.run 5 example_view = Some (Ok tt, actions) /\
    actions = rounds 2 ++ [Emit "stop_auto_play()"] /\
    emitted "step()" actions = 2 /\
    emitted "stop_auto_play()" actions = 1.
Proof.
  apply (C6_autoplay_run example_view (n := 2) (fuel := 5)).
  - intros i Hi. exists example_session_engine.
    destruct i as [|[|i]]; [| |lia]; repeat split; vm_compute; reflexivity.
  - exists example_session_engine. split; [vm_compute; reflexivity|].
    right. reflexivity.
  - lia.
Defined.

(** ** The chart and the phase *)

Lemma chart_view_eq (w w' : OWKmeans) :
  chart_view w' = chart_view w ->
  scatter (gui w') = scatter (gui w) /\
  cbx (gui w') = cbx (gui w) /\
  cby (gui w') = cby (gui w) /\
  data w' = data w /\
  attr_x w' = attr_x w /\
  attr_y w' = attr_y w /\
  k_means w' = k_means w.
Proof.
  unfold chart_view. intros H. injection H as -> -> -> -> -> -> ->.
  repeat split; reflexivity.
Qed.

Lemma drawable_view (w w' : OWKmeans) :
  chart_view w' = chart_view w -> drawable w -> drawable w'.
Proof.
  intros H. apply chart_view_eq in H.
  destruct H as (_ & _ & _ & Hd & Hx & Hy & Hk).
  unfold drawable. now rewrite Hd, Hx, Hy, Hk.
Qed.

Lemma combos_in_step_view (w w' : OWKmeans) :
  chart_view w' = chart_view w -> combos_in_step w -> combos_in_step w'.
Proof.
  intros H. apply chart_view_eq in H.
  destruct H as (_ & Hcx & Hcy & Hd & _).
  unfold combos_in_step. now rewrite Hcx, Hcy, Hd.
Qed.

Lemma chart_stale_view (w w' : OWKmeans) :
  chart_view w' = chart_view w -> chart_stale w -> chart_stale w'.
Proof.
  intros H [Hs Hc]. split; [|exact (combos_in_step_view H Hc)].
  pose proof (chart_view_eq H) as (Hsc & _).
  intros plot. rewrite Hsc. intros Hp.
  exact (drawable_view H (Hs plot Hp)).
Qed.

Lemma chart_invariant_view (w w' : OWKmeans) :
  chart_view w' = chart_view w -> chart_invariant w -> chart_invariant w'.
Proof.
  intros H [Hs Hc]. split; [|exact (combos_in_step_view H Hc)].
  pose proof (chart_view_eq H) as (Hsc & _ & _ & _ & _ & _ & Hk).
  intros plot. rewrite Hsc, Hk. intros Hp.
  destruct (Hs plot Hp) as [Hd Hl].
  split; [exact (drawable_view H Hd)|exact Hl].
Qed.

Lemma chart_fresh_view (w w' : OWKmeans) :
  chart_view w' = chart_view w -> chart_fresh w -> chart_fresh w'.
Proof.
  intros H [Hk Hs]. split; [|exact (chart_stale_view H Hs)].
  pose proof (chart_view_eq H) as (_ & _ & _ & _ & _ & _ & Hkm).
  now rewrite Hkm.
Qed.

Lemma chart_invariant_stale (w : OWKmeans) :
  chart_invariant w -> chart_stale w.
Proof.
  intros [Hs Hc]. split; [|exact Hc].
  intros plot Hp. exact (proj1 (Hs plot Hp)).
Qed.

Lemma chart_fresh_invariant (w : OWKmeans) :
  chart_fresh w -> chart_invariant w.
Proof.
  intros [(km & Hk & Hphase) [Hs Hc]]. split; [|exact Hc].
  intros plot Hp. split; [exact (Hs plot Hp)|].
  intros km'. rewrite Hk. intros H. injection H as <-. congruence.
Qed.

Section BesideChart.

Context {A B : Type}.

Lemma beside_chart_bind (c : M A) (f : A -> M B) :
  beside_chart c -> (forall a, beside_chart (f a)) -> beside_chart (bind c f).
Proof.
  intros Hc Hf w. unfold bind. specialize (Hc w).
  destruct (c w) as [[a|e] w1]; simpl in *; [|exact Hc].
  now rewrite (Hf a w1).
Qed.

Lemma beside_chart_ret (a : A) : beside_chart (ret a).
Proof. intros w. reflexivity. Qed.

Lemma beside_chart_raise (e : Exn) : beside_chart (@raise A e).
Proof. intros w. reflexivity. Qed.

Lemma beside_chart_require (o : option A) (e : Exn) :
  beside_chart (require o e).
Proof. destruct o; [apply beside_chart_ret|apply beside_chart_raise]. Qed.

Lemma beside_chart_keeps (I : OWKmeans -> Prop) (c : M A) :
  (forall w w', chart_view w' = chart_view w -> I w -> I w') ->
  beside_chart c -> keeps I c.
Proof.
  intros HI Hc w Hw. specialize (Hc w).
  destruct (c w) as [[a|e] w1]; simpl in Hc; exact (HI w w1 Hc Hw).
Qed.

End BesideChart.

Lemma beside_chart_get : beside_chart get.
Proof. intros w. reflexivity. Qed.

Lemma beside_chart_send (s : Signal) : beside_chart (send s).
Proof. intros w. reflexivity. Qed.

Lemma beside_chart_the_k_means : beside_chart the_k_means.
Proof.
  apply beside_chart_bind; [apply beside_chart_get|intros w].
  apply beside_chart_require.
Qed.

Lemma beside_chart_modify (f : OWKmeans -> OWKmeans) :
  (forall w, chart_view (f w) = chart_view w) -> beside_chart (modify f).
Proof. intros H w. apply H. Qed.

Ltac beside_chart :=
  repeat
    match goal with
    | |- beside_chart (bind _ _) => apply beside_chart_bind; [|intro]
    | |- beside_chart (ret _) => apply beside_chart_ret
    | |- beside_chart (raise _) => apply beside_chart_raise
    | |- beside_chart get => apply beside_chart_get
    | |- beside_chart (require _ _) => apply beside_chart_require
    | |- beside_chart (send _) => apply beside_chart_send
    | |- beside_chart the_k_means => apply beside_chart_the_k_means
    | |- beside_chart (modify_gui _) =>
        apply beside_chart_modify; reflexivity
    | |- beside_chart (modify _) => apply beside_chart_modify; reflexivity
    | |- beside_chart (match ?x with _ => _ end) => destruct x
    end.

Lemma beside_chart_send_data : beside_chart send_data.
Proof. unfold send_data. beside_chart. Qed.

Lemma beside_chart_draw : beside_chart draw.
Proof. unfold draw. beside_chart. Qed.

Lemma beside_chart_stop_auto_play : beside_chart stop_auto_play.
Proof. unfold stop_auto_play. beside_chart. Qed.

Lemma beside_chart_auto_play : beside_chart auto_play.
Proof.
  pose proof beside_chart_stop_auto_play.
  unfold auto_play. beside_chart. assumption.
Qed.

Lemma replot_draws (w : OWKmeans) (t : Table) (ax ay : OrangeVariable)
      (km : Kmeans.t) :
  data w = Some t ->
  String.eqb (attr_x w) "" = false ->
  String.eqb (attr_y w) "" = false ->
  domain_getitem (domain t) (attr_x w) = Some ax ->
  domain_getitem (domain t) (attr_y w) = Some ay ->
  k_means w = Some km ->
  replot w
  = (Ok tt, with_gui (with_scatter (Some (plot_of w ax ay km)) (gui w)) w).
Proof.
  intros Hd Hx Hy Hax Hay Hk.
  unfold replot, bind at 1, get. rewrite Hd, Hx, Hy. simpl.
  unfold bind, the_k_means, bind, get, require. rewrite Hax, Hay. simpl.
  rewrite Hk. reflexivity.
Qed.

Lemma replot_cases (w : OWKmeans) :
  (~ drawable w /\ snd (replot w) = w) \/
  (exists t ax ay km,
      data w = Some t /\
      String.eqb (attr_x w) "" = false /\
      String.eqb (attr_y w) "" = false /\
      domain_getitem (domain t) (attr_x w) = Some ax /\
      domain_getitem (domain t) (attr_y w) = Some ay /\
      k_means w = Some km /\
      replot w
      = (Ok tt, with_gui (with_scatter (Some (plot_of w ax ay km)) (gui w)) w)).
Proof.
  destruct (data w) as [t|] eqn:Hd.
  2:{ left. split.
      - intros (t & ax & ay & km & H & _). congruence.
      - unfold replot, bind, get. now rewrite Hd. }
  destruct (String.eqb (attr_x w) "") eqn:Hx.
  { left. split.
    - intros (t' & ax & ay & km & _ & H & _). congruence.
    - unfold replot, bind, get. now rewrite Hd, Hx. }
  destruct (String.eqb (attr_y w) "") eqn:Hy.
  { left. split.
    - intros (t' & ax & ay & km & _ & _ & H & _). congruence.
    - unfold replot, bind, get. now rewrite Hd, Hx, Hy. }
  destruct (domain_getitem (domain t) (attr_x w)) as [ax|] eqn:Hax.
  2:{ left. split.
      - intros (t' & ax & ay & km & Ht & _ & _ & H & _). congruence.
      - unfold replot, bind, get. rewrite Hd, Hx, Hy. simpl.
        now rewrite Hax. }
  destruct (domain_getitem (domain t) (attr_y w)) as [ay|] eqn:Hay.
  2:{ left. split.
      - intros (t' & ax' & ay & km & Ht & _ & _ & _ & H & _). congruence.
      - unfold replot, bind, get. rewrite Hd, Hx, Hy. simpl.
        now rewrite Hax, Hay. }
  destruct (k_means w) as [km|] eqn:Hk.
  2:{ left. split.
      - intros (t' & ax' & ay' & km & _ & _ & _ & _ & _ & H). congruence.
      - unfold replot, bind, the_k_means, bind, get.
        rewrite Hd, Hx, Hy. simpl. rewrite Hax, Hay. simpl.
        now rewrite Hk. }
  right. exists t, ax, ay, km.
  repeat (split; [assumption || reflexivity|]).
  exact (@replot_draws w t ax ay km Hd Hx Hy Hax Hay Hk).
Qed.

Lemma line_series_locked (km : Kmeans.t) :
  forallb (fun s => negb (series_draggable s)) (line_series km) = true.
Proof.
  apply forallb_forall. intros s Hs. unfold line_series in Hs.
  apply in_map_iff in Hs. destruct Hs as (ic & <- & _). reflexivity.
Qed.

Lemma point_series_locked (km : Kmeans.t) :
  forallb (fun s => negb (series_draggable s)) (point_series km) = true.
Proof.
  apply forallb_forall. intros s Hs. unfold point_series in Hs.
  apply in_map_iff in Hs. destruct Hs as (ic & <- & _). reflexivity.
Qed.

Lemma plot_of_locked (w : OWKmeans) (ax ay : OrangeVariable) (km : Kmeans.t) :
  Kmeans.step_completed km = false -> plot_locked (plot_of w ax ay km) = true.
Proof.
  intros H. unfold plot_locked, plot_of. simpl.
  rewrite !forallb_app, point_series_locked.
  unfold centroid_series. rewrite H. simpl.
  destruct (lines_to_centroids w); [now rewrite line_series_locked|reflexivity].
Qed.

Lemma replot_redraws (w : OWKmeans) :
  chart_stale w ->
  chart_invariant (snd (replot w)) /\
  k_means (snd (replot w)) = k_means w.
Proof.
  intros [Hs Hc].
  destruct (replot_cases w)
    as [[Hn ->]|(t & ax & ay & km & Hd & Hx & Hy & Hax & Hay & Hk & ->)].
  - split; [|reflexivity]. split; [|exact Hc].
    intros plot Hp. destruct Hn. exact (Hs plot Hp).
  - simpl. split; [|reflexivity]. split; [|exact Hc].
    intros plot Hp. simpl in Hp. injection Hp as <-. split.
    + exists t, ax, ay, km. repeat split; assumption.
    + simpl. intros km'. rewrite Hk. intros H. injection H as <-.
      apply plot_of_locked.
Qed.

Lemma triple_exec (A : Type) (P Q : OWKmeans -> Prop) (c : M A) :
  (forall w, P w -> Q (snd (c w))) -> triple P c (fun _ => Q) Q.
Proof.
  intros H w HP. specialize (H w HP).
  destruct (c w) as [[a|e] w1]; exact H.
Qed.

Lemma replot_restores :
  triple chart_stale replot (fun _ => chart_invariant) chart_invariant.
Proof. apply triple_exec. intros w H. exact (proj1 (replot_redraws H)). Qed.

Lemma keeps_chart_replot : keeps chart_invariant replot.
Proof.
  apply triple_exec. intros w H.
  exact (proj1 (replot_redraws (chart_invariant_stale H))).
Qed.

Lemma keeps_fresh_replot : keeps chart_fresh replot.
Proof.
  apply triple_exec. intros w [Hk Hs].
  destruct (replot_redraws Hs) as [Hi Hkm]. split.
  - now rewrite Hkm.
  - now apply chart_invariant_stale.
Qed.

Lemma keeps_chart_set_empty_plot : keeps chart_invariant set_empty_plot.
Proof.
  apply triple_exec. intros w [_ Hc]. split; [|exact Hc].
  intros plot Hp. discriminate.
Qed.

Lemma keeps_fresh_set_empty_plot : keeps chart_fresh set_empty_plot.
Proof.
  apply triple_exec. intros w [Hk [_ Hc]]. split; [exact Hk|].
  split; [|exact Hc]. intros plot Hp. discriminate.
Qed.

(** A call of the engine keeps the chart redrawable. *)
Lemma drawable_with_k_means (w : OWKmeans) (km : Kmeans.t) :
  drawable w -> drawable (with_k_means (Some km) w).
Proof.
  intros (t & ax & ay & km0 & Hd & Hx & Hy & Hax & Hay & _).
  exists t, ax, ay, km. repeat split; assumption.
Qed.

Lemma call_leaves_stale (f : Kmeans.t -> Kmeans.t) :
  triple chart_invariant (k_means_call f) (fun _ => chart_stale)
         chart_invariant.
Proof.
  intros w HI. destruct (k_means w) as [km|] eqn:Hk.
  - rewrite (k_means_call_some f w Hk).
    destruct (chart_invariant_stale HI) as [Hs Hc].
    split; [|exact Hc]. intros plot Hp.
    apply drawable_with_k_means. exact (Hs plot Hp).
  - now rewrite (k_means_call_none f w Hk).
Qed.

Lemma keeps_chart_call (f : Kmeans.t -> Kmeans.t) :
  (forall km, Kmeans.step_completed (f km) = Kmeans.step_completed km) ->
  keeps chart_invariant (k_means_call f).
Proof.
  intros Hf w HI. destruct (k_means w) as [km|] eqn:Hk.
  - rewrite (k_means_call_some f w Hk).
    destruct HI as [Hs Hc]. split; [|exact Hc].
    intros plot Hp. destruct (Hs plot Hp) as [Hd Hl]. split.
    + now apply drawable_with_k_means.
    + simpl. intros km' H. injection H as <-. rewrite Hf.
      now apply Hl.
  - now rewrite (k_means_call_none f w Hk).
Qed.

Lemma keeps_fresh_call (f : Kmeans.t -> Kmeans.t) :
  (forall km, Kmeans.step_completed (f km) = Kmeans.step_completed km) ->
  keeps chart_fresh (k_means_call f).
Proof.
  intros Hf w HI. destruct (k_means w) as [km|] eqn:Hk.
  - rewrite (k_means_call_some f w Hk).
    destruct HI as [(km0 & Hk0 & Hphase) [Hs Hc]].
    assert (km0 = km) by congruence. subst km0.
    split; [exists (f km); split; [reflexivity|now rewrite Hf]|].
    split; [|exact Hc]. intros plot Hp.
    apply drawable_with_k_means. exact (Hs plot Hp).
  - now rewrite (k_means_call_none f w Hk).
Qed.

Lemma add_centroids_phase (position : option Point) (p : Point)
      (km : Kmeans.t) :
  Kmeans.step_completed (Kmeans.add_centroids position p km)
  = Kmeans.step_completed km.
Proof. reflexivity. Qed.

Lemma delete_centroids_phase (index : option Z) (km : Kmeans.t) :
  Kmeans.step_completed (Kmeans.delete_centroids index km)
  = Kmeans.step_completed km.
Proof.
  unfold Kmeans.delete_centroids.
  repeat match goal with
         | |- context [if ?b then _ else _] => destruct b
         end; reflexivity.
Qed.

Lemma move_centroid_phase (index : Z) (x y : Q) (km : Kmeans.t) :
  Kmeans.step_completed (Kmeans.move_centroid index x y km)
  = Kmeans.step_completed km.
Proof.
  unfold Kmeans.move_centroid.
  match goal with
  | |- context [if ?b then _ else _] => destruct b
  end; reflexivity.
Qed.

Ltac beside_leaf :=
  first
    [ apply beside_chart_send_data
    | apply beside_chart_draw
    | apply beside_chart_the_k_means
    | apply beside_chart_stop_auto_play
    | apply beside_chart_auto_play
    | apply beside_chart_modify; reflexivity ].

Ltac keeps_chart :=
  repeat
    match goal with
    | |- keeps _ (bind _ _) => apply keeps_bind; [|intro]
    | |- keeps _ (ret _) => apply keeps_ret
    | |- keeps _ (raise _) => apply keeps_raise
    | |- keeps _ get => apply keeps_get
    | |- keeps _ (require _ _) => apply keeps_require
    | |- keeps _ (for_range _ _) => apply keeps_for_range
    | H : keeps ?I ?c |- keeps ?I ?c => exact H
    | |- keeps chart_invariant replot => apply keeps_chart_replot
    | |- keeps chart_fresh replot => apply keeps_fresh_replot
    | |- keeps chart_invariant set_empty_plot =>
        apply keeps_chart_set_empty_plot
    | |- keeps chart_fresh set_empty_plot => apply keeps_fresh_set_empty_plot
    | |- keeps chart_invariant (k_means_call _) => apply keeps_chart_call
    | |- keeps chart_fresh (k_means_call _) => apply keeps_fresh_call
    | |- keeps chart_invariant _ =>
        apply (@beside_chart_keeps _ chart_invariant _ (@chart_invariant_view));
        beside_leaf
    | |- keeps chart_fresh _ =>
        apply (@beside_chart_keeps _ chart_fresh _ (@chart_fresh_view));
        beside_leaf
    | |- keeps _ (match ?x with _ => _ end) => destruct x
    end.

Lemma keeps_chart_add_centroids (position : option Point) :
  keeps chart_invariant (add_centroids position).
Proof.
  unfold add_centroids. keeps_chart; intros km; apply add_centroids_phase.
Qed.

Lemma keeps_fresh_add_centroids (position : option Point) :
  keeps chart_fresh (add_centroids position).
Proof.
  unfold add_centroids. keeps_chart; intros km; apply add_centroids_phase.
Qed.

Lemma keeps_chart_number_of_clusters_changed_with (restart : M unit) :
  keeps chart_invariant restart ->
  keeps chart_invariant (number_of_clusters_changed_with restart).
Proof.
  intros Hr. pose proof keeps_chart_add_centroids.
  unfold number_of_clusters_changed_with.
  keeps_chart; try (intros km; apply delete_centroids_phase); auto.
Qed.

Lemma keeps_fresh_number_of_clusters_changed_with (restart : M unit) :
  keeps chart_fresh restart ->
  keeps chart_fresh (number_of_clusters_changed_with restart).
Proof.
  intros Hr. pose proof keeps_fresh_add_centroids.
  unfold number_of_clusters_changed_with.
  keeps_chart; try (intros km; apply delete_centroids_phase); auto.
Qed.

Lemma beside_chart_concat_x_y : beside_chart concat_x_y.
Proof. unfold concat_x_y. beside_chart. Qed.

(** [self.k_means = Kmeans(points)]: when the constructor raises nothing
    has changed; otherwise the new engine awaits an assignment. *)
Lemma assign_new_engine (P : OWKmeans -> Prop) (points : list Point)
      (rest : M unit) :
  (forall w, P w -> chart_stale w) ->
  keeps chart_fresh rest ->
  triple P
         (bind (new_Kmeans points)
               (fun km => bind (modify (with_k_means (Some km)))
                               (fun _ => rest)))
         (fun _ => chart_fresh)
         (fun w => P w \/ chart_fresh w).
Proof.
  intros HP Hrest w Hw. unfold bind at 1.
  unfold new_Kmeans, bind at 1 2 3, get. simpl.
  destruct (Kmeans.new points 1 (fun i => rng w (rng_used w + i)))
    as [km|] eqn:Hnew; simpl; [|now left].
  assert (Hf : chart_fresh
                 (with_k_means (Some km)
                               (with_rng_used (rng_used w + 1) w))).
  { destruct (HP w Hw) as [Hs Hc]. split.
    - exists km. split; [reflexivity|].
      unfold Kmeans.new in Hnew.
      destruct (length points <? 1); [discriminate|].
      injection Hnew as <-. reflexivity.
    - split; [|exact Hc]. intros plot Hp.
      apply drawable_with_k_means. exact (Hs plot Hp). }
  specialize (Hrest _ Hf). unfold bind at 1. simpl.
  match goal with
  | |- match ?c with _ => _ end => destruct c as [[[]|e] w1]
  end; [exact Hrest|now right].
Qed.

Lemma keeps_fresh_restart_at (fuel : nat) : keeps chart_fresh (restart_at fuel).
Proof.
  induction fuel as [|fuel IH]; simpl; [apply keeps_raise|].
  apply keeps_bind;
    [apply (@beside_chart_keeps _ chart_fresh _ (@chart_fresh_view)),
       beside_chart_concat_x_y|].
  intros points.
  eapply triple_conseq.
  - apply (@assign_new_engine chart_fresh points).
    + intros w [_ H]. exact H.
    + pose proof (keeps_fresh_number_of_clusters_changed_with IH).
      keeps_chart.
  - auto.
  - auto.
  - intros w [H|H]; exact H.
Qed.

Lemma keeps_chart_restart_at (fuel : nat) :
  keeps chart_invariant (restart_at fuel).
Proof.
  destruct fuel as [|fuel]; simpl; [apply keeps_raise|].
  apply keeps_bind;
    [apply (@beside_chart_keeps _ chart_invariant _ (@chart_invariant_view)),
       beside_chart_concat_x_y|].
  intros points.
  eapply triple_conseq.
  - apply (@assign_new_engine chart_invariant points).
    + apply chart_invariant_stale.
    + pose proof (keeps_fresh_number_of_clusters_changed_with
                    (keeps_fresh_restart_at fuel)).
      keeps_chart.
  - auto.
  - intros a w. apply chart_fresh_invariant.
  - intros w [H|H]; [exact H|now apply chart_fresh_invariant].
Qed.

Lemma keeps_chart_step_like (f : Kmeans.t -> Kmeans.t) (rest : M unit) :
  keeps chart_invariant rest ->
  keeps chart_invariant
        (bind (k_means_call f) (fun _ => bind replot (fun _ => rest))).
Proof.
  intros Hrest. unfold keeps.
  eapply triple_bind; [apply call_leaves_stale|intros ?].
  eapply triple_bind; [apply replot_restores|intros ?]. exact Hrest.
Qed.

Lemma keeps_chart_step : keeps chart_invariant step.
Proof. unfold step. apply keeps_chart_step_like. keeps_chart. Qed.

Lemma keeps_chart_step_back : keeps chart_invariant step_back.
Proof. unfold step_back. apply keeps_chart_step_like. keeps_chart. Qed.

Lemma keeps_chart_graph_clicked (x y : Q) :
  keeps chart_invariant (graph_clicked x y).
Proof.
  pose proof keeps_chart_add_centroids.
  unfold graph_clicked. keeps_chart. auto.
Qed.

Lemma keeps_chart_centroid_dropped (index : Z) (x y : Q) :
  keeps chart_invariant (centroid_dropped index x y).
Proof.
  unfold centroid_dropped. keeps_chart. intros km. apply move_centroid_phase.
Qed.

Lemma keeps_chart_js_drop_function (index : nat) (x y : Q) :
  keeps chart_invariant (js_drop_function index x y).
Proof.
  unfold js_drop_function, point_dropped. apply keeps_chart_centroid_dropped.
Qed.

Lemma keeps_chart_linesCheckbox_toggled (b : bool) :
  keeps chart_invariant (linesCheckbox_toggled b).
Proof. unfold linesCheckbox_toggled. keeps_chart. Qed.

Lemma keeps_chart_spinner (v : Z) :
  keeps chart_invariant (centroidNumbersSpinner_changed v).
Proof.
  unfold centroidNumbersSpinner_changed, number_of_clusters_changed.
  apply keeps_bind; [keeps_chart|intros _].
  apply keeps_chart_number_of_clusters_changed_with, keeps_chart_restart_at.
Qed.

Lemma bind_modify (B : Type) (f : OWKmeans -> OWKmeans) (g : unit -> M B)
      (w : OWKmeans) :
  bind (modify f) g w = g tt (f w).
Proof. reflexivity. Qed.

Lemma bind_modify_gui (B : Type) (f : Gui -> Gui) (g : unit -> M B)
      (w : OWKmeans) :
  bind (modify_gui f) g w = g tt (with_gui (f (gui w)) w).
Proof. reflexivity. Qed.

Lemma bind_get (B : Type) (g : OWKmeans -> M B) (w : OWKmeans) :
  bind get g w = g w w.
Proof. reflexivity. Qed.

Lemma find_var_some (n : string) (vs : list OrangeVariable)
      (v : OrangeVariable) :
  In v vs -> var_name v = n -> exists i v', find_var n vs = Some (i, v').
Proof.
  intros Hin Hn. induction vs as [|u vs IH]; [contradiction|]. simpl.
  destruct (String.eqb (var_name u) n) eqn:E; [now exists 0, u|].
  destruct Hin as [->|Hin].
  - rewrite Hn, String.eqb_refl in E. discriminate.
  - destruct (IH Hin) as (i & v' & ->). now exists (S i), v'.
Qed.

Lemma combo_item_valid (t : Table) (n : string) :
  named_table t = true ->
  In n (combo_items (Some t)) ->
  String.eqb n "" = false /\
  exists v, domain_getitem (domain t) n = Some v.
Proof.
  intros Hnamed Hin. unfold combo_items in Hin.
  apply in_map_iff in Hin. destruct Hin as (v & Hn & Hv).
  apply filter_In in Hv. destruct Hv as [Hv _].
  unfold domain_iter in Hv.
  assert (Hall : In v (attributes (domain t) ++ class_vars (domain t)
                                  ++ metas (domain t))).
  { rewrite app_assoc. apply in_or_app. now left. }
  split.
  - unfold named_table in Hnamed.
    rewrite forallb_forall in Hnamed. specialize (Hnamed v Hall).
    rewrite Hn in Hnamed. now apply negb_true_iff in Hnamed.
  - unfold domain_getitem.
    destruct (@find_var_some n _ v Hall Hn) as (i & v' & ->). now exists v'.
Qed.

Lemma itemText_In (items : list string) (i : nat) :
  i < length items -> In (itemText items i) items.
Proof. intros H. unfold itemText. now apply nth_In. Qed.

Lemma combo_items_length (t : Table) :
  length (filter is_continuous (attributes (domain t)))
  <= length (combo_items (Some t)).
Proof.
  unfold combo_items, domain_iter.
  rewrite length_map, filter_app, length_app. lia.
Qed.

Lemma keeps_chart_set_data (d : option Table) :
  (forall t, d = Some t -> named_table t = true) ->
  keeps chart_invariant (set_data d).
Proof.
  intros Hnamed w HI. unfold set_data.
  rewrite bind_modify, !bind_modify_gui.
  destruct d as [t|].
  - destruct (length (filter is_continuous (attributes (domain t))) <? 2)
      eqn:Hfew.
    + rewrite !bind_modify_gui. unfold set_empty_plot.
      rewrite bind_modify_gui. simpl.
      split; [intros plot Hp; discriminate|].
      repeat split; try reflexivity.
      simpl. intros t' H. apply Hnamed. exact H.
    + rewrite !bind_modify_gui, bind_get, !bind_modify.
      apply (keeps_chart_restart_at recursion_limit).
      apply Nat.ltb_ge in Hfew.
      pose proof (combo_items_length t) as Hlen.
      assert (Hn : named_table t = true) by now apply Hnamed.
      destruct (@combo_item_valid t (itemText (combo_items (Some t)) 0) Hn)
        as [Hx (ax & Hax)]; [apply itemText_In; lia|].
      destruct (@combo_item_valid t (itemText (combo_items (Some t)) 1) Hn)
        as [Hy (ay & Hay)]; [apply itemText_In; lia|].
      split.
      * simpl. intros plot Hp.
        destruct HI as [Hs _]. destruct (Hs plot Hp) as [Hd Hl].
        split; [|exact Hl].
        destruct Hd as (_ & _ & _ & km & _ & _ & _ & _ & _ & Hk).
        exists t, ax, ay, km. repeat split; assumption.
      * repeat split; try reflexivity.
        simpl. intros t' H. injection H as <-. exact Hn.
  - rewrite !bind_modify_gui. unfold set_empty_plot.
    rewrite bind_modify_gui. simpl.
    split; [intros plot Hp; discriminate|].
    repeat split; try reflexivity.
    simpl. intros t' H. discriminate.
Qed.

Lemma keeps_chart_cbx_activated (i : nat) :
  keeps chart_invariant (cbx_activated i).
Proof.
  intros w HI. unfold cbx_activated. rewrite bind_get.
  destruct (i <? length (cbx (gui w))) eqn:Hi; [|exact HI].
  rewrite bind_modify.
  apply (keeps_chart_restart_at recursion_limit).
  apply Nat.ltb_lt in Hi.
  destruct HI as [Hs (Hcx & Hcy & Hnamed)].
  split; [|repeat split; assumption].
  simpl. intros plot Hp. destruct (Hs plot Hp) as [Hd Hl].
  split; [|exact Hl].
  destruct Hd as (t & _ & ay & km & Hdata & _ & Hy & _ & Hay & Hk).
  rewrite Hcx, Hdata in *.
  destruct (@combo_item_valid t (itemText (combo_items (Some t)) i)
                              (Hnamed t eq_refl))
    as [Hx (ax & Hax)]; [now apply itemText_In|].
  exists t, ax, ay, km. repeat split; assumption.
Qed.

Lemma keeps_chart_cby_activated (i : nat) :
  keeps chart_invariant (cby_activated i).
Proof.
  intros w HI. unfold cby_activated. rewrite bind_get.
  destruct (i <? length (cby (gui w))) eqn:Hi; [|exact HI].
  rewrite bind_modify.
  apply (keeps_chart_restart_at recursion_limit).
  apply Nat.ltb_lt in Hi.
  destruct HI as [Hs (Hcx & Hcy & Hnamed)].
  split; [|repeat split; assumption].
  simpl. intros plot Hp. destruct (Hs plot Hp) as [Hd Hl].
  split; [|exact Hl].
  destruct Hd as (t & ax & _ & km & Hdata & Hx & _ & Hax & _ & Hk).
  rewrite Hcy, Hdata in *.
  destruct (@combo_item_valid t (itemText (combo_items (Some t)) i)
                              (Hnamed t eq_refl))
    as [Hy (ay & Hay)]; [now apply itemText_In|].
  exists t, ax, ay, km. repeat split; assumption.
Qed.

Lemma keeps_chart_handle (e : Event) :
  well_formed e = true -> keeps chart_invariant (handle e).
Proof.
  intros Hwf. destruct e; simpl.
  - apply keeps_chart_set_data. intros t ->. exact Hwf.
  - apply keeps_chart_cbx_activated.
  - apply keeps_chart_cby_activated.
  - apply keeps_chart_spinner.
  - apply keeps_chart_linesCheckbox_toggled.
  - apply keeps_chart_step.
  - apply keeps_chart_step_back.
  - apply keeps_chart_restart_at.
  - apply (@beside_chart_keeps _ chart_invariant _ (@chart_invariant_view)),
      beside_chart_auto_play.
  - apply keeps_chart_step.
  - apply (@beside_chart_keeps _ chart_invariant _ (@chart_invariant_view)),
      beside_chart_stop_auto_play.
  - apply keeps_chart_graph_clicked.
  - apply keeps_chart_js_drop_function.
Qed.

Lemma chart_invariant_init (s : Settings) (random : nat -> Point) :
  chart_invariant (init s random).
Proof.
  split; [intros plot Hp; discriminate|].
  repeat split; try reflexivity. simpl. discriminate.
Qed.

Lemma chart_invariant_run (es : list Event) (w : OWKmeans) :
  forallb well_formed es = true ->
  chart_invariant w -> chart_invariant (run es w).
Proof.
  revert w. induction es as [|e es IH]; intros w Hwf H; simpl; [exact H|].
  simpl in Hwf. apply andb_true_iff in Hwf. destruct Hwf as [He Hes].
  apply IH; [exact Hes|].
  apply keeps_exec; [now apply keeps_chart_handle|exact H].
Qed.






(** ** The step-back button *)

Section BesideGui.

Context {A B : Type}.

Lemma beside_gui_bind (c : M A) (f : A -> M B) :
  beside_gui c -> (forall a, beside_gui (f a)) -> beside_gui (bind c f).
Proof.
  intros Hc Hf w. unfold bind. specialize (Hc w).
  destruct (c w) as [[a|e] w1]; simpl in *; [|exact Hc].
  now rewrite (Hf a w1).
Qed.

Lemma beside_gui_ret (a : A) : beside_gui (ret a).
Proof. intros w. reflexivity. Qed.

Lemma beside_gui_raise (e : Exn) : beside_gui (@raise A e).
Proof. intros w. reflexivity. Qed.

Lemma beside_gui_require (o : option A) (e : Exn) : beside_gui (require o e).
Proof. destruct o; [apply beside_gui_ret|apply beside_gui_raise]. Qed.

End BesideGui.

Lemma beside_gui_send_data : beside_gui send_data.
Proof.
  unfold send_data.
  repeat
    match goal with
    | |- beside_gui (bind _ _) => apply beside_gui_bind; [|intro]
    | |- beside_gui (require _ _) => apply beside_gui_require
    | |- beside_gui (match ?x with _ => _ end) => destruct x
    | |- beside_gui _ => intros w; reflexivity
    end.
Qed.

Lemma triple_true (A : Type) (P : OWKmeans -> Prop) (c : M A) :
  triple P c (fun _ _ => True) (fun _ => True).
Proof. intros w _. now destruct (c w) as [[a|e] w1]. Qed.

Lemma triple_frame (A : Type) (P Q : OWKmeans -> Prop) (c : M A) :
  (forall w, P w -> Q (snd (c w))) ->
  triple P c (fun _ => Q) (fun _ => True).
Proof.
  intros H w HI. specialize (H w HI).
  now destruct (c w) as [[a|e] w1].
Qed.

Lemma restart_disables_step_back (fuel : nat) :
  triple (fun _ => True) (restart_at fuel)
         (fun _ w => stepBackButton_disabled (gui w) = true)
         (fun _ => True).
Proof.
  destruct fuel as [|fuel]; simpl; [now intros w _|].
  do 7 (eapply triple_bind; [apply triple_true|intros ?]).
  eapply triple_bind.
  - apply triple_modify
      with (Q := fun w => stepBackButton_disabled (gui w) = true).
    reflexivity.
  - intros ?. apply triple_frame. intros w H.
    now rewrite beside_gui_send_data.
Qed.

Lemma no_history_same_model (w w' : OWKmeans) :
  same_model w w' -> no_history w -> no_history w'.
Proof.
  intros (_ & _ & _ & _ & _ & _ & Hk & _). unfold no_history.
  now rewrite Hk.
Qed.

Lemma keeps_nh_view_only (A : Type) (c : M A) :
  view_only c -> keeps no_history c.
Proof.
  intros Hv w HI. specialize (Hv w).
  destruct (c w) as [[a|e] w1]; simpl in Hv;
    exact (no_history_same_model Hv HI).
Qed.

Lemma keeps_nh_call (f : Kmeans.t -> Kmeans.t) :
  (forall km, Kmeans.history (f km) = Kmeans.history km) ->
  keeps no_history (k_means_call f).
Proof.
  intros Hf w HI. destruct (k_means w) as [km|] eqn:Hk.
  - rewrite (k_means_call_some f w Hk).
    destruct HI as (km0 & Hk0 & Hh).
    assert (km0 = km) by congruence. subst km0.
    exists (f km). split; [reflexivity|now rewrite Hf].
  - now rewrite (k_means_call_none f w Hk).
Qed.

Lemma delete_centroids_history (index : option Z) (km : Kmeans.t) :
  Kmeans.history (Kmeans.delete_centroids index km) = Kmeans.history km.
Proof.
  unfold Kmeans.delete_centroids.
  repeat match goal with
         | |- context [if ?b then _ else _] => destruct b
         end; reflexivity.
Qed.

Ltac keeps_nh :=
  repeat
    match goal with
    | |- keeps _ (bind _ _) => apply keeps_bind; [|intro]
    | |- keeps _ (ret _) => apply keeps_ret
    | |- keeps _ (raise _) => apply keeps_raise
    | |- keeps _ get => apply keeps_get
    | |- keeps _ (require _ _) => apply keeps_require
    | |- keeps _ (for_range _ _) => apply keeps_for_range
    | H : keeps ?I ?c |- keeps ?I ?c => exact H
    | |- keeps _ (modify_gui _) =>
        apply keeps_nh_view_only, view_only_modify_gui
    | |- keeps _ set_empty_plot =>
        apply keeps_nh_view_only, view_only_set_empty_plot
    | |- keeps _ replot => apply keeps_nh_view_only, view_only_replot
    | |- keeps _ send_data => apply keeps_nh_view_only, view_only_send_data
    | |- keeps _ the_k_means =>
        apply keeps_nh_view_only, view_only_the_k_means
    | |- keeps _ (k_means_call _) => apply keeps_nh_call
    | |- keeps _ (modify _) =>
        apply keeps_modify; intros ? ?; assumption
    | |- keeps _ (match ?x with _ => _ end) => destruct x
    end.

Lemma keeps_nh_add_centroids (position : option Point) :
  keeps no_history (add_centroids position).
Proof.
  unfold add_centroids, draw. keeps_nh; reflexivity.
Qed.

Lemma keeps_nh_number_of_clusters_changed_with (restart : M unit) :
  keeps no_history restart ->
  keeps no_history (number_of_clusters_changed_with restart).
Proof.
  intros Hr. pose proof keeps_nh_add_centroids.
  unfold number_of_clusters_changed_with.
  keeps_nh; try (intros km; apply delete_centroids_history); auto.
Qed.

Lemma assign_new_history (P : OWKmeans -> Prop) (points : list Point)
      (rest : M unit) :
  keeps no_history rest ->
  triple P
         (bind (new_Kmeans points)
               (fun km => bind (modify (with_k_means (Some km)))
                               (fun _ => rest)))
         (fun _ => no_history)
         (fun w => P w \/ no_history w).
Proof.
  intros Hrest w Hw. unfold bind at 1.
  unfold new_Kmeans, bind at 1 2 3, get. simpl.
  destruct (Kmeans.new points 1 (fun i => rng w (rng_used w + i)))
    as [km|] eqn:Hnew; simpl; [|now left].
  assert (Hf : no_history
                 (with_k_means (Some km)
                               (with_rng_used (rng_used w + 1) w))).
  { exists km. split; [reflexivity|].
    unfold Kmeans.new in Hnew.
    destruct (length points <? 1); [discriminate|].
    injection Hnew as <-. reflexivity. }
  specialize (Hrest _ Hf). unfold bind at 1. simpl.
  match goal with
  | |- match ?c with _ => _ end => destruct c as [[[]|e] w1]
  end; [exact Hrest|now right].
Qed.

Lemma keeps_nh_restart_at (fuel : nat) : keeps no_history (restart_at fuel).
Proof.
  induction fuel as [|fuel IH]; simpl; [apply keeps_raise|].
  apply keeps_bind; [unfold concat_x_y; keeps_nh|intros points].
  eapply triple_conseq.
  - apply (@assign_new_history no_history points).
    pose proof (keeps_nh_number_of_clusters_changed_with IH).
    keeps_nh.
  - auto.
  - auto.
  - intros w [H|H]; exact H.
Qed.

Lemma restart_clears_history (fuel : nat) :
  triple (fun _ => True) (restart_at fuel) (fun _ => no_history)
         (fun _ => True).
Proof.
  destruct fuel as [|fuel]; simpl; [now intros w _|].
  eapply triple_bind; [apply triple_true|intros points].
  eapply triple_conseq.
  - apply (@assign_new_history (fun _ => True) points).
    pose proof (keeps_nh_number_of_clusters_changed_with
                  (keeps_nh_restart_at fuel)).
    keeps_nh.
  - auto.
  - auto.
  - auto.
Qed.

Lemma step_back_disables :
  triple (fun _ => True) step_back
         (fun _ w' =>
            exists km,
              k_means w' = Some km /\
              ((Kmeans.stepNo km <= 0)%Z ->
               stepBackButton_disabled (gui w') = true))
         (fun _ => True).
Proof.
  unfold step_back.
  do 2 (eapply triple_bind; [apply triple_true|intros ?]).
  eapply triple_bind.
  { apply (@triple_conseq _ (fun _ => True) (fun _ => True)
                          (fun km w' => k_means w' = Some km)
                          (fun km w' => True /\ k_means w' = Some km)
                          (fun _ => True) (fun _ => True)).
    - unfold the_k_means. intros w0 _. unfold bind, get.
      destruct (k_means w0) eqn:Hk; simpl; auto.
    - auto.
    - intros km w0 [_ H]. exact H.
    - auto. }
  intros km.
  do 2 (eapply triple_bind;
        [apply triple_modify with (Q := fun w' => k_means w' = Some km);
         intros w0 H; exact H|intros ?]).
  eapply triple_bind
    with (Q := fun _ w' =>
                 k_means w' = Some km /\
                 ((Kmeans.stepNo km <= 0)%Z ->
                  stepBackButton_disabled (gui w') = true)).
  - destruct (Kmeans.stepNo km <=? 0)%Z eqn:Hle.
    + apply triple_modify. intros w0 H. split; [exact H|reflexivity].
    + intros w0 H. simpl. split; [exact H|].
      apply Z.leb_gt in Hle. lia.
  - intros ?. apply triple_frame. intros w0 [Hk Hb].
    destruct (view_only_send_data w0) as (_ & _ & _ & _ & _ & _ & Hk' & _).
    rewrite beside_gui_send_data.
    exists km. split; [congruence|exact Hb].
Qed.

Lemma stepBack_empty (km : Kmeans.t) :
  Kmeans.history km = [] -> Kmeans.stepBack km = km.
Proof. intros H. unfold Kmeans.stepBack. now rewrite H. Qed.

(** C8 (as amended).  After every call of [restart] that completes, the
    step-back button is disabled and the engine has no history; after every
    call of [step_back] that completes and leaves [stepNo] at or below 0,
    the button is disabled; and [step_back] on an empty history leaves the
    engine as it is. *)
Theorem C8_step_back_button (w : OWKmeans) :
  (outcome restart w = Ok tt ->
   stepBackButton_disabled (gui (exec restart w)) = true /\
   exists km, k_means (exec restart w) = Some km /\ Kmeans.stepNo km = 0%Z) /\
  (outcome step_back w = Ok tt ->
   exists km,
     k_means (exec step_back w) = Some km /\
     ((Kmeans.stepNo km <= 0)%Z ->
      stepBackButton_disabled (gui (exec step_back w)) = true)) /\
  (forall km,
      k_means w = Some km ->
      Kmeans.history km = [] ->
      k_means (exec step_back w) = Some km).
Proof.
  split; [|split].
  - unfold outcome, exec, restart. intros Hok.
    pose proof (restart_disables_step_back recursion_limit) as Hb.
    pose proof (restart_clears_history recursion_limit) as Hh.
    specialize (Hb w I). specialize (Hh w I).
    destruct (restart_at recursion_limit w) as [[[]|e] w1];
      [|discriminate].
    simpl. split; [exact Hb|].
    destruct Hh as (km & Hk & Hh). exists km. split; [exact Hk|].
    unfold Kmeans.stepNo. now rewrite Hh.
  - unfold outcome, exec. intros Hok.
    pose proof step_back_disables as H. specialize (H w I).
    destruct (step_back w) as [[[]|e] w1]; [exact H|discriminate].
  - intros km Hk Hh. rewrite (step_back_k_means w Hk).
    now rewrite stepBack_empty.
Qed.

Lemma C8_step_back_button_witness :
  (stepBackButton_disabled (gui (exec restart example_session)) = true /\
   exists km,
     k_means (exec restart example_session) = Some km /\
     Kmeans.stepNo km = 0%Z) /\
  (exists km,
      k_means (exec step_back (run [StepButton] example_session)) = Some km /\
      ((Kmeans.stepNo km <= 0)%Z ->
       stepBackButton_disabled
         (gui (exec step_back (run [StepButton] example_session))) = true)) /\
  k_means (exec step_back example_session) = Some example_session_engine.
Proof.
  split; [|split].
  - apply (proj1 (C8_step_back_button example_session)).
    vm_compute. reflexivity.
  - apply (proj1 (proj2 (C8_step_back_button
                           (run [StepButton] example_session)))).
    vm_compute. reflexivity.
  - apply (proj2 (proj2 (C8_step_back_button example_session))).
    + vm_compute. reflexivity.
    + reflexivity.
Defined.

(** C8 as stated fails: the button is not disabled exactly when there is
    no history.  While autoplay runs, the thread's step is recorded in the
    history and the button stays disabled; and after autoplay was started and
    stopped at once, [stop_auto_play] has enabled the button although the
    history is empty, so that the user's click reaches [step_back]. *)
Lemma C8_step_back_button_counterexample :
  (accepted one_autoplay_step (init default_settings example_random) = true /\
   option_map Kmeans.stepNo
              (k_means (run one_autoplay_step
                            (init default_settings example_random)))
   = Some 1%Z /\
   stepBackButton_disabled
     (gui (run one_autoplay_step (init default_settings example_random)))
   = true) /\
  (accepted (stopped_at_once ++ [StepBackButton])
            (init default_settings example_random) = true /\
   option_map Kmeans.stepNo
              (k_means (run stopped_at_once
                            (init default_settings example_random)))
   = Some 0%Z /\
   stepBackButton_disabled
     (gui (run stopped_at_once (init default_settings example_random)))
   = false).
Proof. vm_compute. repeat split; reflexivity. Qed.

(** ** The setting and the number of centroids *)

Lemma add_centroids_random (w : OWKmeans) (km : Kmeans.t) :
  k_means w = Some km ->
  add_centroids None w
  = (Ok tt,
     with_k_means
       (Some (Kmeans.add_centroids None (rng w (rng_used w)) km))
       (with_rng_used (S (rng_used w)) w)).
Proof.
  intros H. unfold add_centroids, the_k_means, draw, k_means_call,
              the_k_means, bind, get, modify, ret.
  rewrite H. simpl. rewrite H. reflexivity.
Qed.

Lemma for_range_add (m : nat) :
  forall w km,
    k_means w = Some km ->
    exists w' km',
      for_range m (add_centroids None) w = (Ok tt, w') /\
      k_means w' = Some km' /\
      length (Kmeans.centroids km') = length (Kmeans.centroids km) + m /\
      numberOfClusters w' = numberOfClusters w.
Proof.
  induction m as [|m IH]; intros w km Hk; simpl.
  - exists w, km. repeat split; [exact Hk|lia].
  - erewrite bind_ok by (apply add_centroids_random; exact Hk).
    match goal with
    | |- context [for_range m _ ?w1] =>
        destruct (IH w1 _ eq_refl) as (w' & km' & Hrun & Hk' & Hlen & Hn)
    end.
    exists w', km'. repeat split; [exact Hrun|exact Hk'| |exact Hn].
    rewrite Hlen. simpl. rewrite length_app. simpl. lia.
Qed.

Lemma delete_last_length (km : Kmeans.t) :
  2 <= length (Kmeans.centroids km) ->
  length (Kmeans.centroids (Kmeans.delete_centroids None km))
  = pred (length (Kmeans.centroids km)).
Proof.
  intros H. unfold Kmeans.delete_centroids.
  destruct (Nat.leb_spec (length (Kmeans.centroids km)) 1); [lia|].
  match goal with
  | |- context [if ?b then _ else _] => destruct b eqn:Hb
  end.
  - apply orb_true_iff in Hb. destruct Hb as [Hb|Hb].
    + apply Z.ltb_lt in Hb. lia.
    + apply Z.leb_le in Hb. lia.
  - simpl. rewrite remove_at_length; lia.
Qed.

Lemma for_range_delete (m : nat) :
  forall w km,
    k_means w = Some km ->
    m + 1 <= length (Kmeans.centroids km) ->
    exists w' km',
      for_range m (k_means_call (Kmeans.delete_centroids None)) w
      = (Ok tt, w') /\
      k_means w' = Some km' /\
      length (Kmeans.centroids km') = length (Kmeans.centroids km) - m /\
      numberOfClusters w' = numberOfClusters w.
Proof.
  induction m as [|m IH]; intros w km Hk Hlen; simpl.
  - exists w, km. repeat split; [exact Hk|lia].
  - erewrite bind_ok by (apply k_means_call_some; exact Hk).
    match goal with
    | |- context [for_range m _ ?w1] =>
        destruct (IH w1 _ eq_refl) as (w' & km' & Hrun & Hk' & Hlen' & Hn)
    end.
    + rewrite delete_last_length; lia.
    + exists w', km'. repeat split; [exact Hrun|exact Hk'| |exact Hn].
      rewrite Hlen', delete_last_length; lia.
Qed.

Lemma bind_ret (A B : Type) (a : A) (g : A -> M B) (w : OWKmeans) :
  bind (ret a) g w = g a w.
Proof. reflexivity. Qed.

Lemma bind_the_k_means (B : Type) (g : Kmeans.t -> M B) (w : OWKmeans)
      (km : Kmeans.t) :
  k_means w = Some km -> bind the_k_means g w = g km w.
Proof.
  intros H. unfold the_k_means, bind, get. now rewrite H.
Qed.

Lemma number_of_clusters_changed_adjusts (restart : M unit) (w : OWKmeans)
      (t : Table) (km : Kmeans.t) :
  data w = Some t ->
  (numberOfClusters w <= len t)%Z ->
  k_means w = Some km ->
  (1 <= numberOfClusters w)%Z ->
  exists km',
    k_means (exec (number_of_clusters_changed_with restart) w) = Some km' /\
    Kmeans.k km' = numberOfClusters w /\
    numberOfClusters (exec (number_of_clusters_changed_with restart) w)
    = numberOfClusters w.
Proof.
  intros Hd Hle Hk Hn.
  unfold exec, number_of_clusters_changed_with.
  rewrite bind_get, Hd.
  change (require (Some t) TypeError) with (ret t). rewrite bind_ret.
  apply Z.ltb_ge in Hle. rewrite Hle.
  rewrite !bind_modify_gui, Hk, bind_ret.
  erewrite bind_the_k_means by exact Hk.
  rewrite bind_get.
  match goal with
  | |- context [bind _ _ ?w1] => set (w0 := w1)
  end.
  change (numberOfClusters w0) with (numberOfClusters w).
  assert (Hk0 : k_means w0 = Some km) by exact Hk.
  destruct (Kmeans.k km <? numberOfClusters w)%Z eqn:Hlt.
  - apply Z.ltb_lt in Hlt.
    destruct (for_range_add (Z.to_nat (numberOfClusters w - Kmeans.k km))
                            w0 Hk0)
      as (w' & km' & Hrun & Hk' & Hlen & Hn').
    erewrite bind_ok by exact Hrun.
    destruct (view_only_redraw_and_send w')
      as (Hnum & _ & _ & _ & _ & _ & Hkm & _).
    exists km'. split; [now rewrite Hkm|].
    split; [|now rewrite Hnum, Hn'].
    unfold Kmeans.k in *. lia.
  - apply Z.ltb_ge in Hlt.
    destruct (for_range_delete (Z.to_nat (Kmeans.k km - numberOfClusters w))
                               w0 Hk0)
      as (w' & km' & Hrun & Hk' & Hlen & Hn');
      [unfold Kmeans.k in *; lia|].
    erewrite bind_ok by exact Hrun.
    destruct (view_only_redraw_and_send w')
      as (Hnum & _ & _ & _ & _ & _ & Hkm & _).
    exists km'. split; [now rewrite Hkm|].
    split; [|now rewrite Hnum, Hn'].
    unfold Kmeans.k in *. lia.
Qed.

(** C9 (as amended).  A successful [graph_clicked] raises the engine's
    number of centroids and [numberOfClusters] by exactly 1 each, so the two
    agree afterwards if they agreed before; and [number_of_clusters_changed],
    on its adjustment branch with an engine and a setting of at least 1,
    adds or deletes centroids until the engine has [numberOfClusters] of
    them. *)
Theorem C9_setting_and_centroid_count (w : OWKmeans) (x y : Q) :
  (forall km,
      k_means w = Some km ->
      Kmeans.step_completed km = true ->
      exists km',
        k_means (exec (graph_clicked x y) w) = Some km' /\
        Kmeans.k km' = (Kmeans.k km + 1)%Z /\
        numberOfClusters (exec (graph_clicked x y) w)
        = (numberOfClusters w + 1)%Z /\
        (numberOfClusters w = Kmeans.k km ->
         numberOfClusters (exec (graph_clicked x y) w) = Kmeans.k km')) /\
  (forall t km,
      data w = Some t ->
      (1 <= numberOfClusters w <= len t)%Z ->
      k_means w = Some km ->
      exists km',
        k_means (exec number_of_clusters_changed w) = Some km' /\
        Kmeans.k km' = numberOfClusters (exec number_of_clusters_changed w)).
Proof.
  split.
  - intros km H Hs.
    destruct (graph_clicked_gate_open w x y H Hs)
      as (Hn & _ & _ & _ & _ & _ & Hk & _).
    exists (Kmeans.add_centroids (Some (x, y)) (x, y) km).
    assert (Hadd : Kmeans.k (Kmeans.add_centroids (Some (x, y)) (x, y) km)
                   = (Kmeans.k km + 1)%Z).
    { unfold Kmeans.k, Kmeans.add_centroids. simpl.
      rewrite length_app. simpl. lia. }
    repeat split; [exact Hk|exact Hadd|exact Hn|].
    intros Heq. rewrite Hadd, <- Heq. exact Hn.
  - intros t km Hd [Hlo Hhi] Hk. unfold number_of_clusters_changed.
    destruct (number_of_clusters_changed_adjusts
                (restart_at (pred recursion_limit)) w Hd Hhi Hk Hlo)
      as (km' & Hk' & Hkm & Hn).
    exists km'. split; [exact Hk'|]. now rewrite Hn.
Qed.

Lemma C9_setting_and_centroid_count_witness :
  (exists km',
      k_means (exec (graph_clicked 5 5) example_session) = Some km' /\
      Kmeans.k km' = (Kmeans.k example_session_engine + 1)%Z /\
      numberOfClusters (exec (graph_clicked 5 5) example_session)
      = (numberOfClusters example_session + 1)%Z /\
      (numberOfClusters example_session = Kmeans.k example_session_engine ->
       numberOfClusters (exec (graph_clicked 5 5) example_session)
       = Kmeans.k km')) /\
  (exists km',
      k_means (exec number_of_clusters_changed
                    (with_numberOfClusters 4%Z example_session))
      = Some km' /\
      Kmeans.k km'
      = numberOfClusters
          (exec number_of_clusters_changed
                (with_numberOfClusters 4%Z example_session))).
Proof.
  split.
  - apply (proj1 (C9_setting_and_centroid_count example_session 5 5)
                 example_session_engine).
    + vm_compute. reflexivity.
    + reflexivity.
  - apply (proj2 (C9_setting_and_centroid_count
                    (with_numberOfClusters 4%Z example_session) 5 5)
                 example_table example_session_engine).
    + reflexivity.
    + vm_compute. split; discriminate.
    + vm_compute. reflexivity.
Defined.

(** C9 as stated fails: [numberOfClusters] and the engine's number of
    centroids can differ after both operations have completed.  With the
    default setting 0, the first input runs the adjustment branch and leaves
    one centroid; and after a step back has restored an earlier, smaller set
    of centroids, a successful click raises both numbers by 1 and leaves them
    different. *)
Lemma C9_setting_and_centroid_count_counterexample :
  (outcome (handle (Input (Some example_table)))
           (init default_settings example_random) = Ok tt /\
   numberOfClusters
     (run [Input (Some example_table)] (init default_settings example_random))
   = 0%Z /\
   option_map Kmeans.k
              (k_means (run [Input (Some example_table)]
                            (init default_settings example_random)))
   = Some 1%Z) /\
  (accepted (click_after_step_back ++ [ChartClick 1 1])
            (init default_settings example_random) = true /\
   outcome (graph_clicked 1 1)
           (run click_after_step_back (init default_settings example_random))
   = Ok tt /\
   option_map Kmeans.k
              (k_means (run click_after_step_back
                            (init default_settings example_random)))
   = Some 2%Z /\
   numberOfClusters
     (run click_after_step_back (init default_settings example_random))
   = 3%Z /\
   option_map Kmeans.k
              (k_means (run (click_after_step_back ++ [ChartClick 1 1])
                            (init default_settings example_random)))
   = Some 3%Z /\
   numberOfClusters
     (run (click_after_step_back ++ [ChartClick 1 1])
          (init default_settings example_random))
   = 4%Z).
Proof. vm_compute. repeat split; reflexivity. Qed.

(** ** The mutual recursion of [restart] and [number_of_clusters_changed]

    With an engine in place [number_of_clusters_changed] does not call
    [restart], and [restart] puts one in place before it calls
    [number_of_clusters_changed]: the recursion stops at depth two, and the
    fuel of [restart_at] is never used up. *)

Lemma bind_ext (A B : Type) (c : M A) (f g : A -> M B) (w : OWKmeans) :
  (forall a w1, c w = (Ok a, w1) -> f a w1 = g a w1) ->
  bind c f w = bind c g w.
Proof.
  intros H. unfold bind. destruct (c w) as [[a|e] w1]; [|reflexivity].
  now apply H.
Qed.

Lemma number_of_clusters_changed_with_engine (r r' : M unit) (w : OWKmeans)
      (km : Kmeans.t) :
  k_means w = Some km ->
  number_of_clusters_changed_with r w = number_of_clusters_changed_with r' w.
Proof.
  intros Hk. unfold number_of_clusters_changed_with.
  rewrite !bind_get. apply bind_ext. intros t w1 _.
  destruct (len t <? numberOfClusters w)%Z; [reflexivity|].
  rewrite !bind_modify_gui, Hk. reflexivity.
Qed.

Lemma restart_at_fuel (fuel fuel' : nat) (w : OWKmeans) :
  restart_at (S fuel) w = restart_at (S fuel') w.
Proof.
  simpl. apply bind_ext. intros points w1 _.
  apply bind_ext. intros km w2 _.
  rewrite !bind_modify. unfold bind at 1 3.
  now rewrite (@number_of_clusters_changed_with_engine
                 (restart_at fuel) (restart_at fuel')
                 (with_k_means (Some km) w2) km eq_refl).
Qed.

Lemma number_of_clusters_changed_fuel (fuel fuel' : nat) (w : OWKmeans) :
  number_of_clusters_changed_with (restart_at (S fuel)) w
  = number_of_clusters_changed_with (restart_at (S fuel')) w.
Proof.
  unfold number_of_clusters_changed_with.
  rewrite !bind_get. apply bind_ext. intros t w1 _.
  destruct (len t <? numberOfClusters w)%Z; [reflexivity|].
  rewrite !bind_modify_gui.
  destruct (k_means w); [reflexivity|].
  unfold bind at 1 3. now rewrite (restart_at_fuel fuel fuel').
Qed.

(** ** The outputs *)

Lemma cluster_names_spec (k0 : nat) :
  length (cluster_names k0) = k0 /\
  forall i, i < k0 -> nth_error (cluster_names k0) i = Some (cluster_name i).
Proof.
  unfold cluster_names. split; [now rewrite length_map, length_seq|].
  intros i Hi. rewrite nth_error_map, nth_error_seq.
  apply Nat.ltb_lt in Hi. rewrite Hi. reflexivity.
Qed.

Lemma send_twice (a b : Signal) (w : OWKmeans) :
  bind (send a) (fun _ => send b) w
  = (Ok tt, with_sent (sent w ++ [a; b]) w).
Proof.
  unfold bind, send, modify. simpl. now rewrite <- app_assoc.
Qed.

Lemma send_data_none (w : OWKmeans) :
  k_means w = None \/
  (exists km, k_means w = Some km /\ Kmeans.clusters km = None) ->
  send_data w
  = (Ok tt, with_sent (sent w ++ [AnnotatedData None; Centroids None]) w).
Proof.
  intros [H|(km & H & Hc)]; unfold send_data; rewrite bind_get, H;
    [|rewrite Hc]; apply send_twice.
Qed.

Lemma send_data_some (w : OWKmeans) (t : Table) (km : Kmeans.t)
      (a : list nat) :
  data w = Some t ->
  k_means w = Some km ->
  Kmeans.clusters km = Some a ->
  length a = length (rows t) ->
  send_data w
  = (Ok tt,
     with_sent
       (sent w
          ++ [AnnotatedData
                (Some (mkAnnotated
                         (mkDomain
                            (attributes (domain t))
                            [DiscreteVariable
                               outputName
                               (cluster_names (Z.to_nat (Kmeans.k km)))]
                            (metas (domain t) ++ class_vars (domain t)))
                         t a));
              Centroids (Some (Kmeans.centroids km))])
       w).
Proof.
  intros Hd Hk Hc Hlen. unfold send_data.
  rewrite bind_get, Hk, Hc, Hd.
  change (require (Some t) AttributeError) with (ret t). rewrite bind_ret.
  unfold assign_column. rewrite Hlen, Nat.eqb_refl.
  change (require (Some a) ValueError) with (ret a). rewrite bind_ret.
  rewrite send_twice.
  destruct (class_vars (domain t)); [now rewrite app_nil_r|reflexivity].
Qed.

(** X18. While the widget holds the table the assignments belong to (there
    is data, with one row per assigned point), [send_data] sends [None] on
    both outputs if and only if there is no engine or the engine has no
    assignments yet; otherwise it sends the table annotated with the
    assignments, whose class variable [cluster] has exactly [k] values,
    named [C1] to [Ck], together with the coordinates of the current
    centroids. *)
Theorem send_data_outputs (w : OWKmeans) (t : Table) :
  output_ready w t ->
  ((k_means w = None \/
    (exists km, k_means w = Some km /\ Kmeans.clusters km = None)) <->
   sent (exec send_data w)
   = sent w ++ [AnnotatedData None; Centroids None]) /\
  (forall km a,
      k_means w = Some km ->
      Kmeans.clusters km = Some a ->
      exists ann names,
        sent (exec send_data w)
        = sent w ++ [AnnotatedData (Some ann);
                     Centroids (Some (Kmeans.centroids km))] /\
        class_vars (ann_domain ann) = [DiscreteVariable outputName names] /\
        Z.of_nat (length names) = Kmeans.k km /\
        (forall i, i < length names ->
                   nth_error names i = Some (cluster_name i)) /\
        ann_source ann = t /\
        ann_cluster_column ann = a).
Proof.
  intros [Hd Hfit].
  assert (Hsome :
            forall km a,
              k_means w = Some km ->
              Kmeans.clusters km = Some a ->
              exists ann names,
                sent (exec send_data w)
                = sent w ++ [AnnotatedData (Some ann);
                             Centroids (Some (Kmeans.centroids km))] /\
                class_vars (ann_domain ann)
                = [DiscreteVariable outputName names] /\
                Z.of_nat (length names) = Kmeans.k km /\
                (forall i, i < length names ->
                           nth_error names i = Some (cluster_name i)) /\
                ann_source ann = t /\
                ann_cluster_column ann = a).
  { intros km a Hk Hc. unfold exec.
    rewrite (send_data_some w Hd Hk Hc (Hfit km a Hk Hc)). simpl.
    eexists. exists (cluster_names (Z.to_nat (Kmeans.k km))).
    split; [reflexivity|]. simpl.
    destruct (cluster_names_spec (Z.to_nat (Kmeans.k km))) as [Hlen Hnth].
    repeat split; try reflexivity.
    - rewrite Hlen. unfold Kmeans.k. lia.
    - intros i Hi. apply Hnth. now rewrite Hlen in Hi. }
  split; [|exact Hsome].
  split.
  - intros H. unfold exec. now rewrite (send_data_none w H).
  - intros Hsent.
    destruct (k_means w) as [km|] eqn:Hk; [|now left].
    destruct (Kmeans.clusters km) as [a|] eqn:Hc; [|right; now exists km].
    destruct (Hsome km a eq_refl Hc) as (ann & names & Hs & _).
    rewrite Hs in Hsent. apply app_inv_head in Hsent. discriminate.
Qed.

Lemma send_data_outputs_witness :
  ((k_means (run [StepButton] example_session) = None \/
    (exists km,
        k_means (run [StepButton] example_session) = Some km /\
        Kmeans.clusters km = None)) <->
   sent (exec send_data (run [StepButton] example_session))
   = sent (run [StepButton] example_session)
          ++ [AnnotatedData None; Centroids None]) /\
  (forall km a,
      k_means (run [StepButton] example_session) = Some km ->
      Kmeans.clusters km = Some a ->
      exists ann names,
        sent (exec send_data (run [StepButton] example_session))
        = sent (run [StepButton] example_session)
               ++ [AnnotatedData (Some ann);
                   Centroids (Some (Kmeans.centroids km))] /\
        class_vars (ann_domain ann) = [DiscreteVariable outputName names] /\
        Z.of_nat (length names) = Kmeans.k km /\
        (forall i, i < length names ->
                   nth_error names i = Some (cluster_name i)) /\
        ann_source ann = example_table /\
        ann_cluster_column ann = a).
Proof.
  apply (send_data_outputs (w := run [StepButton] example_session)
                           (t := example_table)).
  split; [reflexivity|].
  intros km a Hk Hc. vm_compute in Hk. injection Hk as <-.
  vm_compute in Hc. injection Hc as <-. reflexivity.
Defined.

(** C10.  [send_data] fails on an engine that has outlived its data: it
    sends neither [None] nor tables.  After the input is withdrawn the
    engine and its assignments remain and the step button still works;
    [send_data] then reads [self.data.domain] on [None] (line 435) and raises
    [AttributeError] before it sends anything.  After the input is replaced
    by a table the widget refuses, with another number of rows, the column
    assignment of line 442 raises [ValueError], again before anything is
    sent.  [replot] tests [self.data is None] (line 315); [send_data] does
    not. *)
Theorem C10_send_data_fails_on_stale_engine :
  (accepted (input_withdrawn ++ [StepButton])
            (init default_settings example_random) = true /\
   data (run input_withdrawn (init default_settings example_random)) = None /\
   option_map Kmeans.clusters
              (k_means (run input_withdrawn
                            (init default_settings example_random)))
   = Some (Some [0; 0; 0; 0]) /\
   outcome send_data
           (run input_withdrawn (init default_settings example_random))
   = Raise AttributeError /\
   sent (exec send_data
              (run input_withdrawn (init default_settings example_random)))
   = sent (run input_withdrawn (init default_settings example_random)) /\
   outcome (handle StepButton)
           (run input_withdrawn (init default_settings example_random))
   = Raise AttributeError /\
   sent (run (input_withdrawn ++ [StepButton])
             (init default_settings example_random))
   = sent (run input_withdrawn (init default_settings example_random))) /\
  (accepted (input_replaced ++ [StepButton])
            (init default_settings example_random) = true /\
   data (run input_replaced (init default_settings example_random))
   = Some short_table /\
   option_map Kmeans.clusters
              (k_means (run input_replaced
                            (init default_settings example_random)))
   = Some (Some [0; 0; 0; 0]) /\
   outcome send_data
           (run input_replaced (init default_settings example_random))
   = Raise ValueError /\
   sent (exec send_data
              (run input_replaced (init default_settings example_random)))
   = sent (run input_replaced (init default_settings example_random)) /\
   outcome (handle StepButton)
           (run input_replaced (init default_settings example_random))
   = Raise ValueError /\
   sent (run (input_replaced ++ [StepButton])
             (init default_settings example_random))
   = sent (run input_replaced (init default_settings example_random))).
Proof. vm_compute. repeat split; reflexivity. Qed.

(** * Further properties of the widget *)

(** ** Handlers called too early *)

(** X1. Without an engine (before the first usable input), [step],
    [step_back] and [centroid_dropped] raise [AttributeError] and
    [graph_clicked] returns; none of them changes the widget. *)
Theorem handlers_without_engine (w : OWKmeans) :
  k_means w = None ->
  step w = (Raise AttributeError, w) /\
  step_back w = (Raise AttributeError, w) /\
  (forall i x y, centroid_dropped i x y w = (Raise AttributeError, w)) /\
  (forall x y, graph_clicked x y w = (Ok tt, w)).
Proof.
  intros H. repeat split; intros.
  - unfold step. apply bind_raise. now apply k_means_call_none.
  - unfold step_back. apply bind_raise. now apply k_means_call_none.
  - unfold centroid_dropped. apply bind_raise. now apply k_means_call_none.
  - apply graph_clicked_gate_closed. now left.
Qed.

Lemma handlers_without_engine_witness :
  step (init default_settings example_random)
  = (Raise AttributeError, init default_settings example_random) /\
  step_back (init default_settings example_random)
  = (Raise AttributeError, init default_settings example_random) /\
  (forall i x y,
      centroid_dropped i x y (init default_settings example_random)
      = (Raise AttributeError, init default_settings example_random)) /\
  (forall x y,
      graph_clicked x y (init default_settings example_random)
      = (Ok tt, init default_settings example_random)).
Proof.
  apply (handlers_without_engine (init default_settings example_random)).
  reflexivity.
Defined.

(** X2. Without data, [restart] raises [AttributeError] (in [concat_x_y])
    and [number_of_clusters_changed] raises [TypeError] (in [len]), both
    before any change; [replot] returns without drawing. *)
Theorem handlers_without_data (w : OWKmeans) :
  data w = None ->
  restart w = (Raise AttributeError, w) /\
  number_of_clusters_changed w = (Raise TypeError, w) /\
  replot w = (Ok tt, w).
Proof.
  intros H. repeat split.
  - unfold restart, recursion_limit. simpl. apply bind_raise.
    unfold concat_x_y. rewrite bind_get, H. reflexivity.
  - unfold number_of_clusters_changed, number_of_clusters_changed_with.
    rewrite bind_get, H. reflexivity.
  - unfold replot. rewrite bind_get, H. reflexivity.
Qed.

Lemma handlers_without_data_witness :
  restart (init default_settings example_random)
  = (Raise AttributeError, init default_settings example_random) /\
  number_of_clusters_changed (init default_settings example_random)
  = (Raise TypeError, init default_settings example_random) /\
  replot (init default_settings example_random)
  = (Ok tt, init default_settings example_random).
Proof.
  apply (handlers_without_data (init default_settings example_random)).
  reflexivity.
Defined.

(** ** The projection on the two chosen attributes *)

Lemma column_cells (t : Table) (n : string) (col : list Q) :
  column t n = Some col ->
  length col = length (rows t) /\
  forall i r, nth_error (rows t) i = Some r ->
              exists q, cell t n r = Some q /\ nth_error col i = Some q.
Proof.
  unfold column, cell. intros H.
  destruct (find_var n (attributes (domain t))) as [[i0 v]|].
  - injection H as <-. split; [now rewrite length_map|].
    intros i r Hr. eexists. split; [reflexivity|].
    now rewrite nth_error_map, Hr.
  - destruct (find_var n (class_vars (domain t))) as [[j v]|];
      [|discriminate].
    assert (H' : Some (map (fun r => nth j (y_vals r) 0%Q) (rows t))
                 = Some col)
      by (destruct (rows t); [discriminate|exact H]).
    injection H' as <-. split; [now rewrite length_map|].
    intros i r Hr. eexists. split; [reflexivity|].
    now rewrite nth_error_map, Hr.
Qed.

Lemma nth_error_combine (A B : Type) (l : list A) (l' : list B) (i : nat)
      (a : A) (b : B) :
  nth_error l i = Some a -> nth_error l' i = Some b ->
  nth_error (combine l l') i = Some (a, b).
Proof.
  revert l' i. induction l as [|x l IH]; intros [|y l'] [|i] Ha Hb;
    simpl in *; try discriminate.
  - congruence.
  - now apply IH.
Qed.

(** X3. [concat_x_y] never changes the widget.  When it returns, there is
    data and the result has one point per row, in row order, made of the
    row's values of [attr_x] and [attr_y]; it raises [AttributeError]
    without data and [KeyError] when [attr_x] or [attr_y] names no variable
    of the domain. *)
Theorem concat_x_y_projects (w : OWKmeans) :
  exec concat_x_y w = w /\
  (forall points,
      outcome concat_x_y w = Ok points ->
      exists t,
        data w = Some t /\
        length points = length (rows t) /\
        forall i r,
          nth_error (rows t) i = Some r ->
          exists x y,
            cell t (attr_x w) r = Some x /\
            cell t (attr_y w) r = Some y /\
            nth_error points i = Some (x, y)) /\
  (data w = None -> outcome concat_x_y w = Raise AttributeError) /\
  (forall t,
      data w = Some t ->
      domain_getitem (domain t) (attr_x w) = None \/
      domain_getitem (domain t) (attr_y w) = None ->
      outcome concat_x_y w = Raise KeyError).
Proof.
  unfold exec, outcome, concat_x_y. rewrite bind_get.
  destruct (data w) as [t|] eqn:Hd; simpl;
    [|repeat split; intros; discriminate].
  unfold bind, require, ret, raise.
  destruct (domain_getitem (domain t) (attr_x w)) as [ax|] eqn:Hax; simpl;
    [|repeat split; intros; try discriminate; reflexivity].
  destruct (domain_getitem (domain t) (attr_y w)) as [ay|] eqn:Hay; simpl;
    [|repeat split; intros; try discriminate; reflexivity].
  assert (Hkey : forall t',
             Some t = Some t' ->
             domain_getitem (domain t') (attr_x w) = None \/
             domain_getitem (domain t') (attr_y w) = None -> False).
  { intros t' Ht' [H|H]; injection Ht' as <-; congruence. }
  destruct (column t (attr_x w)) as [xs|] eqn:Hx; simpl;
    [|repeat split; intros; try discriminate; exfalso; eauto].
  destruct (column t (attr_y w)) as [ys|] eqn:Hy; simpl;
    [|repeat split; intros; try discriminate; exfalso; eauto].
  repeat split; intros; try discriminate; [|exfalso; eauto].
  match goal with
  | H : Ok _ = Ok _ |- _ => injection H as <-
  end.
  exists t.
  destruct (column_cells _ _ Hx) as [Hlx Hcx].
  destruct (column_cells _ _ Hy) as [Hly Hcy].
  split; [reflexivity|].
  split.
  { pose proof (length_combine xs ys) as Hlen. unfold Point.
    rewrite Hlen. lia. }
  intros i r Hr.
  destruct (Hcx i r Hr) as (x & Hx1 & Hx2).
  destruct (Hcy i r Hr) as (y & Hy1 & Hy2).
  exists x, y. repeat split; try assumption.
  now apply nth_error_combine.
Qed.

Lemma concat_x_y_projects_witness :
  exec concat_x_y example_session = example_session /\
  outcome concat_x_y example_session = Ok example_points.
Proof.
  split.
  - exact (proj1 (concat_x_y_projects example_session)).
  - vm_compute. reflexivity.
Defined.

(** ** Parts of the widget a handler leaves alone *)

Section Untouched.

Context {V : Type} (view : OWKmeans -> V).

Lemma untouched_bind (A B : Type) (c : M A) (f : A -> M B) :
  untouched view c -> (forall a, untouched view (f a)) ->
  untouched view (bind c f).
Proof.
  intros Hc Hf w. unfold bind. specialize (Hc w).
  destruct (c w) as [[a|e] w1]; simpl in *; [|exact Hc].
  now rewrite (Hf a w1).
Qed.

Lemma untouched_ret (A : Type) (a : A) : untouched view (ret a).
Proof. intros w. reflexivity. Qed.

Lemma untouched_raise (A : Type) (e : Exn) : untouched view (@raise A e).
Proof. intros w. reflexivity. Qed.

Lemma untouched_require (A : Type) (o : option A) (e : Exn) :
  untouched view (require o e).
Proof. destruct o; [apply untouched_ret|apply untouched_raise]. Qed.

Lemma untouched_get : untouched view get.
Proof. intros w. reflexivity. Qed.

Lemma untouched_modify (f : OWKmeans -> OWKmeans) :
  (forall w, view (f w) = view w) -> untouched view (modify f).
Proof. intros H w. apply H. Qed.

Lemma untouched_for_range (n : nat) (body : M unit) :
  untouched view body -> untouched view (for_range n body).
Proof.
  intros H. induction n as [|n IH]; simpl; [apply untouched_ret|].
  apply untouched_bind; [exact H|intros _; exact IH].
Qed.

Lemma untouched_keeps (A : Type) (I : OWKmeans -> Prop) (c : M A) :
  (forall w w', view w' = view w -> I w -> I w') ->
  untouched view c -> keeps I c.
Proof.
  intros HI Hc w Hw. specialize (Hc w).
  destruct (c w) as [[a|e] w1]; simpl in Hc; exact (HI w w1 Hc Hw).
Qed.

End Untouched.

(** Walks through a handler made of the basic commands; a [modify] is left
    alone when the view reads none of the fields it sets. *)
Ltac untouched :=
  unfold add_centroids, replot, send_data, concat_x_y, new_Kmeans,
    set_empty_plot, k_means_call, the_k_means, draw, send, modify_gui;
  repeat
    match goal with
    | |- untouched _ (bind _ _) => apply untouched_bind; [|intro]
    | |- untouched _ (ret _) => apply untouched_ret
    | |- untouched _ (raise _) => apply untouched_raise
    | |- untouched _ get => apply untouched_get
    | |- untouched _ (require _ _) => apply untouched_require
    | |- untouched _ (for_range _ _) => apply untouched_for_range
    | H : untouched ?v ?c |- untouched ?v ?c => exact H
    | |- untouched _ (modify _) =>
        apply untouched_modify; intro; reflexivity
    | |- untouched _ (match ?x with _ => _ end) => destruct x
    end.

(** ** The two outputs go together *)

Lemma send_data_cases (w : OWKmeans) :
  (exists e, send_data w = (Raise e, w)) \/
  (exists a c,
      send_data w
      = (Ok tt, with_sent (sent w ++ [AnnotatedData a; Centroids c]) w) /\
      (a = None <-> c = None)).
Proof.
  destruct (k_means w) as [km|] eqn:Hk.
  2:{ right. exists None, None. split; [|tauto].
      apply send_data_none. now left. }
  destruct (Kmeans.clusters km) as [a|] eqn:Hc.
  2:{ right. exists None, None. split; [|tauto].
      apply send_data_none. right. now exists km. }
  unfold send_data. rewrite bind_get, Hk, Hc.
  destruct (data w) as [t|] eqn:Hd; [|left; now exists AttributeError].
  change (require (Some t) AttributeError) with (ret t). rewrite bind_ret.
  destruct (assign_column (length (rows t)) a) as [col|];
    [|left; now exists ValueError].
  change (require (Some col) ValueError) with (ret col). rewrite bind_ret.
  right. eexists. eexists. split; [apply send_twice|].
  split; discriminate.
Qed.

(** X4. [send_data] changes nothing but the outputs, and it never sends
    on one output only: either it raises before sending anything, or it sends
    exactly two signals, the annotated data and then the centroids, both
    [None] or both tables. *)
Theorem send_data_sends_both (w : OWKmeans) :
  (exists e, outcome send_data w = Raise e /\ exec send_data w = w) \/
  (exists a c,
      outcome send_data w = Ok tt /\
      exec send_data w
      = with_sent (sent w ++ [AnnotatedData a; Centroids c]) w /\
      (a = None <-> c = None)).
Proof.
  unfold outcome, exec.
  destruct (send_data_cases w) as [(e & ->)|(a & c & -> & H)].
  - left. now exists e.
  - right. exists a, c. repeat split; apply H.
Qed.

Lemma outputs_paired_send (w : OWKmeans) (a : option AnnotatedTable)
      (c : option (list Point)) :
  outputs_paired w ->
  (a = None <-> c = None) ->
  outputs_paired (with_sent (sent w ++ [AnnotatedData a; Centroids c]) w).
Proof.
  intros (pairs & Hs & Hp) Hac. exists (pairs ++ [(a, c)]). split.
  - simpl. rewrite Hs. unfold signals_of. rewrite flat_map_app. simpl.
    reflexivity.
  - apply Forall_app. split; [exact Hp|]. constructor; [exact Hac|constructor].
Qed.

Lemma keeps_paired_send_data : keeps outputs_paired send_data.
Proof.
  intros w H.
  destruct (send_data_cases w) as [(e & ->)|(a & c & -> & Hac)];
    [exact H|now apply outputs_paired_send].
Qed.

Lemma keeps_paired_untouched (A : Type) (c : M A) :
  untouched sent c -> keeps outputs_paired c.
Proof.
  apply untouched_keeps. intros w w' H. unfold outputs_paired. now rewrite H.
Qed.

(** Walks through a handler whose only sends are those of [send_data]. *)
Ltac keeps_paired :=
  repeat
    match goal with
    | |- keeps _ (bind _ _) => apply keeps_bind; [|intro]
    | |- keeps _ (ret _) => apply keeps_ret
    | |- keeps _ (raise _) => apply keeps_raise
    | |- keeps _ get => apply keeps_get
    | |- keeps _ (require _ _) => apply keeps_require
    | |- keeps _ (for_range _ _) => apply keeps_for_range
    | H : keeps ?I ?c |- keeps ?I ?c => exact H
    | |- keeps _ send_data => apply keeps_paired_send_data
    | |- keeps _ (match ?x with _ => _ end) => destruct x
    | |- keeps outputs_paired _ =>
        apply keeps_paired_untouched; solve [untouched]
    end.

Lemma keeps_paired_number_of_clusters_changed_with (restart : M unit) :
  keeps outputs_paired restart ->
  keeps outputs_paired (number_of_clusters_changed_with restart).
Proof.
  intros Hr. unfold number_of_clusters_changed_with. keeps_paired.
Qed.

Lemma keeps_paired_restart_at (fuel : nat) :
  keeps outputs_paired (restart_at fuel).
Proof.
  induction fuel as [|fuel IH]; simpl; [apply keeps_raise|].
  pose proof (keeps_paired_number_of_clusters_changed_with IH).
  keeps_paired.
Qed.

Lemma keeps_paired_handle (e : Event) : keeps outputs_paired (handle e).
Proof.
  pose proof keeps_paired_restart_at as Hr.
  pose proof (keeps_paired_number_of_clusters_changed_with
                (Hr (pred recursion_limit))).
  pose proof (Hr recursion_limit).
  destruct e; simpl;
    unfold set_data, cbx_activated, cby_activated,
      centroidNumbersSpinner_changed, number_of_clusters_changed,
      linesCheckbox_toggled, step, step_back, restart, auto_play,
      stop_auto_play, js_click_function, chart_clicked, graph_clicked,
      js_drop_function, point_dropped, centroid_dropped in *;
    keeps_paired.
Qed.

(** X5. In every state the widget reaches from its construction, by any
    sequence of events, the signals sent so far come in pairs: annotated
    data and centroids are always sent together, and both are [None] or both
    are tables. *)
Theorem outputs_sent_in_pairs (s : Settings) (random : nat -> Point)
        (es : list Event) :
  outputs_paired (run es (init s random)).
Proof.
  assert (H : forall w, outputs_paired w -> outputs_paired (run es w)).
  { induction es as [|e es IH]; intros w Hw; simpl; [exact Hw|].
    apply IH. apply keeps_exec; [apply keeps_paired_handle|exact Hw]. }
  apply H. exists []. split; [reflexivity|constructor].
Qed.

(** ** Inputs *)

(** Proves that [restart_at], and [number_of_clusters_changed_with] on top
    of it, leave a view alone that none of their commands writes. *)
Ltac untouched_restart :=
  let fuel := fresh "fuel" in
  let IH := fresh "IH" in
  intros fuel; induction fuel as [|fuel IH]; simpl;
  [apply untouched_raise|];
  match goal with
  | |- untouched ?v _ =>
      assert (untouched v (number_of_clusters_changed_with (restart_at fuel)))
        by (unfold number_of_clusters_changed_with; untouched)
  end;
  untouched.

Lemma untouched_combos_restart_at :
  forall fuel, untouched combos_view (restart_at fuel).
Proof. untouched_restart. Qed.

Lemma keeps_combos_untouched (A : Type) (c : M A) :
  untouched combos_view c -> keeps combos_listed c.
Proof.
  apply untouched_keeps. intros w w' H. unfold combos_view in H.
  injection H as Hd Hx Hy. unfold combos_listed. now rewrite Hd, Hx, Hy.
Qed.

Lemma keeps_combos_handle (e : Event) : keeps combos_listed (handle e).
Proof.
  pose proof untouched_combos_restart_at as Hr.
  pose proof (Hr recursion_limit).
  pose proof (Hr (pred recursion_limit)).
  destruct e; simpl;
    try (apply keeps_combos_untouched;
         unfold cbx_activated, cby_activated,
           centroidNumbersSpinner_changed, number_of_clusters_changed,
           number_of_clusters_changed_with,
           linesCheckbox_toggled, step, step_back, restart, auto_play,
           stop_auto_play, js_click_function, chart_clicked, graph_clicked,
           js_drop_function, point_dropped, centroid_dropped in *;
         solve [untouched]).
  intros w _. unfold set_data.
  rewrite bind_modify, !bind_modify_gui.
  match goal with
  | |- match ?c ?w1 with _ => _ end =>
      assert (Hc : keeps combos_listed c)
  end.
  { apply keeps_combos_untouched. unfold restart in *. untouched. }
  apply Hc. split; reflexivity.
Qed.

(** X6. In every state the widget reaches from its construction, by any
    sequence of events, both combo boxes list the same items: the names of
    the continuous variables among the attributes and class variables of the
    current data, in domain order, and nothing without data. *)
Theorem combos_list_continuous_variables (s : Settings)
        (random : nat -> Point) (es : list Event) :
  combos_listed (run es (init s random)).
Proof.
  assert (H : forall w, combos_listed w -> combos_listed (run es w)).
  { induction es as [|e es IH]; intros w Hw; simpl; [exact Hw|].
    apply IH. apply keeps_exec; [apply keeps_combos_handle|exact Hw]. }
  apply H. split; reflexivity.
Qed.

(** X7. An input the widget cannot plot (none, or fewer than two
    continuous attributes) is stored and refused: [set_data] returns with
    the chart cleared, the options box disabled and a message shown; the
    engine, the chosen attributes, the setting and the outputs stay as they
    were, so an engine built on earlier data remains. *)
Theorem set_data_refuses_unusable_input (d : option Table) (w : OWKmeans) :
  unusable d = true ->
  outcome (set_data d) w = Ok tt /\
  data (exec (set_data d) w) = d /\
  scatter (gui (exec (set_data d) w)) = None /\
  optionsBox_disabled (gui (exec (set_data d) w)) = true /\
  info (gui (exec (set_data d) w))
  = match d with
    | None => "No data on input yet, waiting to get something."%string
    | Some _ => "Too few Continuous feature. Min 2 required"%string
    end /\
  k_means (exec (set_data d) w) = k_means w /\
  attr_x (exec (set_data d) w) = attr_x w /\
  attr_y (exec (set_data d) w) = attr_y w /\
  numberOfClusters (exec (set_data d) w) = numberOfClusters w /\
  sent (exec (set_data d) w) = sent w.
Proof.
  intros H. unfold outcome, exec, set_data.
  rewrite bind_modify, !bind_modify_gui.
  destruct d as [t|]; simpl in H.
  - rewrite H. rewrite !bind_modify_gui. unfold set_empty_plot.
    rewrite bind_modify_gui. simpl. repeat split; reflexivity.
  - rewrite !bind_modify_gui. unfold set_empty_plot.
    rewrite bind_modify_gui. simpl. repeat split; reflexivity.
Qed.

Lemma set_data_refuses_unusable_input_witness :
  outcome (set_data (Some narrow_table)) example_session = Ok tt /\
  data (exec (set_data (Some narrow_table)) example_session)
  = Some narrow_table /\
  scatter (gui (exec (set_data (Some narrow_table)) example_session))
  = None /\
  optionsBox_disabled
    (gui (exec (set_data (Some narrow_table)) example_session)) = true /\
  info (gui (exec (set_data (Some narrow_table)) example_session))
  = "Too few Continuous feature. Min 2 required"%string /\
  k_means (exec (set_data (Some narrow_table)) example_session)
  = k_means example_session /\
  attr_x (exec (set_data (Some narrow_table)) example_session)
  = attr_x example_session /\
  attr_y (exec (set_data (Some narrow_table)) example_session)
  = attr_y example_session /\
  numberOfClusters (exec (set_data (Some narrow_table)) example_session)
  = numberOfClusters example_session /\
  sent (exec (set_data (Some narrow_table)) example_session)
  = sent example_session.
Proof.
  apply (set_data_refuses_unusable_input (Some narrow_table) example_session).
  reflexivity.
Defined.

(** ** Autoplay and the buttons *)

Ltac locked_leaf :=
  let w := fresh "w" in
  let H := fresh "H" in
  let Ht := fresh "Ht" in
  let Hb := fresh "Hb" in
  let Ha := fresh "Ha" in
  intros w H;
  first
    [ exact H
    | destruct H as [Ht Hb]; split; [exact Ht|];
      intros Ha; destruct (Hb Ha) as (? & ? & ?);
      repeat split; assumption || reflexivity ].

(** Walks through a handler that does not write [autoPlay] and disables, but
    never enables, the three buttons. *)
Ltac keeps_locked :=
  unfold add_centroids, replot, send_data, concat_x_y, new_Kmeans,
    set_empty_plot, k_means_call, the_k_means, draw, send, modify_gui;
  repeat
    match goal with
    | |- keeps _ (bind _ _) => apply keeps_bind; [|intro]
    | |- keeps _ (ret _) => apply keeps_ret
    | |- keeps _ (raise _) => apply keeps_raise
    | |- keeps _ get => apply keeps_get
    | |- keeps _ (require _ _) => apply keeps_require
    | |- keeps _ (for_range _ _) => apply keeps_for_range
    | H : keeps ?I ?c |- keeps ?I ?c => exact H
    | |- keeps _ (modify _) => apply keeps_modify; locked_leaf
    | |- keeps _ (match ?x with _ => _ end) => destruct x
    end.

Lemma keeps_locked_number_of_clusters_changed_with (restart : M unit) :
  keeps autoplay_locked restart ->
  keeps autoplay_locked (number_of_clusters_changed_with restart).
Proof.
  intros Hr. unfold number_of_clusters_changed_with. keeps_locked.
Qed.

Lemma keeps_locked_restart_at (fuel : nat) :
  keeps autoplay_locked (restart_at fuel).
Proof.
  induction fuel as [|fuel IH]; simpl; [apply keeps_raise|].
  pose proof (keeps_locked_number_of_clusters_changed_with IH).
  keeps_locked.
Qed.

Lemma keeps_locked_send_data : keeps autoplay_locked send_data.
Proof. keeps_locked. Qed.

(** The end of [step]: the step-back button is enabled only when autoplay
    is off. *)
Lemma keeps_locked_step_end :
  keeps autoplay_locked
        (bind get
              (fun w =>
                 bind (if negb (autoPlay w)
                       then modify_gui (with_stepBackButton_disabled false)
                       else ret tt)
                      (fun _ => send_data))).
Proof.
  intros w H. rewrite bind_get.
  destruct (autoPlay w) eqn:Ha; simpl negb; cbv iota.
  - rewrite bind_ret. apply keeps_locked_send_data. exact H.
  - rewrite bind_modify_gui. apply keeps_locked_send_data.
    destruct H as [Ht _]. split; [exact Ht|].
    simpl. intros Ha'. congruence.
Qed.

Lemma keeps_locked_step : keeps autoplay_locked step.
Proof.
  pose proof keeps_locked_step_end.
  unfold step.
  do 3 (apply keeps_bind; [keeps_locked|intro]).
  do 2 (apply keeps_bind; [keeps_locked|intro]).
  assumption.
Qed.

Lemma stop_auto_play_unlocks :
  triple (fun _ => True) stop_auto_play (fun _ => autoplay_locked)
         autoplay_locked.
Proof.
  intros w _. unfold stop_auto_play.
  rewrite !bind_modify_gui, bind_modify, bind_get. simpl.
  split; [reflexivity|]. simpl. discriminate.
Qed.

Lemma keeps_locked_stop_auto_play : keeps autoplay_locked stop_auto_play.
Proof. intros w _. now apply stop_auto_play_unlocks. Qed.

Lemma keeps_locked_auto_play : keeps autoplay_locked auto_play.
Proof.
  intros w H. unfold auto_play.
  rewrite bind_modify, bind_get, bind_modify_gui.
  destruct (autoPlay w) eqn:Ha; simpl.
  - now apply stop_auto_play_unlocks.
  - split; [reflexivity|]. intros _. repeat split; reflexivity.
Qed.

Lemma keeps_locked_handle (e : Event) : keeps autoplay_locked (handle e).
Proof.
  pose proof keeps_locked_restart_at as Hr.
  pose proof (keeps_locked_number_of_clusters_changed_with
                (Hr (pred recursion_limit))).
  pose proof (Hr recursion_limit).
  destruct e; simpl;
    try apply keeps_locked_step;
    try apply keeps_locked_auto_play;
    try apply keeps_locked_stop_auto_play;
    unfold set_data, cbx_activated, cby_activated,
      centroidNumbersSpinner_changed, number_of_clusters_changed,
      linesCheckbox_toggled, step_back, restart,
      js_click_function, chart_clicked, graph_clicked,
      js_drop_function, point_dropped, centroid_dropped in *;
    keeps_locked.
Qed.

(** X8. In every state the widget reaches from its construction, by any
    sequence of events, the autoplay button reads "Stop" exactly while
    [autoPlay] is set, and while it is set the step, restart and step-back
    buttons are disabled. *)
Theorem autoplay_locks_the_buttons (s : Settings) (random : nat -> Point)
        (es : list Event) :
  autoplay_locked (run es (init s random)).
Proof.
  assert (H : forall w, autoplay_locked w -> autoplay_locked (run es w)).
  { induction es as [|e es IH]; intros w Hw; simpl; [exact Hw|].
    apply IH. apply keeps_exec; [apply keeps_locked_handle|exact Hw]. }
  apply H. split; [reflexivity|]. simpl. discriminate.
Qed.

(** With autoplay on and two steps taken, the three buttons are disabled
    and the button reads "Stop". *)
Example autoplay_locks_the_buttons_example :
  autoPlay (run autoplay_events (init default_settings example_random))
  = true /\
  autoPlayButton_text
    (gui (run autoplay_events (init default_settings example_random)))
  = "Stop"%string /\
  stepBackButton_disabled
    (gui (run autoplay_events (init default_settings example_random)))
  = true.
Proof. vm_compute. repeat split; reflexivity. Qed.

(** ** The command box *)

(** Walks through a handler whose commands write none of the fields an
    invariant reads. *)
Ltac keeps_beside :=
  unfold add_centroids, replot, send_data, concat_x_y, new_Kmeans,
    set_empty_plot, k_means_call, the_k_means, draw, send, modify_gui;
  repeat
    match goal with
    | |- keeps _ (bind _ _) => apply keeps_bind; [|intro]
    | |- keeps _ (ret _) => apply keeps_ret
    | |- keeps _ (raise _) => apply keeps_raise
    | |- keeps _ get => apply keeps_get
    | |- keeps _ (require _ _) => apply keeps_require
    | |- keeps _ (for_range _ _) => apply keeps_for_range
    | H : keeps ?I ?c |- keeps ?I ?c => exact H
    | |- keeps _ (modify _) =>
        apply keeps_modify;
        let w := fresh "w" in let H := fresh "H" in intros w H; exact H
    | |- keeps _ (match ?x with _ => _ end) => destruct x
    end.

Lemma number_of_clusters_changed_sets_commands (restart : M unit)
      (t : Table) (n : Z) (w : OWKmeans) :
  keeps (commands_reflect t n) restart ->
  data w = Some t ->
  numberOfClusters w = n ->
  commands_reflect t n (exec (number_of_clusters_changed_with restart) w).
Proof.
  intros Hr Hd Hn. unfold exec, number_of_clusters_changed_with.
  rewrite bind_get, Hd.
  change (require (Some t) TypeError) with (ret t). rewrite bind_ret, Hn.
  destruct (len t <? n)%Z eqn:E.
  - rewrite bind_modify_gui. unfold set_empty_plot.
    rewrite bind_modify_gui. simpl.
    repeat split; simpl; try assumption; now rewrite E.
  - rewrite !bind_modify_gui.
    match goal with
    | |- commands_reflect t n (snd (?c ?w1)) =>
        assert (Hc : keeps (commands_reflect t n) c) by keeps_beside;
        change (commands_reflect t n (exec c w1));
        apply keeps_exec; [exact Hc|]
    end.
    repeat split; simpl; try assumption; now rewrite E.
Qed.

Lemma keeps_commands_number_of_clusters_changed_with (restart : M unit)
      (t : Table) (n : Z) :
  keeps (commands_reflect t n) restart ->
  keeps (commands_reflect t n) (number_of_clusters_changed_with restart).
Proof.
  intros Hr w H.
  pose proof (number_of_clusters_changed_sets_commands
                w Hr (proj1 H) (proj1 (proj2 H))) as Hw.
  unfold exec in Hw.
  destruct (number_of_clusters_changed_with restart w) as [[a|e] w1];
    exact Hw.
Qed.

Lemma keeps_commands_restart_at (t : Table) (n : Z) (fuel : nat) :
  keeps (commands_reflect t n) (restart_at fuel).
Proof.
  induction fuel as [|fuel IH]; simpl; [apply keeps_raise|].
  pose proof (keeps_commands_number_of_clusters_changed_with IH).
  keeps_beside.
Qed.

(** X9. Whenever [number_of_clusters_changed] is called with data, then,
    however the call ends, the command box is disabled exactly if the data
    has fewer rows than [numberOfClusters], the message is shown in that
    case and cleared otherwise, and the data and the setting are as
    before. *)
Theorem command_box_follows_cluster_count (w : OWKmeans) (t : Table) :
  data w = Some t ->
  commandsBox_disabled (gui (exec number_of_clusters_changed w))
  = (len t <? numberOfClusters w)%Z /\
  info (gui (exec number_of_clusters_changed w))
  = (if (len t <? numberOfClusters w)%Z then too_few_points else ""%string) /\
  data (exec number_of_clusters_changed w) = Some t /\
  numberOfClusters (exec number_of_clusters_changed w) = numberOfClusters w.
Proof.
  intros Hd.
  destruct (@number_of_clusters_changed_sets_commands
              (restart_at (pred recursion_limit)) t (numberOfClusters w) w
              (@keeps_commands_restart_at t (numberOfClusters w)
                                          (pred recursion_limit))
              Hd eq_refl)
    as (H1 & H2 & H3 & H4).
  repeat split; assumption.
Qed.

Lemma command_box_follows_cluster_count_witness :
  commandsBox_disabled (gui (exec number_of_clusters_changed example_session))
  = (len example_table <? numberOfClusters example_session)%Z /\
  info (gui (exec number_of_clusters_changed example_session))
  = (if (len example_table <? numberOfClusters example_session)%Z
     then too_few_points else ""%string) /\
  data (exec number_of_clusters_changed example_session)
  = Some example_table /\
  numberOfClusters (exec number_of_clusters_changed example_session)
  = numberOfClusters example_session.
Proof.
  apply (command_box_follows_cluster_count example_session
                                           (t := example_table)).
  reflexivity.
Defined.

(** ** The controls after a step *)

Lemma controls_follow_phase_set (w : OWKmeans) (km : Kmeans.t) :
  k_means w = Some km ->
  controls_follow_phase
    (with_gui
       (with_stepButton_text
          (step_button_text km)
          (with_centroidNumbersSpinner_disabled
             (if Kmeans.step_completed km then false else true) (gui w)))
       w).
Proof.
  intros H. exists km.
  repeat split;
    first [exact H|simpl; now destruct (Kmeans.step_completed km)].
Qed.

Lemma controls_follow_phase_send_data (w : OWKmeans) :
  controls_follow_phase w -> controls_follow_phase (snd (send_data w)).
Proof.
  intros (km & Hk & Hs & Ht).
  destruct (view_only_send_data w) as (_ & _ & _ & _ & _ & _ & Hk' & _).
  exists km. rewrite beside_gui_send_data. repeat split; congruence.
Qed.

Lemma step_sets_controls (b : bool) :
  triple (fun w => autoPlay w = b) step
         (fun _ w =>
            controls_follow_phase w /\
            (b = false -> stepBackButton_disabled (gui w) = false))
         (fun _ => True).
Proof.
  unfold step.
  eapply triple_bind
    with (Q := fun _ w => autoPlay w = b).
  { apply triple_frame. intros w H.
    assert (Hu : untouched autoPlay (k_means_call Kmeans.step)) by untouched.
    now rewrite Hu. }
  intros ?. eapply triple_bind with (Q := fun _ w => autoPlay w = b).
  { apply triple_frame. intros w H.
    assert (Hu : untouched autoPlay replot) by untouched.
    now rewrite Hu. }
  intros ?. eapply triple_bind
    with (Q := fun km w => autoPlay w = b /\ k_means w = Some km).
  { intros w H. unfold the_k_means. rewrite bind_get.
    destruct (k_means w) eqn:Hk; simpl; auto. }
  intros km w [Ha Hk]. rewrite !bind_modify_gui, bind_get.
  cbn [autoPlay with_gui]. rewrite Ha.
  destruct b; simpl negb; cbv iota.
  - rewrite bind_ret.
    pose proof (controls_follow_phase_send_data
                  (controls_follow_phase_set w Hk)) as H.
    destruct (send_data _) as [[[]|e] w1]; [|exact I].
    split; [exact H|discriminate].
  - rewrite bind_modify_gui.
    match goal with
    | |- match send_data ?w1 with _ => _ end =>
        assert (H : controls_follow_phase w1)
          by (destruct (controls_follow_phase_set w Hk)
               as (km' & H1 & H2 & H3);
              exists km'; repeat split; assumption);
        pose proof (controls_follow_phase_send_data H) as Hs;
        pose proof (beside_gui_send_data w1) as Hg
    end.
    destruct (send_data _) as [[[]|e] w1]; [|exact I].
    split; [exact Hs|]. intros _. simpl in Hg. now rewrite Hg.
Qed.

Lemma step_back_sets_controls :
  triple (fun _ => True) step_back (fun _ => controls_follow_phase)
         (fun _ => True).
Proof.
  unfold step_back.
  do 2 (eapply triple_bind; [apply triple_true|intros ?]).
  eapply triple_bind with (Q := fun km w => k_means w = Some km).
  { intros w _. unfold the_k_means. rewrite bind_get.
    destruct (k_means w) eqn:Hk; simpl; auto. }
  intros km w Hk. rewrite !bind_modify_gui.
  destruct (Kmeans.stepNo km <=? 0)%Z.
  - rewrite bind_modify_gui.
    match goal with
    | |- match send_data ?w1 with _ => _ end =>
        assert (H : controls_follow_phase w1)
          by (destruct (controls_follow_phase_set w Hk)
               as (km' & H1 & H2 & H3);
              exists km'; repeat split; assumption);
        pose proof (controls_follow_phase_send_data H) as Hs
    end.
    destruct (send_data _) as [[[]|e] w1]; [exact Hs|exact I].
  - rewrite bind_ret.
    pose proof (controls_follow_phase_send_data
                  (controls_follow_phase_set w Hk)) as H.
    destruct (send_data _) as [[[]|e] w1]; [exact H|exact I].
Qed.

(** X10. After every call of [step] or [step_back] that completes, the
    spinner for the number of centroids is enabled exactly when the engine
    is in the phase [step_completed], and the step button shows the label of
    that phase; a completed [step] outside autoplay also enables the
    step-back button. *)
Theorem controls_follow_phase_after_step (w : OWKmeans) :
  (outcome step w = Ok tt ->
   controls_follow_phase (exec step w) /\
   (autoPlay w = false ->
    stepBackButton_disabled (gui (exec step w)) = false)) /\
  (outcome step_back w = Ok tt -> controls_follow_phase (exec step_back w)).
Proof.
  unfold outcome, exec. split; intros Hok.
  - pose proof (@step_sets_controls (autoPlay w)) as H.
    specialize (H w eq_refl).
    destruct (step w) as [[[]|e] w1]; [exact H|discriminate].
  - pose proof step_back_sets_controls as H. specialize (H w I).
    destruct (step_back w) as [[[]|e] w1]; [exact H|discriminate].
Qed.

Lemma controls_follow_phase_after_step_witness :
  (controls_follow_phase (exec step example_session) /\
   (autoPlay example_session = false ->
    stepBackButton_disabled (gui (exec step example_session)) = false)) /\
  controls_follow_phase (exec step_back (run [StepButton] example_session)).
Proof.
  split.
  - apply (proj1 (controls_follow_phase_after_step example_session)).
    vm_compute. reflexivity.
  - apply (proj2 (controls_follow_phase_after_step
                    (run [StepButton] example_session))).
    vm_compute. reflexivity.
Defined.

(** ** What [replot] draws *)












(** X12. [replot] changes nothing but the chart, whatever its outcome, and
    calling it a second time changes nothing more. *)
Theorem replot_only_redraws (w : OWKmeans) :
  (exec replot w = w \/
   exists plot,
     exec replot w = with_gui (with_scatter (Some plot) (gui w)) w) /\
  exec replot (exec replot w) = exec replot w.
Proof.
  unfold exec.
  destruct (replot_cases w)
    as [[_ H]|(t & ax & ay & km & Hd & Hx & Hy & Hax & Hay & Hk & H)].
  - rewrite H. split; [now left|exact H].
  - rewrite H. simpl. split; [right; now eexists|].
    rewrite (@replot_draws
               (with_gui (with_scatter (Some (plot_of w ax ay km)) (gui w)) w)
               t ax ay km Hd Hx Hy Hax Hay Hk).
    reflexivity.
Qed.

(** ** The autoplay thread without an engine *)

(** X13. When the autoplay thread, after [n] rounds, finds the widget
    without an engine, it ends with [AttributeError]: it has emitted [n]
    times [step()] and never emits [stop_auto_play()].  This happens at once
    when autoplay is started before any usable input. *)
Theorem autoplay_dies_without_engine (view : nat -> OWKmeans)
        (n fuel : nat) :
  (forall i, i < n -> keeps_playing (view i)) ->
  k_means (view n) = None ->
  n < fuel ->
  Autoplay.run fuel view = Some (Raise AttributeError, rounds n) /\
  emitted "stop_auto_play()" (rounds n) = 0.
Proof.
  intros Hplay Hnone Hfuel.
  split; [|apply emitted_rounds].
  unfold Autoplay.run.
  assert (H : forall m fuel' i,
             (forall j, j < m -> keeps_playing (view (i + j))) ->
             k_means (view (i + m)) = None ->
             m < fuel' ->
             Autoplay.run_from fuel' view i
             = Some (Raise AttributeError, rounds m)).
  { induction m as [|m IH]; intros fuel' i Hp Hn Hf;
      (destruct fuel' as [|fuel']; [lia|]); simpl.
    - rewrite Nat.add_0_r in Hn. unfold loop_condition. now rewrite Hn.
    - assert (H0 : keeps_playing (view i)).
      { rewrite <- (Nat.add_0_r i). apply Hp. lia. }
      rewrite (keeps_playing_condition H0).
      rewrite (IH fuel' (S i)); [reflexivity| | |lia].
      + intros j Hj. replace (S i + j) with (i + S j) by lia.
        apply Hp. lia.
      + now replace (S i + m) with (i + S m) by lia. }
  now apply H.
Qed.

Lemma autoplay_dies_without_engine_witness :
  accepted [AutoPlayButton] (init default_settings example_random) = true /\
  Autoplay.run 1 (fun _ => run [AutoPlayButton]
                               (init default_settings example_random))
  = Some (Raise AttributeError, rounds 0) /\
  emitted "stop_auto_play()" (rounds 0) = 0.
Proof.
  split; [reflexivity|].
  apply (@autoplay_dies_without_engine
           (fun _ => run [AutoPlayButton]
                         (init default_settings example_random)) 0 1).
  - intros i Hi. lia.
  - reflexivity.
  - lia.
Defined.

(** ** Start and stop *)

Lemma auto_play_starts (w : OWKmeans) :
  autoPlay w = false ->
  auto_play w
  = (Ok tt,
     with_autoPlayThread
       (S (autoPlayThread w))
       (with_gui
          (with_stepBackButton_disabled
             true
             (with_restartButton_disabled
                true
                (with_stepButton_disabled
                   true
                   (with_optionsBox_disabled
                      true (with_autoPlayButton_text "Stop" (gui w))))))
          (with_autoPlay true w))).
Proof.
  intros Ha. unfold auto_play.
  rewrite bind_modify, bind_get, bind_modify_gui.
  cbn [autoPlay with_autoPlay with_gui]. rewrite Ha. cbn [negb].
  rewrite !bind_modify_gui. vm_compute. reflexivity.
Qed.

Lemma auto_play_stops (w : OWKmeans) :
  autoPlay w = true ->
  auto_play w
  = (Ok tt,
     with_gui
       (with_autoPlayButton_text
          "Start"
          (with_stepBackButton_disabled
             false
             (with_restartButton_disabled
                false
                (with_stepButton_disabled
                   false
                   (with_optionsBox_disabled
                      false (with_autoPlayButton_text "Start" (gui w)))))))
       (with_autoPlay false w)).
Proof.
  intros Ha. unfold auto_play.
  rewrite bind_modify, bind_get, bind_modify_gui.
  cbn [autoPlay with_autoPlay with_gui]. rewrite Ha. cbn [negb].
  unfold stop_auto_play.
  rewrite !bind_modify_gui, bind_modify, bind_get. vm_compute. reflexivity.
Qed.

(** X14. Pressing the autoplay button twice, from a state where autoplay is
    off, starts exactly one thread and ends with autoplay off, the button
    reading "Start", and the options box and the step, restart and step-back
    buttons enabled; nothing else of the widget has changed. *)
Theorem auto_play_twice (w : OWKmeans) :
  autoPlay w = false ->
  outcome auto_play (exec auto_play w) = Ok tt /\
  exec auto_play (exec auto_play w)
  = with_autoPlayThread
      (S (autoPlayThread w))
      (with_gui
         (with_autoPlayButton_text
            "Start"
            (with_stepBackButton_disabled
               false
               (with_restartButton_disabled
                  false
                  (with_stepButton_disabled
                     false (with_optionsBox_disabled false (gui w))))))
         w).
Proof.
  intros Ha. unfold outcome, exec.
  rewrite (auto_play_starts w Ha). cbn [snd].
  erewrite auto_play_stops by (vm_compute; reflexivity).
  split; [reflexivity|]. cbn [snd].
  destruct w as [n a d ax ay l k g th se r ru]. cbn in Ha. subst a.
  vm_compute. reflexivity.
Qed.

Lemma auto_play_twice_witness :
  outcome auto_play (exec auto_play example_session) = Ok tt /\
  exec auto_play (exec auto_play example_session)
  = with_autoPlayThread
      (S (autoPlayThread example_session))
      (with_gui
         (with_autoPlayButton_text
            "Start"
            (with_stepBackButton_disabled
               false
               (with_restartButton_disabled
                  false
                  (with_stepButton_disabled
                     false
                     (with_optionsBox_disabled
                        false (gui example_session))))))
         example_session).
Proof.
  apply (@auto_play_twice example_session). vm_compute. reflexivity.
Defined.

(** ** The recursion of [restart] and [number_of_clusters_changed] ends *)

Lemma never_raises_bind (e : Exn) (A B : Type) (c : M A) (f : A -> M B) :
  never_raises e c -> (forall a, never_raises e (f a)) ->
  never_raises e (bind c f).
Proof.
  intros Hc Hf w. unfold bind. specialize (Hc w).
  destruct (c w) as [[a|e'] w1]; [apply Hf|].
  simpl in *. intros H. apply Hc. congruence.
Qed.

Lemma never_raises_for_range (e : Exn) (n : nat) (body : M unit) :
  never_raises e body -> never_raises e (for_range n body).
Proof.
  intros H. induction n as [|n IH]; simpl.
  - intros w. discriminate.
  - apply never_raises_bind; [exact H|intros _; exact IH].
Qed.

(** Walks through a handler whose own [raise]s are of other exceptions. *)
Ltac never_raises :=
  unfold add_centroids, replot, send_data, concat_x_y, new_Kmeans,
    set_empty_plot, k_means_call, the_k_means, draw, send, modify_gui;
  repeat
    match goal with
    | |- never_raises _ (bind _ _) => apply never_raises_bind; [|intro]
    | |- never_raises _ (for_range _ _) => apply never_raises_for_range
    | H : never_raises ?e ?c |- never_raises ?e ?c => exact H
    | |- never_raises _ (require ?o _) =>
        let w := fresh "w" in destruct o; intros w; discriminate
    | |- never_raises _ (match ?x with _ => _ end) => destruct x
    | |- never_raises _ _ => let w := fresh "w" in intros w; discriminate
    end.

Lemma never_overflows_number_of_clusters_changed_with (restart : M unit) :
  never_raises RecursionError restart ->
  never_raises RecursionError (number_of_clusters_changed_with restart).
Proof. intros H. unfold number_of_clusters_changed_with. never_raises. Qed.

Lemma restart_at_body (fuel : nat) (inner : M unit) (w : OWKmeans) :
  restart_at (S fuel) w = restart_body inner w.
Proof.
  simpl. unfold restart_body. apply bind_ext. intros points w1 _.
  apply bind_ext. intros km w2 _.
  rewrite !bind_modify. unfold bind at 1 3.
  now rewrite (@number_of_clusters_changed_with_engine
                 (restart_at fuel) inner
                 (with_k_means (Some km) w2) km eq_refl).
Qed.

Lemma never_overflows_restart_at (fuel : nat) :
  never_raises RecursionError (restart_at (S fuel)).
Proof.
  intros w. rewrite (restart_at_body fuel (ret tt) w). revert w.
  change (never_raises RecursionError (restart_body (ret tt))).
  pose proof (@never_overflows_number_of_clusters_changed_with (ret tt)) as H.
  assert (Hr : never_raises RecursionError (ret tt)) by (intros w; discriminate).
  specialize (H Hr). unfold restart_body. never_raises.
Qed.

(** X15. [restart] and [number_of_clusters_changed] call each other, but
    never more than two calls deep: [restart] installs an engine before it
    calls [number_of_clusters_changed], which calls [restart] only without
    one.  So neither raises [RecursionError], and every recursion limit that
    allows one nested call gives the same result. *)
Theorem recursion_stops_at_depth_two (w : OWKmeans) (fuel : nat) :
  restart_at (S fuel) w = restart w /\
  number_of_clusters_changed_with (restart_at (S fuel)) w
  = number_of_clusters_changed w /\
  outcome restart w <> Raise RecursionError /\
  outcome number_of_clusters_changed w <> Raise RecursionError.
Proof.
  split; [apply restart_at_fuel|].
  split; [apply number_of_clusters_changed_fuel|].
  split.
  - apply (never_overflows_restart_at (pred recursion_limit)).
  - apply (@never_overflows_number_of_clusters_changed_with
             (restart_at (pred recursion_limit))).
    apply (never_overflows_restart_at (pred (pred recursion_limit))).
Qed.

(** ** The axes chosen for a new input *)

Lemma untouched_axes_restart_at :
  forall fuel, untouched axes_view (restart_at fuel).
Proof. untouched_restart. Qed.

Lemma combo_items_attributes (t : Table) :
  combo_items (Some t)
  = map var_name (filter is_continuous (attributes (domain t)))
    ++ map var_name (filter is_continuous (class_vars (domain t))).
Proof.
  unfold combo_items, domain_iter. now rewrite filter_app, map_app.
Qed.

(** X16. A table with at least two continuous attributes is taken as the
    new data, and the axes are set to its first two continuous attributes,
    in domain order, whatever was chosen before and whether or not the
    restart that follows completes; the options box is enabled. *)
Theorem set_data_selects_first_two (t : Table) (w : OWKmeans) :
  unusable (Some t) = false ->
  exists vx vy rest,
    filter is_continuous (attributes (domain t)) = vx :: vy :: rest /\
    data (exec (set_data (Some t)) w) = Some t /\
    attr_x (exec (set_data (Some t)) w) = var_name vx /\
    attr_y (exec (set_data (Some t)) w) = var_name vy /\
    optionsBox_disabled (gui (exec (set_data (Some t)) w)) = false.
Proof.
  intros H. simpl in H.
  pose proof (combo_items_attributes t) as Hc.
  destruct (filter is_continuous (attributes (domain t)))
    as [|vx [|vy rest]] eqn:Hf; try discriminate H.
  exists vx, vy, rest. split; [reflexivity|].
  unfold exec, set_data. rewrite Hc, Hf.
  rewrite bind_modify, !bind_modify_gui.
  cbn [length Nat.ltb Nat.leb].
  rewrite !bind_modify_gui, bind_get, !bind_modify.
  pose proof (untouched_axes_restart_at recursion_limit) as Hr.
  fold restart in Hr.
  match goal with
  | |- context [restart ?w1] =>
      remember w1 as w0 eqn:Hw0; specialize (Hr w0)
  end.
  destruct (restart w0) as [r w']. cbn [snd] in *.
  unfold axes_view in Hr. injection Hr as Hd Hx Hy Ho.
  rewrite Hd, Hx, Hy, Ho, Hw0. repeat split; reflexivity.
Qed.

Lemma set_data_selects_first_two_witness :
  exists vx vy rest,
    filter is_continuous (attributes (domain mixed_table))
    = vx :: vy :: rest /\
    data (exec (set_data (Some mixed_table)) example_session)
    = Some mixed_table /\
    attr_x (exec (set_data (Some mixed_table)) example_session)
    = var_name vx /\
    attr_y (exec (set_data (Some mixed_table)) example_session)
    = var_name vy /\
    optionsBox_disabled
      (gui (exec (set_data (Some mixed_table)) example_session)) = false.
Proof.
  apply (@set_data_selects_first_two mixed_table example_session).
  reflexivity.
Defined.

(** ** A chart on display can be redrawn *)

(** X17. In every state the widget reaches from its construction by
    well-formed events, a chart is on display only while there is data, both
    chosen attributes name variables of its domain, and there is an engine:
    [replot] then completes, and so does unticking or ticking the
    membership lines. *)
Theorem displayed_chart_can_be_redrawn
        (s : Settings) (random : nat -> Point) (es : list Event)
        (plot : Plot) (b : bool) :
  forallb well_formed es = true ->
  scatter (gui (run es (init s random))) = Some plot ->
  drawable (run es (init s random)) /\
  outcome replot (run es (init s random)) = Ok tt /\
  outcome (linesCheckbox_toggled b) (run es (init s random)) = Ok tt.
Proof.
  intros Hwf Hp.
  pose proof (chart_invariant_run es Hwf (chart_invariant_init s random))
    as [Hs _].
  destruct (Hs plot Hp) as [Hd _]. split; [exact Hd|].
  destruct Hd as (t & ax & ay & km & Hd & Hx & Hy & Hax & Hay & Hk).
  split.
  - unfold outcome.
    now rewrite (@replot_draws _ t ax ay km Hd Hx Hy Hax Hay Hk).
  - unfold outcome, linesCheckbox_toggled. rewrite bind_modify.
    now rewrite (@replot_draws
                   (with_lines_to_centroids b (run es (init s random)))
                   t ax ay km Hd Hx Hy Hax Hay Hk).
Qed.

Lemma displayed_chart_can_be_redrawn_witness :
  drawable (run example_events (init default_settings example_random)) /\
  outcome replot (run example_events (init default_settings example_random))
  = Ok tt /\
  outcome (linesCheckbox_toggled true)
          (run example_events (init default_settings example_random))
  = Ok tt.
Proof.
  eapply (@displayed_chart_can_be_redrawn
            default_settings example_random example_events _ true).
  - reflexivity.
  - vm_compute. reflexivity.
Defined.
